(** * Uptime monitor: probe engine, incident state machine, notification
      queue and statistics aggregation

    A shallow embedding of [workers/monitoring/checker.js],
    [workers/monitoring/statistics.js] and the eligibility gate of
    [workers/monitoring/notifications.js].

    Conventions of the embedding.
    - A JavaScript number that is always integral in the code path at hand is
      a [Z]; [NaN] is [None] in [number].  Fractional quantities (minutes,
      percentages, averages) are exact rationals [Q]: IEEE rounding of
      doubles is not modelled.
    - A timestamp ([new Date().toISOString()], a [DATETIME] column) is the
      number of milliseconds since the epoch, a [Z].  ISO strings of one fixed
      format order like the instants they denote, so [ORDER BY checked_at]
      becomes an order on [Z]; [date(t)] is the day number [t / 86400000].
    - A SQL table is a list of rows in insertion order; [NULL] is [None].
    - [async] functions run to completion one after the other; a function
      that reads the clock takes the reading as an argument.
    - The store and the KV namespace answer every statement: the [catch]
      blocks that only log a failed statement have no counterpart. *)

From Stdlib Require Import ZArith QArith Qround List String Ascii Bool Lia.
From Stdlib Require Import DecimalString DecimalPos Lqa.
Import ListNotations.

Local Open Scope string_scope.
Local Open Scope list_scope.
Local Open Scope Z_scope.

(** String concatenation, as in a template literal. *)
Infix "^^" := String.append (right associativity, at level 60).

(* ================================================================== *)
(** ** JavaScript primitives used by the workers *)
(* ================================================================== *)

Module JS.

(** A JS number in integer-valued positions; [None] is [NaN]. *)
Definition number := option Z.

(** Template-literal rendering of an integer, [`${n}`]. *)
Definition toString (z : Z) : string := NilZero.string_of_int (Z.to_int z).

(** [s.includes(needle)] *)
Fixpoint includes (needle s : string) : bool :=
  prefix needle s ||
  match s with
  | EmptyString => false
  | String _ rest => includes needle rest
  end.

(** [s.split(sep)] for a one-character separator. *)
Fixpoint split (sep : ascii) (s : string) : list string :=
  match s with
  | EmptyString => [EmptyString]
  | String c rest =>
      if Ascii.eqb c sep then EmptyString :: split sep rest
      else match split sep rest with
           | p :: ps => String c p :: ps
           | [] => [String c EmptyString]
           end
  end.

(** White space of the ASCII range (TAB, LF, VT, FF, CR, SP). *)
Definition isWhiteSpace (c : ascii) : bool :=
  let n := Z.of_nat (nat_of_ascii c) in
  ((9 <=? n) && (n <=? 13)) || (n =? 32).

Fixpoint trimStart (s : string) : string :=
  match s with
  | EmptyString => EmptyString
  | String c rest => if isWhiteSpace c then trimStart rest else s
  end.

Fixpoint trimEnd (s : string) : string :=
  match s with
  | EmptyString => EmptyString
  | String c rest =>
      match trimEnd rest with
      | EmptyString => if isWhiteSpace c then EmptyString else String c EmptyString
      | r => String c r
      end
  end.

(** [s.trim()] *)
Definition trim (s : string) : string := trimEnd (trimStart s).

(** Value of a character as a digit of the given radix. *)
Definition digitValue (radix : Z) (c : ascii) : option Z :=
  let n := Z.of_nat (nat_of_ascii c) in
  let d := if (48 <=? n) && (n <=? 57) then Some (n - 48)
           else if (97 <=? n) && (n <=? 122) then Some (n - 87)
           else if (65 <=? n) && (n <=? 90) then Some (n - 55)
           else None in
  match d with
  | Some v => if v <? radix then Some v else None
  | None => None
  end.

(** Longest prefix of digits, most significant first; [acc] is [None]
    until a digit has been read. *)
Fixpoint parseDigits (radix : Z) (s : string) (acc : number) : number :=
  match s with
  | EmptyString => acc
  | String c rest =>
      match digitValue radix c with
      | Some v =>
          parseDigits radix rest
            (Some (match acc with Some a => a * radix + v | None => v end))
      | None => acc
      end
  end.

(** [parseInt(s)] with no radix argument: leading white space, an optional
    sign, an optional [0x]/[0X] prefix selecting radix 16, then the longest
    run of digits; [NaN] when that run is empty.  (Exact below 2^53.) *)
Definition parseInt (s : string) : number :=
  let s := trimStart s in
  let '(sign, s) :=
    match s with
    | String "-" rest => (-1, rest)
    | String "+" rest => (1, rest)
    | _ => (1, s)
    end in
  let '(radix, s) :=
    match s with
    | String "0" (String "x" rest) => (16, rest)
    | String "0" (String "X" rest) => (16, rest)
    | _ => (10, s)
    end in
  match parseDigits radix s None with
  | Some v => Some (sign * v)
  | None => None
  end.

(** [array.includes(x)] for a number [x] that is not [NaN]. *)
Definition arrayIncludes (l : list number) (x : Z) : bool :=
  existsb (fun c => match c with Some v => v =? x | None => false end) l.

(** [Math.round]: nearest integer, halves towards +infinity. *)
Definition Math_round (q : Q) : Z := Qfloor (q + (1 # 2))%Q.

(** Truthiness of a nullable integer (SQLite BOOLEAN / INTEGER column). *)
Definition truthy (v : option Z) : bool :=
  match v with
  | Some z => negb (z =? 0)
  | None => false
  end.

(** [s || dflt] for a nullable string: [null] and [""] are falsy. *)
Definition strOr (s : option string) (dflt : string) : string :=
  match s with
  | Some EmptyString | None => dflt
  | Some v => v
  end.

(** [n || 0] for a nullable number. *)
Definition numOr0 (n : option Z) : Z :=
  match n with
  | Some v => v
  | None => 0
  end.

End JS.

(* ================================================================== *)
(** ** [parseStatusCodes] (checker.js) *)
(* ================================================================== *)

(** The pushes of [for (let i = start; i <= end; i++) result.push(i)];
    the loop body never runs when either bound is [NaN]. *)
Definition pushRange (start end_ : JS.number) : list JS.number :=
  match start, end_ with
  | Some a, Some b =>
      map (fun k => Some (a + Z.of_nat k)) (seq 0 (Z.to_nat (b - a + 1)))
  | _, _ => []
  end.

Definition parsePart (part : string) : list JS.number :=
  if JS.includes "-" part then
    match map (fun x => JS.parseInt (JS.trim x)) (JS.split "-" part) with
    | start :: end_ :: _ => pushRange start end_
    | _ => []
    end
  else [JS.parseInt (JS.trim part)].

Definition parseStatusCodes (codes : option string) : list JS.number :=
  match codes with
  | None | Some EmptyString => [Some 200]
  | Some s => flat_map parsePart (JS.split "," s)
  end.

(** The integers [lo, lo+1, ..., hi]. *)
Definition codesFromTo (lo hi : Z) : list JS.number :=
  map (fun k => Some (lo + Z.of_nat k)) (seq 0 (Z.to_nat (hi - lo + 1))).

(** C8. [parseStatusCodes("200-299,304")] is the list 200, 201, ..., 299, 304
    (so it holds a code exactly when the code is in 200..299 or is 304), and
    [parseStatusCodes(null)] is the one-element list 200. *)
Theorem parseStatusCodes_examples :
  parseStatusCodes (Some "200-299,304") = codesFromTo 200 299 ++ [Some 304]
  /\ (forall c : Z,
        JS.arrayIncludes (parseStatusCodes (Some "200-299,304")) c = true
        <-> (200 <= c <= 299 \/ c = 304))
  /\ parseStatusCodes None = [Some 200].
Proof.
  assert (E : parseStatusCodes (Some "200-299,304")
              = codesFromTo 200 299 ++ [Some 304]) by (vm_compute; reflexivity).
  split; [exact E|]. split; [|reflexivity].
  intro c. rewrite E. unfold JS.arrayIncludes, codesFromTo.
  rewrite existsb_app, orb_true_iff, existsb_exists.
  change (Z.to_nat (299 - 200 + 1)) with 100%nat.
  split.
  - intros [[x [Hin Hx]]|H].
    + left. apply in_map_iff in Hin. destruct Hin as [k [<- Hk]].
      apply in_seq in Hk. apply Z.eqb_eq in Hx. lia.
    + right. unfold existsb in H. rewrite orb_false_r in H.
      apply Z.eqb_eq in H. lia.
  - intros [H|H].
    + left. exists (Some c). split; [|apply Z.eqb_refl].
      apply in_map_iff. exists (Z.to_nat (c - 200)). split.
      * f_equal. lia.
      * apply in_seq. lia.
    + right. subst c. reflexivity.
Qed.

(* ================================================================== *)
(** ** Data model *)
(* ================================================================== *)

(** A row of [monitors], limited to the columns the monitoring workers read
    or write.  The request options of an HTTP probe (method, headers, body,
    authentication, redirects) only shape the request that is sent; what
    comes back is an input of the model (see [World]). *)
Record Monitor := {
  id : Z;
  name : string;
  type : string;
  url : option string;
  hostname : option string;
  port : option Z;
  keyword : string;
  keyword_type : option string;
  interval_seconds : Z;
  timeout_seconds : Z;
  expected_status_codes : option string;
  is_active : option Z;
  uptime_30d : option Q;
  uptime_7d : option Q;
  avg_response_time_30d : option Z;
  stats_updated_at : option Z
}.

(** The object every probe returns.  [ssl_days_remaining] and
    [keyword_found] are [None] when the property is absent. *)
Record CheckResult := {
  status : string;
  response_time_ms : option Z;
  status_code : option Z;
  error_message : option string;
  checked_at : Z;
  region : string;
  ssl_days_remaining : option Z;
  keyword_found : option bool
}.

(** Rows of [monitor_checks]. *)
Record CheckRow := {
  chk_id : Z;
  chk_monitor_id : Z;
  chk_status : string;
  chk_response_time_ms : option Z;
  chk_status_code : option Z;
  chk_error_message : option string;
  chk_checked_at : Z;
  chk_region : string;
  chk_ssl_days_remaining : option Z;
  chk_keyword_found : option bool
}.

(** Rows of [incidents]. *)
Record IncidentRow := {
  inc_id : Z;
  inc_monitor_id : Z;
  inc_status : string;
  inc_started_at : Z;
  inc_resolved_at : option Z;
  inc_duration_seconds : option Z;
  inc_cause : string
}.

(** Rows of [uptime_stats]: the columns named by the incremental upsert of
    checker.js ([successful_checks], [*_response_time_ms]) and those named
    by the nightly writer of statistics.js ([up_checks], [down_checks],
    [*_response_time], [downtime_*]).  A column a writer does not name takes
    its declared default ([total_checks] 0, [successful_checks] 0,
    [uptime_percentage] 100.0) or [NULL]. *)
Record StatRow := {
  st_monitor_id : Z;
  st_date : Z;
  total_checks : option Z;
  successful_checks : option Z;
  uptime_percentage : option Q;
  avg_response_time_ms : option Q;
  min_response_time_ms : option Z;
  max_response_time_ms : option Z;
  up_checks : option Z;
  down_checks : option Z;
  avg_response_time : option Z;
  min_response_time : option Z;
  max_response_time : option Z;
  downtime_duration : option Z;
  downtime_incidents : option Z
}.

(** Rows of [alert_contacts] and [monitor_alert_contacts]. *)
Record AlertContact := {
  ac_id : Z;
  ac_is_active : option Z
}.

Record MonitorAlertContact := {
  mac_monitor_id : Z;
  mac_alert_contact_id : Z;
  mac_notify_on_down : option Z;
  mac_notify_on_up : option Z;
  mac_delay_minutes : option Z
}.

Record Database := {
  monitors : list Monitor;
  monitor_checks : list CheckRow;
  incidents : list IncidentRow;
  uptime_stats : list StatRow;
  alert_contacts : list AlertContact;
  monitor_alert_contacts : list MonitorAlertContact
}.

(** The queued notification, the JSON value of a [notification:...] key. *)
Record Notification := {
  monitorId : Z;
  monitorName : string;
  contactId : Z;
  n_status : string;
  previousStatus : string;
  delayMinutes : Z;
  timestamp : Z
}.

(** Keys of the KV namespace: [`heartbeat:${monitor.id}`] and
    [`notification:${Date.now()}:${monitor.id}:${contact.id}`]. *)
Inductive KVKey :=
| HeartbeatKey (monitor : Z)
| NotificationKey (now monitor contact : Z).

(** Values: a heartbeat holds a date string, kept as what [new Date(s)]
    makes of it ([None] for an invalid date); expiry is not modelled. *)
Inductive KVValue :=
| HeartbeatAt (t : JS.number)
| Queued (n : Notification).

Definition KVKey_eqb (a b : KVKey) : bool :=
  match a, b with
  | HeartbeatKey m, HeartbeatKey m' => m =? m'
  | NotificationKey t m c, NotificationKey t' m' c' =>
      (t =? t') && (m =? m') && (c =? c')
  | _, _ => false
  end.

Definition KV := list (KVKey * KVValue).

Fixpoint kv_get (k : KVKey) (kv : KV) : option KVValue :=
  match kv with
  | [] => None
  | (k', v) :: rest => if KVKey_eqb k k' then Some v else kv_get k rest
  end.

Fixpoint kv_put (k : KVKey) (v : KVValue) (kv : KV) : KV :=
  match kv with
  | [] => [(k, v)]
  | (k', v') :: rest =>
      if KVKey_eqb k k' then (k, v) :: rest else (k', v') :: kv_put k v rest
  end.

Record Env := {
  DB : Database;
  UPTIME_MONITOR_KV : KV
}.

(** What the outside world answers during one monitoring cycle. *)
Inductive FetchOutcome :=
| Responds (code : Z) (text : string)
| Rejects (errName errMessage : string).

Record World := {
  setup_error : option string;  (* JSON.parse(headers) or btoa raising *)
  fetched : FetchOutcome;       (* the probe's fetch *)
  refetched : FetchOutcome;     (* the keyword probe's second fetch *)
  socket_error : option string; (* connect(): None when [opened] resolves *)
  startTime : Z;                (* Date.now() before the call *)
  endTime : Z;                  (* Date.now() after the call *)
  stampTime : Z;                (* new Date() stamped on the result *)
  saveTime : Z;                 (* new Date() read by updateDailyStats *)
  handleTime : Z                (* new Date() read by handleStatusChange *)
}.

(** What the runtime rejects with when [AbortSignal.timeout] fires. *)
Definition timedOut : FetchOutcome :=
  Rejects "TimeoutError" "The operation was aborted due to timeout".

(** Normal or abrupt completion of a call. *)
Inductive Completion (A : Type) :=
| Returns (a : A)
| Throws (message : string).
Arguments Returns {A} a.
Arguments Throws {A} message.

Definition getRegion : string := "cf-auto".

Definition msPerDay : Z := 86400000.

(** [t.toISOString().split('T')[0]] and SQL [date(t)], as a day number. *)
Definition dateOf (t : Z) : Z := t / msPerDay.

(** SQL [strftime('%s', t)]: whole seconds since the epoch. *)
Definition strftime_s (t : Z) : Z := t / 1000.

(* ================================================================== *)
(** ** Probes (checker.js) *)
(* ================================================================== *)

Definition dquote : string := String (ascii_of_nat 34) EmptyString.

Definition isUp (s : string) : bool := String.eqb s "up".

Section Probes.

Variable monitor : Monitor.
Variable w : World.

Definition responseTime : Z := endTime w - startTime w.

Definition checkHTTP : Completion CheckResult :=
  match setup_error w with
  | Some message => Throws message
  | None =>
      match fetched w with
      | Responds statusCode _ =>
          let expectedCodes := parseStatusCodes (expected_status_codes monitor) in
          let isStatusOk := JS.arrayIncludes expectedCodes statusCode in
          Returns {|
            status := if isStatusOk then "up" else "down";
            response_time_ms := Some responseTime;
            status_code := Some statusCode;
            error_message :=
              if isStatusOk then None
              else Some ("Unexpected status code: " ^^ JS.toString statusCode);
            checked_at := stampTime w;
            region := getRegion;
            ssl_days_remaining := None;
            keyword_found := None |}
      | Rejects errName errMessage =>
          let errorMessage :=
            if String.eqb errName "AbortError" || JS.includes "timeout" errMessage
            then "Request timeout after "
                 ^^ JS.toString (timeout_seconds monitor) ^^ "s"
            else errMessage in
          Returns {|
            status := "timeout";
            response_time_ms := Some responseTime;
            status_code := None;
            error_message := Some errorMessage;
            checked_at := stampTime w;
            region := getRegion;
            ssl_days_remaining := None;
            keyword_found := None |}
      end
  end.

Definition checkKeyword : Completion CheckResult :=
  match checkHTTP with
  | Throws message => Throws message
  | Returns httpResult =>
      if negb (isUp (status httpResult)) then Returns httpResult
      else
        match refetched w with
        | Responds _ content =>
            let keywordType := JS.strOr (keyword_type monitor) "exists" in
            let keywordFound := JS.includes (keyword monitor) content in
            let isOk := if String.eqb keywordType "exists"
                        then keywordFound else negb keywordFound in
            Returns {|
              status := if isOk then "up" else "down";
              response_time_ms := response_time_ms httpResult;
              status_code := status_code httpResult;
              error_message :=
                if isOk then None
                else Some ("Keyword " ^^ dquote ^^ keyword monitor ^^ dquote ^^ " "
                           ^^ (if String.eqb keywordType "exists"
                               then "not found" else "found"));
              checked_at := checked_at httpResult;
              region := region httpResult;
              ssl_days_remaining := ssl_days_remaining httpResult;
              keyword_found := Some keywordFound |}
        | Rejects _ errMessage =>
            Returns {|
              status := "error";
              response_time_ms := response_time_ms httpResult;
              status_code := status_code httpResult;
              error_message := Some ("Keyword check failed: " ^^ errMessage);
              checked_at := checked_at httpResult;
              region := region httpResult;
              ssl_days_remaining := ssl_days_remaining httpResult;
              keyword_found := keyword_found httpResult |}
        end
  end.

Definition checkPing : Completion CheckResult :=
  match fetched w with
  | Responds statusCode _ =>
      Returns {|
        status := "up";
        response_time_ms := Some responseTime;
        status_code := Some statusCode;
        error_message := None;
        checked_at := stampTime w;
        region := getRegion;
        ssl_days_remaining := None;
        keyword_found := None |}
  | Rejects _ errMessage =>
      Returns {|
        status := "down";
        response_time_ms := Some responseTime;
        status_code := None;
        error_message := Some errMessage;
        checked_at := stampTime w;
        region := getRegion;
        ssl_days_remaining := None;
        keyword_found := None |}
  end.

Definition checkPort : Completion CheckResult :=
  match socket_error w with
  | None =>
      Returns {|
        status := "up";
        response_time_ms := Some responseTime;
        status_code := None;
        error_message := None;
        checked_at := stampTime w;
        region := getRegion;
        ssl_days_remaining := None;
        keyword_found := None |}
  | Some errMessage =>
      Returns {|
        status := "down";
        response_time_ms := Some responseTime;
        status_code := None;
        error_message :=
          Some ("Port "
                ^^ match port monitor with
                   | Some p => JS.toString p
                   | None => "null"
                   end
                ^^ " closed or unreachable: " ^^ errMessage);
        checked_at := stampTime w;
        region := getRegion;
        ssl_days_remaining := None;
        keyword_found := None |}
  end.

Definition checkSSL : Completion CheckResult :=
  match fetched w with
  | Responds statusCode _ =>
      Returns {|
        status := "up";
        response_time_ms := Some 0;
        status_code := Some statusCode;
        error_message := None;
        checked_at := stampTime w;
        region := getRegion;
        ssl_days_remaining := Some 30;
        keyword_found := None |}
  | Rejects _ errMessage =>
      Returns {|
        status := "down";
        response_time_ms := Some 0;
        status_code := None;
        error_message := Some ("SSL check failed: " ^^ errMessage);
        checked_at := stampTime w;
        region := getRegion;
        ssl_days_remaining := Some 0;
        keyword_found := None |}
  end.

Definition checkHeartbeat (env : Env) : Completion CheckResult :=
  match kv_get (HeartbeatKey (id monitor)) (UPTIME_MONITOR_KV env) with
  | Some (HeartbeatAt lastHeartbeatTime) =>
      let maxInterval := inject_Z (interval_seconds monitor * 2) in
      match lastHeartbeatTime with
      | Some t =>
          let timeDiff := (inject_Z (stampTime w - t) / 1000)%Q in
          Returns {|
            status := if Qle_bool timeDiff maxInterval then "up" else "down";
            response_time_ms := Some (JS.Math_round (timeDiff * 1000)%Q);
            status_code := None;
            error_message :=
              if Qle_bool timeDiff maxInterval then None
              else Some ("Heartbeat overdue by "
                         ^^ JS.toString (JS.Math_round (timeDiff - maxInterval)%Q)
                         ^^ "s");
            checked_at := stampTime w;
            region := getRegion;
            ssl_days_remaining := None;
            keyword_found := None |}
      | None =>
          (* Invalid Date: every comparison with NaN is false. *)
          Returns {|
            status := "down";
            response_time_ms := None;
            status_code := None;
            error_message := None;
            checked_at := stampTime w;
            region := getRegion;
            ssl_days_remaining := None;
            keyword_found := None |}
      end
  | _ =>
      Returns {|
        status := "down";
        response_time_ms := Some 0;
        status_code := None;
        error_message := Some "No heartbeat received";
        checked_at := stampTime w;
        region := getRegion;
        ssl_days_remaining := None;
        keyword_found := None |}
  end.

(** The [switch (monitor.type)] of [runMonitoringCheck]. *)
Definition probe (env : Env) : Completion CheckResult :=
  let t := type monitor in
  if String.eqb t "http" || String.eqb t "https" then checkHTTP
  else if String.eqb t "ping" then checkPing
  else if String.eqb t "port" then checkPort
  else if String.eqb t "keyword" then checkKeyword
  else if String.eqb t "ssl" then checkSSL
  else if String.eqb t "heartbeat" then checkHeartbeat env
  else Throws ("Unsupported monitor type: " ^^ t).

End Probes.

(* ================================================================== *)
(** ** Persistence and daily statistics (checker.js) *)
(* ================================================================== *)

Definition setMonitors (db : Database) (l : list Monitor) : Database :=
  {| monitors := l; monitor_checks := monitor_checks db;
     incidents := incidents db; uptime_stats := uptime_stats db;
     alert_contacts := alert_contacts db;
     monitor_alert_contacts := monitor_alert_contacts db |}.

Definition setChecks (db : Database) (l : list CheckRow) : Database :=
  {| monitors := monitors db; monitor_checks := l;
     incidents := incidents db; uptime_stats := uptime_stats db;
     alert_contacts := alert_contacts db;
     monitor_alert_contacts := monitor_alert_contacts db |}.

Definition setIncidents (db : Database) (l : list IncidentRow) : Database :=
  {| monitors := monitors db; monitor_checks := monitor_checks db;
     incidents := l; uptime_stats := uptime_stats db;
     alert_contacts := alert_contacts db;
     monitor_alert_contacts := monitor_alert_contacts db |}.

Definition setStats (db : Database) (l : list StatRow) : Database :=
  {| monitors := monitors db; monitor_checks := monitor_checks db;
     incidents := incidents db; uptime_stats := l;
     alert_contacts := alert_contacts db;
     monitor_alert_contacts := monitor_alert_contacts db |}.

Definition setDB (env : Env) (db : Database) : Env :=
  {| DB := db; UPTIME_MONITOR_KV := UPTIME_MONITOR_KV env |}.

Definition setKV (env : Env) (kv : KV) : Env :=
  {| DB := DB env; UPTIME_MONITOR_KV := kv |}.

(** The key an [INTEGER PRIMARY KEY AUTOINCREMENT] column gives the next
    row of a table no row was deleted from. *)
Definition nextId (ids : list Z) : Z := 1 + fold_right Z.max 0 ids.

(** SQL arithmetic on nullable operands; division by zero is [NULL]. *)
Definition sqlZ (f : Z -> Z -> Z) (a b : option Z) : option Z :=
  match a, b with
  | Some x, Some y => Some (f x y)
  | _, _ => None
  end.

Definition sqlRunningAvg (avg : option Q) (total : option Z) (rt : Z) : option Q :=
  match avg, total with
  | Some a, Some n =>
      if n =? 0 then None
      else Some (Qred ((a * inject_Z (n - 1) + inject_Z rt) / inject_Z n))
  | _, _ => None
  end.

(** [(stats.successful_checks / stats.total_checks) * 100] *)
Definition uptimePercent (successful total : option Z) : option Q :=
  if JS.numOr0 total =? 0 then None
  else Some (Qred (inject_Z (JS.numOr0 successful) / inject_Z (JS.numOr0 total) * 100)).

Definition statKey (monitorId date : Z) (r : StatRow) : bool :=
  (st_monitor_id r =? monitorId) && (st_date r =? date).

(** The [DO UPDATE SET] arm of the upsert.  Every right-hand side is
    evaluated on the row as it is before the update. *)
Definition upsertUpdate (upInc rt : Z) (r : StatRow) : StatRow :=
  {| st_monitor_id := st_monitor_id r;
     st_date := st_date r;
     total_checks := sqlZ Z.add (total_checks r) (Some 1);
     successful_checks := sqlZ Z.add (successful_checks r) (Some upInc);
     uptime_percentage := uptime_percentage r;
     avg_response_time_ms :=
       sqlRunningAvg (avg_response_time_ms r) (total_checks r) rt;
     min_response_time_ms := sqlZ Z.min (min_response_time_ms r) (Some rt);
     max_response_time_ms := sqlZ Z.max (max_response_time_ms r) (Some rt);
     up_checks := up_checks r;
     down_checks := down_checks r;
     avg_response_time := avg_response_time r;
     min_response_time := min_response_time r;
     max_response_time := max_response_time r;
     downtime_duration := downtime_duration r;
     downtime_incidents := downtime_incidents r |}.

(** The [VALUES (?, ?, 1, ?, ?, ?, ?)] arm of the upsert. *)
Definition upsertInsert (monitorId today upInc rt : Z) : StatRow :=
  {| st_monitor_id := monitorId;
     st_date := today;
     total_checks := Some 1;
     successful_checks := Some upInc;
     uptime_percentage := Some 100%Q;
     avg_response_time_ms := Some (inject_Z rt);
     min_response_time_ms := Some rt;
     max_response_time_ms := Some rt;
     up_checks := None;
     down_checks := None;
     avg_response_time := None;
     min_response_time := None;
     max_response_time := None;
     downtime_duration := None;
     downtime_incidents := None |}.

Definition setUptimePercentage (p : option Q) (r : StatRow) : StatRow :=
  {| st_monitor_id := st_monitor_id r;
     st_date := st_date r;
     total_checks := total_checks r;
     successful_checks := successful_checks r;
     uptime_percentage := p;
     avg_response_time_ms := avg_response_time_ms r;
     min_response_time_ms := min_response_time_ms r;
     max_response_time_ms := max_response_time_ms r;
     up_checks := up_checks r;
     down_checks := down_checks r;
     avg_response_time := avg_response_time r;
     min_response_time := min_response_time r;
     max_response_time := max_response_time r;
     downtime_duration := downtime_duration r;
     downtime_incidents := downtime_incidents r |}.

Definition mapWhere {A} (p : A -> bool) (f : A -> A) (l : list A) : list A :=
  map (fun r => if p r then f r else r) l.

Definition updateDailyStats (monitorId : Z) (result : CheckResult) (now : Z)
    (db : Database) : Database :=
  let today := dateOf now in
  let upInc := if isUp (status result) then 1 else 0 in
  let rt := JS.numOr0 (response_time_ms result) in
  let stats := uptime_stats db in
  let upserted :=
    if existsb (statKey monitorId today) stats
    then mapWhere (statKey monitorId today) (upsertUpdate upInc rt) stats
    else stats ++ [upsertInsert monitorId today upInc rt] in
  let recomputed :=
    match find (statKey monitorId today) upserted with
    | Some stats =>
        mapWhere (statKey monitorId today)
          (setUptimePercentage
             (uptimePercent (successful_checks stats) (total_checks stats)))
          upserted
    | None => upserted
    end in
  setStats db recomputed.

Definition saveCheckResult (monitorId : Z) (result : CheckResult) (now : Z)
    (env : Env) : Env :=
  let db := DB env in
  let row := {|
    chk_id := nextId (map chk_id (monitor_checks db));
    chk_monitor_id := monitorId;
    chk_status := status result;
    chk_response_time_ms := response_time_ms result;
    chk_status_code := status_code result;
    chk_error_message := error_message result;
    chk_checked_at := checked_at result;
    chk_region := region result;
    chk_ssl_days_remaining :=
      match ssl_days_remaining result with
      | Some 0 => None
      | v => v
      end;
    chk_keyword_found :=
      match keyword_found result with
      | Some true => Some true
      | _ => None
      end |} in
  setDB env
    (updateDailyStats monitorId result now
       (setChecks db (monitor_checks db ++ [row]))).

(* ================================================================== *)
(** ** Status transitions, incidents and queued notifications *)
(* ================================================================== *)

Definition createIncident (monitorId : Z) (result : CheckResult)
    (db : Database) : Database :=
  setIncidents db
    (incidents db ++
     [{| inc_id := nextId (map inc_id (incidents db));
         inc_monitor_id := monitorId;
         inc_status := "investigating";
         inc_started_at := checked_at result;
         inc_resolved_at := None;
         inc_duration_seconds := None;
         inc_cause :=
           JS.strOr (error_message result)
                    ("Monitor status: " ^^ status result) |}]).

Definition isOpen (monitorId : Z) (i : IncidentRow) : bool :=
  (inc_monitor_id i =? monitorId) &&
  match inc_resolved_at i with None => true | Some _ => false end.

Definition resolveIncident (monitorId : Z) (now : Z) (db : Database) : Database :=
  setIncidents db
    (mapWhere (isOpen monitorId)
       (fun i => {| inc_id := inc_id i;
                    inc_monitor_id := inc_monitor_id i;
                    inc_status := "resolved";
                    inc_started_at := inc_started_at i;
                    inc_resolved_at := Some now;
                    inc_duration_seconds :=
                      Some (strftime_s now - strftime_s (inc_started_at i));
                    inc_cause := inc_cause i |})
       (incidents db)).

(** One row of the contacts query: [ac.*] with the three [mac] columns. *)
Record ContactRow := {
  c_id : Z;
  notify_on_down : option Z;
  notify_on_up : option Z;
  delay_minutes : option Z
}.

(** [alert_contacts ac JOIN monitor_alert_contacts mac ON ac.id =
    mac.alert_contact_id WHERE mac.monitor_id = ? AND ac.is_active = 1] *)
Definition contactsOf (monitorId : Z) (db : Database) : list ContactRow :=
  flat_map
    (fun ac =>
       flat_map
         (fun mac =>
            if (ac_id ac =? mac_alert_contact_id mac)
               && (mac_monitor_id mac =? monitorId)
               && match ac_is_active ac with Some 1 => true | _ => false end
            then [{| c_id := ac_id ac;
                     notify_on_down := mac_notify_on_down mac;
                     notify_on_up := mac_notify_on_up mac;
                     delay_minutes := mac_delay_minutes mac |}]
            else [])
         (monitor_alert_contacts db))
    (alert_contacts db).

(** The per-contact decision of [queueNotifications]. *)
Definition shouldNotify (currentStatus lastStatus : string) (contact : ContactRow)
    : bool :=
  if negb (isUp currentStatus) && JS.truthy (notify_on_down contact) then true
  else if isUp currentStatus && negb (isUp lastStatus)
          && JS.truthy (notify_on_up contact) then true
  else false.

Definition queueOne (monitor : Monitor) (currentStatus lastStatus : string)
    (now : Z) (kv : KV) (contact : ContactRow) : KV :=
  if shouldNotify currentStatus lastStatus contact then
    kv_put (NotificationKey now (id monitor) (c_id contact))
      (Queued {| monitorId := id monitor;
                 monitorName := name monitor;
                 contactId := c_id contact;
                 n_status := currentStatus;
                 previousStatus := lastStatus;
                 delayMinutes := JS.numOr0 (delay_minutes contact);
                 timestamp := now |})
      kv
  else kv.

Definition queueNotifications (monitor : Monitor)
    (currentStatus lastStatus : string) (now : Z) (env : Env) : Env :=
  setKV env
    (fold_left (queueOne monitor currentStatus lastStatus now)
       (contactsOf (id monitor) (DB env))
       (UPTIME_MONITOR_KV env)).

(** [SELECT MAX(id) FROM monitor_checks WHERE monitor_id = ?] *)
Definition maxCheckId (monitorId : Z) (checks : list CheckRow) : option Z :=
  fold_left
    (fun acc r =>
       if chk_monitor_id r =? monitorId then
         match acc with
         | Some m => Some (Z.max m (chk_id r))
         | None => Some (chk_id r)
         end
       else acc)
    checks None.

(** The first row of [ORDER BY checked_at DESC]; among rows of equal
    [checked_at], whose order SQL leaves open, the earliest inserted. *)
Definition latestByCheckedAt (rows : list CheckRow) : option CheckRow :=
  fold_left
    (fun best r =>
       match best with
       | Some b => if chk_checked_at b <? chk_checked_at r then Some r else Some b
       | None => Some r
       end)
    rows None.

(** The [lastCheck] query of [handleStatusChange]. *)
Definition lastCheck (monitorId : Z) (checks : list CheckRow) : option CheckRow :=
  match maxCheckId monitorId checks with
  | Some newest =>
      latestByCheckedAt
        (filter (fun r => (chk_monitor_id r =? monitorId)
                          && negb (chk_id r =? newest)) checks)
  | None => None
  end.

Definition isDownish (s : string) : bool :=
  String.eqb s "down" || String.eqb s "error" || String.eqb s "timeout".

Definition handleStatusChange (monitor : Monitor) (result : CheckResult)
    (now : Z) (env : Env) : Env :=
  let lastStatus :=
    JS.strOr (option_map chk_status (lastCheck (id monitor) (monitor_checks (DB env))))
             "unknown" in
  let currentStatus := status result in
  if negb (String.eqb lastStatus currentStatus) then
    let env1 :=
      if isDownish currentStatus then
        setDB env (createIncident (id monitor) result (DB env))
      else if isUp currentStatus && isDownish lastStatus then
        setDB env (resolveIncident (id monitor) now (DB env))
      else env in
    queueNotifications monitor currentStatus lastStatus now env1
  else env.

(** [runMonitoringCheck]: the probe, then persistence and transition
    handling; anything thrown on the way is caught and recorded as an
    ['error'] result. *)
Definition runMonitoringCheck (monitor : Monitor) (w : World) (env : Env)
    : Env * CheckResult :=
  match probe monitor w env with
  | Returns result =>
      let env1 := saveCheckResult (id monitor) result (saveTime w) env in
      let env2 := handleStatusChange monitor result (handleTime w) env1 in
      (env2, result)
  | Throws message =>
      let errorResult := {|
        status := "error";
        response_time_ms := None;
        status_code := None;
        error_message := Some message;
        checked_at := stampTime w;
        region := "unknown";
        ssl_days_remaining := None;
        keyword_found := None |} in
      (saveCheckResult (id monitor) errorResult (saveTime w) env, errorResult)
  end.

(* ================================================================== *)
(** ** The gate of the periodic re-scan (notifications.js) *)
(* ================================================================== *)

(** [monitor.alert_settings], parsed; an absent property is [None]. *)
Record AlertSettings := {
  as_notify_on_down : option bool;
  as_notify_on_up : option bool
}.

(** Whether [processMonitorNotification] goes on to send, once it has found
    active contacts.  The flags are those of the monitor's [alert_settings];
    the per-contact flags of [monitor_alert_contacts] are not read here. *)
Definition backstopSends (current_status : string) (previous_status : option string)
    (alertSettings : AlertSettings) : bool :=
  let isDownNow := String.eqb current_status "down" in
  let isRecovered :=
    isUp current_status
    && match previous_status with
       | Some p => String.eqb p "down"
       | None => false
       end in
  let shouldNotifyDown :=
    match as_notify_on_down alertSettings with Some false => false | _ => true end in
  let shouldNotifyUp :=
    match as_notify_on_up alertSettings with Some false => false | _ => true end in
  if isDownNow && negb shouldNotifyDown then false
  else if isRecovered && negb shouldNotifyUp then false
  else true.

(* ================================================================== *)
(** ** Daily aggregation (statistics.js) *)
(* ================================================================== *)

Definition isDown (check : CheckRow) : bool := String.eqb (chk_status check) "down".

(** Minutes between two instants, [(b - a) / (1000 * 60)]. *)
Definition minutesBetween (a b : Z) : Q := (inject_Z (b - a) / inject_Z (1000 * 60))%Q.

Module Downtime.

(** The four loop variables of [calculateDowntime]. *)
Record State := {
  totalDuration : Q;
  incidents : Z;
  isInDowntime : bool;
  downtimeStart : option Z
}.

Definition init : State :=
  {| totalDuration := 0%Q; incidents := 0; isInDowntime := false;
     downtimeStart := None |}.

(** One iteration of the [for] loop. *)
Definition step (st : State) (check : CheckRow) : State :=
  if isDown check && negb (isInDowntime st) then
    {| totalDuration := totalDuration st;
       incidents := incidents st + 1;
       isInDowntime := true;
       downtimeStart := Some (chk_checked_at check) |}
  else if negb (isDown check) && isInDowntime st then
    {| totalDuration :=
         match downtimeStart st with
         | Some start =>
             (totalDuration st + minutesBetween start (chk_checked_at check))%Q
         | None => totalDuration st
         end;
       incidents := incidents st;
       isInDowntime := false;
       downtimeStart := downtimeStart st |}
  else st.

(** What the function returns. *)
Record Info := {
  info_totalDuration : Z;
  info_incidents : Z
}.

End Downtime.

(** [calculateDowntime(checks)].  [checks[checks.length - 1]] is read only
    while [isInDowntime] holds, hence on a list that is not empty. *)
Definition calculateDowntime (checks : list CheckRow) : Downtime.Info :=
  let st := fold_left Downtime.step checks Downtime.init in
  let total :=
    if Downtime.isInDowntime st then
      match Downtime.downtimeStart st with
      | Some start =>
          let lastCheck := last (map chk_checked_at checks) 0 in
          (Downtime.totalDuration st + minutesBetween start lastCheck)%Q
      | None => Downtime.totalDuration st
      end
    else Downtime.totalDuration st in
  {| Downtime.info_totalDuration := JS.Math_round total;
     Downtime.info_incidents := Downtime.incidents st |}.

(** [ORDER BY checked_at]: a stable insertion sort. *)
Fixpoint insertByCheckedAt (r : CheckRow) (l : list CheckRow) : list CheckRow :=
  match l with
  | [] => [r]
  | x :: rest =>
      if chk_checked_at r <? chk_checked_at x then r :: l
      else x :: insertByCheckedAt r rest
  end.

Definition orderByCheckedAt (l : list CheckRow) : list CheckRow :=
  fold_left (fun acc r => insertByCheckedAt r acc) l [].

(** The checks of one monitor on one date, in time order. *)
Definition checksOn (monitorId date : Z) (db : Database) : list CheckRow :=
  orderByCheckedAt
    (filter (fun r => (chk_monitor_id r =? monitorId)
                      && (dateOf (chk_checked_at r) =? date))
       (monitor_checks db)).

Definition sumZ (l : list Z) : Z := fold_left Z.add l 0.

(** [Math.min(...l)] and [Math.max(...l)] of a non-empty list. *)
Definition minimum (l : list Z) : Z :=
  match l with
  | [] => 0
  | x :: rest => fold_left Z.min rest x
  end.

Definition maximum (l : list Z) : Z :=
  match l with
  | [] => 0
  | x :: rest => fold_left Z.max rest x
  end.

(** [Math.round(x * 100) / 100] *)
Definition round2 (x : Q) : Q := Qred (inject_Z (JS.Math_round (x * 100)%Q) / 100)%Q.

(** The row [calculateMonitorStats] binds to its [INSERT OR REPLACE]. *)
Definition dailyRow (monitorId date : Z) (checkResults : list CheckRow) : StatRow :=
  let totalChecks := Z.of_nat (List.length checkResults) in
  let upChecks :=
    Z.of_nat (List.length (filter (fun c => isUp (chk_status c)) checkResults)) in
  let downChecks := Z.of_nat (List.length (filter isDown checkResults)) in
  let uptimePercentage :=
    if 0 <? totalChecks
    then (inject_Z upChecks / inject_Z totalChecks * 100)%Q else 0%Q in
  let successfulChecks :=
    filter (fun c => isUp (chk_status c)
                     && JS.truthy (chk_response_time_ms c)) checkResults in
  let responseTimes := map (fun c => JS.numOr0 (chk_response_time_ms c)) successfulChecks in
  let nonEmpty := match successfulChecks with [] => false | _ => true end in
  let avgResponseTime :=
    if nonEmpty
    then (inject_Z (sumZ responseTimes) / inject_Z (Z.of_nat (List.length responseTimes)))%Q
    else 0%Q in
  let minResponseTime := if nonEmpty then minimum responseTimes else 0 in
  let maxResponseTime := if nonEmpty then maximum responseTimes else 0 in
  let downtimeInfo := calculateDowntime checkResults in
  {| st_monitor_id := monitorId;
     st_date := date;
     total_checks := Some totalChecks;
     successful_checks := Some 0;
     uptime_percentage := Some (round2 uptimePercentage);
     avg_response_time_ms := None;
     min_response_time_ms := None;
     max_response_time_ms := None;
     up_checks := Some upChecks;
     down_checks := Some downChecks;
     avg_response_time := Some (JS.Math_round avgResponseTime);
     min_response_time := Some minResponseTime;
     max_response_time := Some maxResponseTime;
     downtime_duration := Some (Downtime.info_totalDuration downtimeInfo);
     downtime_incidents := Some (Downtime.info_incidents downtimeInfo) |}.

(** [INSERT OR REPLACE]: rows that collide on [UNIQUE(monitor_id, date)]
    are deleted, then the new row is added. *)
Definition insertOrReplace (row : StatRow) (stats : list StatRow) : list StatRow :=
  filter (fun r => negb (statKey (st_monitor_id row) (st_date row) r)) stats ++ [row].

Definition calculateMonitorStats (monitorId date : Z) (db : Database) : Database :=
  match checksOn monitorId date db with
  | [] => db
  | checkResults =>
      setStats db (insertOrReplace (dailyRow monitorId date checkResults)
                     (uptime_stats db))
  end.

Definition isActive (m : Monitor) : bool :=
  match is_active m with Some 1 => true | _ => false end.

(** SQL [AVG]: [NULL] values are skipped, and so is the result [NULL] when
    nothing is left. *)
Definition sqlAvg (values : list (option Q)) : option Q :=
  let present := flat_map (fun v => match v with Some q => [q] | None => [] end) values in
  match present with
  | [] => None
  | _ => Some (Qred (fold_left Qplus present 0 / inject_Z (Z.of_nat (List.length present))))%Q
  end.

(** Rows of one monitor dated within the trailing [days] days. *)
Definition statsWindow (monitorId today days : Z) (db : Database) : list StatRow :=
  filter (fun r => (st_monitor_id r =? monitorId) && (today - days <=? st_date r))
    (uptime_stats db).

(** [x || dflt] for a nullable fraction: [null] and [0] are falsy. *)
Definition qOr (x : option Q) (dflt : Q) : Q :=
  match x with
  | Some q => if Qeq_bool q 0 then dflt else q
  | None => dflt
  end.

Definition setSummary (u30 u7 : Q) (rt30 : Z) (now : Z) (m : Monitor) : Monitor :=
  {| id := id m; name := name m; type := type m; url := url m;
     hostname := hostname m; port := port m; keyword := keyword m;
     keyword_type := keyword_type m; interval_seconds := interval_seconds m;
     timeout_seconds := timeout_seconds m;
     expected_status_codes := expected_status_codes m;
     is_active := is_active m;
     uptime_30d := Some u30;
     uptime_7d := Some u7;
     avg_response_time_30d := Some rt30;
     stats_updated_at := Some now |}.

(** The body of the loop of [updateMonitorSummaryStats] for one monitor id. *)
Definition updateSummaryOf (now : Z) (db : Database) (monitorId : Z) : Database :=
  let today := dateOf now in
  let uptime30d := sqlAvg (map uptime_percentage (statsWindow monitorId today 30 db)) in
  let uptime7d := sqlAvg (map uptime_percentage (statsWindow monitorId today 7 db)) in
  let responseTime30d :=
    sqlAvg (map (fun r => option_map inject_Z (avg_response_time r))
              (statsWindow monitorId today 30 db)) in
  setMonitors db
    (mapWhere (fun m => id m =? monitorId)
       (setSummary (round2 (qOr uptime30d 100))
                   (round2 (qOr uptime7d 100))
                   (JS.Math_round (qOr responseTime30d 0))
                   now)
       (monitors db)).

Definition updateMonitorSummaryStats (now : Z) (db : Database) : Database :=
  fold_left (updateSummaryOf now)
    (map id (filter isActive (monitors db))) db.

(** [calculateStats(env)], on [env.DB]. *)
Definition calculateStats (now : Z) (db : Database) : Database :=
  let today := dateOf now in
  if 0 <? Z.of_nat (List.length (filter (fun r => st_date r =? today) (uptime_stats db)))
  then db
  else
    match filter isActive (monitors db) with
    | [] => db
    | active =>
        let db1 :=
          fold_left (fun d m => calculateMonitorStats (id m) today d) active db in
        let db2 :=
          setStats db1
            (filter (fun r => negb (st_date r <? today - 365)) (uptime_stats db1)) in
        updateMonitorSummaryStats now db2
    end.

(* ================================================================== *)
(** ** Worked inputs *)
(* ================================================================== *)

(** An HTTP monitor expecting a 2xx answer. *)
Definition httpMonitor : Monitor :=
  {| id := 1; name := "api"; type := "http";
     url := Some "https://example.org/health"; hostname := None; port := None;
     keyword := ""; keyword_type := None;
     interval_seconds := 300; timeout_seconds := 30;
     expected_status_codes := Some "200-299";
     is_active := Some 1;
     uptime_30d := None; uptime_7d := None;
     avg_response_time_30d := None; stats_updated_at := None |}.

Definition withType (t : string) (m : Monitor) : Monitor :=
  {| id := id m; name := name m; type := t; url := url m;
     hostname := hostname m; port := port m; keyword := keyword m;
     keyword_type := keyword_type m; interval_seconds := interval_seconds m;
     timeout_seconds := timeout_seconds m;
     expected_status_codes := expected_status_codes m;
     is_active := is_active m; uptime_30d := uptime_30d m;
     uptime_7d := uptime_7d m;
     avg_response_time_30d := avg_response_time_30d m;
     stats_updated_at := stats_updated_at m |}.

(** A cycle that starts at [t] ms, gets [outcome] 120 ms later and is
    persisted and handled within the next 3 ms. *)
Definition cycleAt (t : Z) (outcome : FetchOutcome) : World :=
  {| setup_error := None; fetched := outcome; refetched := outcome;
     socket_error := None;
     startTime := t; endTime := t + 120; stampTime := t + 121;
     saveTime := t + 122; handleTime := t + 123 |}.

Definition emptyDB : Database :=
  {| monitors := []; monitor_checks := []; incidents := [];
     uptime_stats := []; alert_contacts := []; monitor_alert_contacts := [] |}.

Definition emptyEnv : Env := {| DB := emptyDB; UPTIME_MONITOR_KV := [] |}.

(** A connection that is refused: a transport failure that is no timeout. *)
Definition connectionRefused : FetchOutcome :=
  Rejects "TypeError" "Network connection lost.".

(* ================================================================== *)
(** ** The HTTP probe *)
(* ================================================================== *)

Lemma prefix_append (s rest : string) : prefix s (s ^^ rest) = true.
Proof.
  induction s as [|c s IH]; cbn.
  - now destruct rest.
  - destruct (ascii_dec c c) as [_|N]; [exact IH | now elim N].
Qed.

Lemma includes_append (needle pre post : string) :
  JS.includes needle (pre ^^ needle ^^ post) = true.
Proof.
  induction pre as [|c pre IH].
  - cbn [String.append]. destruct (needle ^^ post) eqn:E; cbn [JS.includes];
      rewrite <- E, prefix_append; reflexivity.
  - cbn [String.append JS.includes]. rewrite IH. apply orb_true_r.
Qed.

Lemma append_empty_r (s : string) : s ^^ "" = s.
Proof. induction s as [|c s IH]; cbn; [reflexivity | now rewrite IH]. Qed.

(** What [checkHTTP] makes of an answer: ['up'] exactly for a status code
    among the expected ones, else ['down'] with the code in the message. *)
Lemma checkHTTP_classifies_response (monitor : Monitor) (w : World)
    (code : Z) (text : string) :
  setup_error w = None ->
  fetched w = Responds code text ->
  exists r,
    checkHTTP monitor w = Returns r
    /\ status_code r = Some code
    /\ (status r = "up" <->
        JS.arrayIncludes (parseStatusCodes (expected_status_codes monitor)) code = true)
    /\ (status r = "up" -> error_message r = None)
    /\ (status r <> "up" ->
        status r = "down"
        /\ exists msg, error_message r = Some msg
                       /\ JS.includes (JS.toString code) msg = true).
Proof.
  intros Hs Hf. unfold checkHTTP. rewrite Hs, Hf.
  destruct (JS.arrayIncludes _ code) eqn:E; eexists; (split; [reflexivity|]);
    cbn [status error_message status_code].
  - repeat split; auto; congruence.
  - split; [reflexivity|]. split; [split; discriminate|].
    split; [discriminate|]. intros _. split; [reflexivity|].
    eexists; split; [reflexivity|].
    rewrite <- (append_empty_r (JS.toString code)) at 2.
    apply includes_append.
Qed.

(** Expected "200-299", answer 404: ['down'], and the message names 404. *)
Example checkHTTP_404 :
  checkHTTP httpMonitor (cycleAt 0 (Responds 404 "")) =
  Returns {| status := "down"; response_time_ms := Some 120;
             status_code := Some 404;
             error_message := Some "Unexpected status code: 404";
             checked_at := 121; region := "cf-auto";
             ssl_days_remaining := None; keyword_found := None |}.
Proof. vm_compute. reflexivity. Qed.

(** Every rejection of the fetch, a timeout or not, gives ['timeout']. *)
Lemma checkHTTP_rejection (monitor : Monitor) (w : World) (errName errMessage : string) :
  setup_error w = None ->
  fetched w = Rejects errName errMessage ->
  exists r, checkHTTP monitor w = Returns r /\ status r = "timeout".
Proof.
  intros Hs Hf. unfold checkHTTP. rewrite Hs, Hf. eexists. split; reflexivity.
Qed.

(** C3, at the failing input.  The fetch of an http monitor is refused
    (no timeout): [checkHTTP] answers with status ['timeout'], neither ['down']
    nor ['error'], and passes the transport message on. *)
Theorem checkHTTP_refused_connection_reports_timeout :
  checkHTTP httpMonitor (cycleAt 0 connectionRefused) =
  Returns {| status := "timeout"; response_time_ms := Some 120;
             status_code := None;
             error_message := Some "Network connection lost.";
             checked_at := 121; region := "cf-auto";
             ssl_days_remaining := None; keyword_found := None |}.
Proof. vm_compute. reflexivity. Qed.

(* ================================================================== *)
(** ** Unsupported monitor types *)
(* ================================================================== *)

Definition supportedType (t : string) : bool :=
  existsb (String.eqb t)
    ["http"; "https"; "ping"; "port"; "keyword"; "ssl"; "heartbeat"].

(** The result the [catch] block of [runMonitoringCheck] builds. *)
Definition errorResultOf (message : string) (w : World) : CheckResult :=
  {| status := "error"; response_time_ms := None; status_code := None;
     error_message := Some message; checked_at := stampTime w;
     region := "unknown"; ssl_days_remaining := None; keyword_found := None |}.

Lemma probe_unsupported (monitor : Monitor) (w : World) (env : Env) :
  supportedType (type monitor) = false ->
  probe monitor w env = Throws ("Unsupported monitor type: " ^^ type monitor).
Proof.
  unfold supportedType, probe. cbn [existsb].
  repeat rewrite orb_false_iff. intros (H1 & H2 & H3 & H4 & H5 & H6 & H7 & _).
  now rewrite H1, H2, H3, H4, H5, H6, H7.
Qed.

Lemma saveCheckResult_checks (monitorId : Z) (result : CheckResult) (now : Z) (env : Env) :
  exists row,
    monitor_checks (DB (saveCheckResult monitorId result now env))
      = monitor_checks (DB env) ++ [row]
    /\ chk_id row = nextId (map chk_id (monitor_checks (DB env)))
    /\ chk_monitor_id row = monitorId
    /\ chk_status row = status result
    /\ chk_error_message row = error_message result
    /\ chk_response_time_ms row = response_time_ms result
    /\ chk_checked_at row = checked_at result.
Proof. eexists. repeat split. Qed.

Lemma saveCheckResult_incidents (monitorId : Z) (result : CheckResult) (now : Z) (env : Env) :
  incidents (DB (saveCheckResult monitorId result now env)) = incidents (DB env).
Proof. reflexivity. Qed.

Lemma saveCheckResult_KV (monitorId : Z) (result : CheckResult) (now : Z) (env : Env) :
  UPTIME_MONITOR_KV (saveCheckResult monitorId result now env) = UPTIME_MONITOR_KV env.
Proof. reflexivity. Qed.

Lemma runMonitoringCheck_caught (monitor : Monitor) (w : World) (env : Env)
    (message : string) :
  probe monitor w env = Throws message ->
  runMonitoringCheck monitor w env
  = (saveCheckResult (id monitor) (errorResultOf message w) (saveTime w) env,
     errorResultOf message w).
Proof. intros E. unfold runMonitoringCheck. now rewrite E. Qed.

(** C9, as the code has it.  A monitor of an unsupported type is not
    rejected: [runMonitoringCheck] returns an ['error'] result naming the
    type, with no response time, no status code and region ['unknown'], and
    persists it as a new row of [monitor_checks]; incidents and the
    notification queue are left as they were. *)
Theorem unsupported_type_is_recorded_as_error (monitor : Monitor) (w : World) (env : Env) :
  supportedType (type monitor) = false ->
  let result := errorResultOf ("Unsupported monitor type: " ^^ type monitor) w in
  runMonitoringCheck monitor w env
    = (saveCheckResult (id monitor) result (saveTime w) env, result)
  /\ (exists row,
        monitor_checks (DB (fst (runMonitoringCheck monitor w env)))
          = monitor_checks (DB env) ++ [row]
        /\ chk_monitor_id row = id monitor
        /\ chk_status row = "error"
        /\ chk_error_message row
           = Some ("Unsupported monitor type: " ^^ type monitor)
        /\ chk_response_time_ms row = None)
  /\ incidents (DB (fst (runMonitoringCheck monitor w env))) = incidents (DB env)
  /\ UPTIME_MONITOR_KV (fst (runMonitoringCheck monitor w env))
     = UPTIME_MONITOR_KV env.
Proof.
  intros H result.
  rewrite (runMonitoringCheck_caught _ _ _ _ (probe_unsupported monitor w env H)).
  fold result. cbn [fst].
  split; [reflexivity|]. split; [|split; reflexivity].
  destruct (saveCheckResult_checks (id monitor) result (saveTime w) env)
    as (row & E & _ & Hm & Hs & He & Hr & _).
  exists row. rewrite E. repeat split; assumption.
Qed.

Definition dnsMonitor : Monitor := withType "dns" httpMonitor.

Lemma unsupported_type_is_recorded_as_error_witness :
  supportedType (type dnsMonitor) = false
  /\ fst (runMonitoringCheck dnsMonitor (cycleAt 0 timedOut) emptyEnv)
     = saveCheckResult 1
         (errorResultOf "Unsupported monitor type: dns" (cycleAt 0 timedOut))
         122 emptyEnv.
Proof.
  split; [reflexivity|].
  destruct (unsupported_type_is_recorded_as_error dnsMonitor (cycleAt 0 timedOut)
              emptyEnv eq_refl) as [E _].
  rewrite E. reflexivity.
Defined.

(** C9, as stated, fails: the cycle of a monitor of type ['dns'] is not
    skipped; it ends with an ordinary row in [monitor_checks] and returns
    that result to the caller. *)
Lemma unsupported_type_not_rejected :
  runMonitoringCheck dnsMonitor (cycleAt 0 timedOut) emptyEnv
  = (saveCheckResult 1
       (errorResultOf "Unsupported monitor type: dns" (cycleAt 0 timedOut))
       122 emptyEnv,
     errorResultOf "Unsupported monitor type: dns" (cycleAt 0 timedOut))
  /\ monitor_checks
       (DB (fst (runMonitoringCheck dnsMonitor (cycleAt 0 timedOut) emptyEnv)))
     = [{| chk_id := 1; chk_monitor_id := 1; chk_status := "error";
           chk_response_time_ms := None; chk_status_code := None;
           chk_error_message := Some "Unsupported monitor type: dns";
           chk_checked_at := 121; chk_region := "unknown";
           chk_ssl_days_remaining := None; chk_keyword_found := None |}].
Proof. split; vm_compute; reflexivity. Qed.

(* ================================================================== *)
(** ** The incremental upsert of [updateDailyStats] *)
(* ================================================================== *)

Definition sample (st : string) (rt : option Z) : CheckResult :=
  {| status := st; response_time_ms := rt; status_code := None;
     error_message := None; checked_at := 0; region := getRegion;
     ssl_days_remaining := None; keyword_found := None |}.

(** The counters of a row hit by the upsert: one more check, and one more
    successful check exactly for an ['up'] result. *)
Lemma upsertUpdate_counters (result : CheckResult) (r : StatRow) (n s : Z) :
  total_checks r = Some n ->
  successful_checks r = Some s ->
  let r' := upsertUpdate (if isUp (status result) then 1 else 0)
              (JS.numOr0 (response_time_ms result)) r in
  total_checks r' = Some (n + 1)
  /\ (successful_checks r' = Some (s + 1) <-> status result = "up")
  /\ (successful_checks r' = Some s <-> status result <> "up").
Proof.
  intros Hn Hs. cbn. rewrite Hn, Hs. cbn. unfold isUp.
  destruct (String.eqb_spec (status result) "up") as [E|E].
  - repeat split; auto; intros H; try congruence.
    injection H; lia.
  - repeat split; auto; intros H; try congruence.
    + injection H; lia.
    + f_equal. lia.
Qed.

(** C7, at two failing inputs, both on one monitor and one day.
    (1) ['up'] in 100 ms, ['up'] in 100 ms, then an ['error'] result without
    response time: the stored average becomes 50, although every sample that
    has a response time took 100 ms; the minimum becomes 0.
    (2) ['up'] in 100 ms, then ['up'] in 200 ms: the stored average is 200,
    not the mean 150, since [total_checks] in the update still is the count
    before the increment. *)
Theorem updateDailyStats_average_off :
  map (fun r => (total_checks r, successful_checks r,
                 avg_response_time_ms r, min_response_time_ms r,
                 max_response_time_ms r))
    (uptime_stats
       (updateDailyStats 1 (sample "error" None) 0
          (updateDailyStats 1 (sample "up" (Some 100)) 0
             (updateDailyStats 1 (sample "up" (Some 100)) 0 emptyDB))))
  = [(Some 3, Some 2, Some 50%Q, Some 0, Some 100)]
  /\
  map (fun r => (total_checks r, successful_checks r,
                 avg_response_time_ms r, min_response_time_ms r,
                 max_response_time_ms r))
    (uptime_stats
       (updateDailyStats 1 (sample "up" (Some 200)) 0
          (updateDailyStats 1 (sample "up" (Some 100)) 0 emptyDB)))
  = [(Some 2, Some 2, Some 200%Q, Some 100, Some 200)].
Proof. split; vm_compute; reflexivity. Qed.

(* ================================================================== *)
(** ** Incidents *)
(* ================================================================== *)

(** An HTTP monitor answers 500, and five minutes later its request times
    out. *)
Definition afterDownThenTimeout : Env :=
  fst (runMonitoringCheck httpMonitor (cycleAt 300000 timedOut)
         (fst (runMonitoringCheck httpMonitor (cycleAt 0 (Responds 500 ""))
                 emptyEnv))).

(** C1, at the failing input.  After a ['down'] result followed by a
    ['timeout'] result the monitor has two incidents with [resolved_at]
    [NULL]: the second was opened while the first was unresolved. *)
Theorem second_incident_opened_while_one_is_open :
  map chk_status (monitor_checks (DB afterDownThenTimeout)) = ["down"; "timeout"]
  /\ filter (isOpen 1) (incidents (DB afterDownThenTimeout))
     = [{| inc_id := 1; inc_monitor_id := 1; inc_status := "investigating";
           inc_started_at := 121; inc_resolved_at := None;
           inc_duration_seconds := None;
           inc_cause := "Unexpected status code: 500" |};
        {| inc_id := 2; inc_monitor_id := 1; inc_status := "investigating";
           inc_started_at := 300121; inc_resolved_at := None;
           inc_duration_seconds := None;
           inc_cause := "Request timeout after 30s" |}].
Proof. split; vm_compute; reflexivity. Qed.

(* ================================================================== *)
(** ** Rolling summaries *)
(* ================================================================== *)

Section Summary.

Variable now : Z.

(** The values bound to the [UPDATE monitors] of one monitor id. *)
Definition summaryFor (db : Database) (monitorId : Z) : Monitor -> Monitor :=
  let today := dateOf now in
  setSummary
    (round2 (qOr (sqlAvg (map uptime_percentage
                            (statsWindow monitorId today 30 db))) 100))
    (round2 (qOr (sqlAvg (map uptime_percentage
                            (statsWindow monitorId today 7 db))) 100))
    (JS.Math_round
       (qOr (sqlAvg (map (fun r => option_map inject_Z (avg_response_time r))
                       (statsWindow monitorId today 30 db))) 0))
    now.

Definition summarised (ids : list Z) (db : Database) (m : Monitor) : Monitor :=
  if existsb (Z.eqb (id m)) ids then summaryFor db (id m) m else m.

Lemma setMonitors_same (db : Database) : setMonitors db (monitors db) = db.
Proof. now destruct db. Qed.

Lemma summaryFor_id (db : Database) (i : Z) (m : Monitor) :
  id (summaryFor db i m) = id m.
Proof. reflexivity. Qed.

Lemma summaryFor_isActive (db : Database) (i : Z) (m : Monitor) :
  isActive (summaryFor db i m) = isActive m.
Proof. reflexivity. Qed.

Lemma summaryFor_twice (db : Database) (i : Z) (m : Monitor) :
  summaryFor db i (summaryFor db i m) = summaryFor db i m.
Proof. reflexivity. Qed.

(** The loop of [updateMonitorSummaryStats] rewrites the rows whose id is
    among the ids it walks, each from the unchanged [uptime_stats]. *)
Lemma summary_loop (ids : list Z) (db : Database) :
  fold_left (updateSummaryOf now) ids db
  = setMonitors db (map (summarised ids db) (monitors db)).
Proof.
  revert db. induction ids as [|i ids IH]; intros db.
  - cbn. unfold summarised. cbn. rewrite map_id. now rewrite setMonitors_same.
  - cbn [fold_left]. rewrite IH. unfold updateSummaryOf. fold (summaryFor db i).
    unfold setMonitors at 1. cbn [monitors monitor_checks incidents uptime_stats
      alert_contacts monitor_alert_contacts]. unfold setMonitors. f_equal.
    cbn [monitors]. unfold mapWhere. rewrite map_map. apply map_ext. intros m.
    unfold summarised. cbn [existsb].
    match goal with
    | |- context [summaryFor ?d] =>
        lazymatch d with
        | db => fail
        | _ => change (summaryFor d) with (summaryFor db)
        end
    end.
    destruct (id m =? i) eqn:E.
    + apply Z.eqb_eq in E. rewrite summaryFor_id, orb_true_l. subst i.
      destruct (existsb _ ids); [apply summaryFor_twice | reflexivity].
    + rewrite orb_false_l. reflexivity.
Qed.

Lemma updateMonitorSummaryStats_monitors (db : Database) :
  updateMonitorSummaryStats now db
  = setMonitors db
      (map (summarised (map id (filter isActive (monitors db))) db) (monitors db)).
Proof. apply summary_loop. Qed.

Lemma active_id_listed (db : Database) (m : Monitor) :
  In m (monitors db) -> isActive m = true ->
  existsb (Z.eqb (id m)) (map id (filter isActive (monitors db))) = true.
Proof.
  intros Hin Ha. apply existsb_exists. exists (id m). split; [|apply Z.eqb_refl].
  apply in_map. apply filter_In. now split.
Qed.

Lemma window7_in_window30 (db : Database) (i : Z) :
  statsWindow i (dateOf now) 30 db = [] -> statsWindow i (dateOf now) 7 db = [].
Proof.
  unfold statsWindow. induction (uptime_stats db) as [|r l IH]; [reflexivity|].
  cbn [filter]. destruct (st_monitor_id r =? i); cbn [andb].
  - destruct (dateOf now - 30 <=? st_date r) eqn:E30; [discriminate|].
    intros H. destruct (dateOf now - 7 <=? st_date r) eqn:E7; [|auto].
    apply Z.leb_le in E7. apply Z.leb_gt in E30. lia.
  - exact IH.
Qed.

End Summary.

(** What the statements of the summary update compute where they run: an
    active monitor with no [uptime_stats] row in the trailing 7 days gets
    [uptime_7d = 100]; with none in the trailing 30 days it gets
    [uptime_30d = 100], [uptime_7d = 100] and [avg_response_time_30d = 0]. *)
Theorem summary_without_history_is_100 (now : Z) (db : Database) (n : nat) (m : Monitor) :
  nth_error (monitors db) n = Some m ->
  isActive m = true ->
  exists m',
    nth_error (monitors (updateMonitorSummaryStats now db)) n = Some m'
    /\ id m' = id m
    /\ (statsWindow (id m) (dateOf now) 7 db = [] -> uptime_7d m' = Some 100%Q)
    /\ (statsWindow (id m) (dateOf now) 30 db = [] ->
        uptime_30d m' = Some 100%Q
        /\ uptime_7d m' = Some 100%Q
        /\ avg_response_time_30d m' = Some 0).
Proof.
  intros Hn Ha. rewrite updateMonitorSummaryStats_monitors.
  cbn [monitors setMonitors]. rewrite nth_error_map, Hn. cbn [option_map].
  eexists. split; [reflexivity|].
  unfold summarised.
  rewrite (active_id_listed db m (nth_error_In _ _ Hn) Ha).
  split; [reflexivity|]. split.
  - intros H7. cbn. rewrite H7. reflexivity.
  - intros H30. pose proof (window7_in_window30 now db (id m) H30) as H7.
    cbn. rewrite H30, H7. repeat split; reflexivity.
Qed.

Definition oneMonitorDB : Database :=
  {| monitors := [httpMonitor]; monitor_checks := []; incidents := [];
     uptime_stats := []; alert_contacts := []; monitor_alert_contacts := [] |}.

Lemma summary_without_history_is_100_witness :
  exists m',
    nth_error (monitors (updateMonitorSummaryStats 1000 oneMonitorDB)) 0 = Some m'
    /\ id m' = 1
    /\ (statsWindow 1 (dateOf 1000) 7 oneMonitorDB = [] -> uptime_7d m' = Some 100%Q)
    /\ (statsWindow 1 (dateOf 1000) 30 oneMonitorDB = [] ->
        uptime_30d m' = Some 100%Q
        /\ uptime_7d m' = Some 100%Q
        /\ avg_response_time_30d m' = Some 0).
Proof.
  exact (summary_without_history_is_100 1000 oneMonitorDB 0 httpMonitor
           eq_refl eq_refl).
Defined.

(* ================================================================== *)
(** ** The nightly statements on the tables of the repository *)
(* ================================================================== *)

(** The tables the nightly job reads and writes, with the columns the
    schema of the repository (README.md) declares for them. *)
Definition Schema : Type := list (string * list string).

Definition schema : Schema :=
  [("monitors",
    ["id"; "user_id"; "name"; "type"; "url"; "hostname"; "port"; "keyword";
     "keyword_type"; "method"; "headers"; "body"; "auth_type"; "auth_username";
     "auth_password"; "auth_token"; "interval_seconds"; "timeout_seconds";
     "retry_count"; "follow_redirects"; "verify_ssl"; "expected_status_codes";
     "regions"; "is_active"; "created_at"; "updated_at"]);
   ("monitor_checks",
    ["id"; "monitor_id"; "status"; "response_time_ms"; "status_code";
     "error_message"; "checked_at"; "region"; "ssl_days_remaining";
     "keyword_found"]);
   ("uptime_stats",
    ["id"; "monitor_id"; "date"; "total_checks"; "successful_checks";
     "uptime_percentage"; "avg_response_time_ms"; "min_response_time_ms";
     "max_response_time_ms"; "downtime_seconds"])].

(** A statement, as the table and the columns it names.  Run on a table
    that lacks one of them it throws ("no such column"). *)
Definition Statement : Type := (string * list string)%type.

Definition runs (s : Schema) (statement : Statement) : bool :=
  match find (fun table => String.eqb (fst table) (fst statement)) s with
  | Some table =>
      forallb (fun column => existsb (String.eqb column) (snd table)) (snd statement)
  | None => false
  end.

(** The statements of [updateMonitorSummaryStats]: the one before the loop
    and, in their order, the four of an iteration. *)
Definition activeMonitorsStatement : Statement := ("monitors", ["id"; "is_active"]).

Definition summaryStatements : list Statement :=
  [("uptime_stats", ["uptime_percentage"; "monitor_id"; "date"]);
   ("uptime_stats", ["uptime_percentage"; "monitor_id"; "date"]);
   ("uptime_stats", ["avg_response_time"; "monitor_id"; "date"]);
   ("monitors", ["uptime_30d"; "uptime_7d"; "avg_response_time_30d";
                 "stats_updated_at"; "id"])].

(** [updateMonitorSummaryStats(env)] on tables declared by [s].  A statement
    that throws ends the function in its [catch]; in an iteration the
    [UPDATE] comes last, so the first iteration that throws has written
    nothing, and the statements being the same in every iteration, none
    writes. *)
Definition updateMonitorSummaryStatsOn (s : Schema) (now : Z) (db : Database)
    : Database :=
  if negb (runs s activeMonitorsStatement) then db
  else
    match filter isActive (monitors db) with
    | [] => db
    | _ =>
        if forallb (runs s) summaryStatements
        then updateMonitorSummaryStats now db
        else db
    end.

(** The schema with the columns the summary statements name. *)
Definition withSummaryColumns (s : Schema) : Schema :=
  map (fun table =>
         if String.eqb (fst table) "monitors"
         then (fst table,
               snd table ++ ["uptime_30d"; "uptime_7d"; "avg_response_time_30d";
                             "stats_updated_at"])
         else if String.eqb (fst table) "uptime_stats"
         then (fst table, snd table ++ ["avg_response_time"])
         else table)
    s.

(** C10. On the tables of the repository the summary is not written.  For
    an active monitor without any [uptime_stats] row the first iteration
    throws at its third [SELECT], which names [avg_response_time] where the
    table has [avg_response_time_ms], and the [UPDATE] names four columns
    [monitors] does not have: the [catch] returns and the monitor is left
    without [uptime_30d] and [uptime_7d].  With these columns in place the
    same statements write 100, 100 and 0. *)
Theorem summary_is_not_written :
  updateMonitorSummaryStatsOn schema 1000 oneMonitorDB = oneMonitorDB
  /\ map (fun m => (uptime_30d m, uptime_7d m, avg_response_time_30d m))
       (monitors (updateMonitorSummaryStatsOn schema 1000 oneMonitorDB))
     = [(None, None, None)]
  /\ map (fun m => (uptime_30d m, uptime_7d m, avg_response_time_30d m))
       (monitors (updateMonitorSummaryStatsOn (withSummaryColumns schema) 1000
                    oneMonitorDB))
     = [(Some 100%Q, Some 100%Q, Some 0)].
Proof. repeat split; vm_compute; reflexivity. Qed.

(* ================================================================== *)
(** ** Queued notifications *)
(* ================================================================== *)

(** The entries of the queue addressed to one contact. *)
Definition queuedFor (contact : Z) (kv : KV) : KV :=
  filter (fun e => match fst e with
                   | NotificationKey _ _ c => c =? contact
                   | HeartbeatKey _ => false
                   end) kv.

Lemma KVKey_eqb_eq (a b : KVKey) : KVKey_eqb a b = true <-> a = b.
Proof.
  destruct a, b; cbn; try (split; intros H; discriminate H).
  - rewrite Z.eqb_eq. split; congruence.
  - rewrite !andb_true_iff, !Z.eqb_eq. split.
    + intros [[-> ->] ->]. reflexivity.
    + intros H. injection H. auto.
Qed.

Lemma kv_put_fresh (k : KVKey) (v : KVValue) (kv : KV) :
  kv_get k kv = None -> kv_put k v kv = kv ++ [(k, v)].
Proof.
  induction kv as [|[k' v'] kv IH]; cbn; [reflexivity|].
  destruct (KVKey_eqb k k'); [discriminate|]. intros H. now rewrite IH.
Qed.

Lemma kv_get_put_other (k k' : KVKey) (v : KVValue) (kv : KV) :
  k <> k' -> kv_get k (kv_put k' v kv) = kv_get k kv.
Proof.
  intros N. induction kv as [|[k0 v0] kv IH]; cbn.
  - destruct (KVKey_eqb k k') eqn:E; [apply KVKey_eqb_eq in E; contradiction | reflexivity].
  - destruct (KVKey_eqb k' k0) eqn:E0; cbn.
    + apply KVKey_eqb_eq in E0. subst k0.
      destruct (KVKey_eqb k k') eqn:E; [apply KVKey_eqb_eq in E; contradiction | reflexivity].
    + now rewrite IH.
Qed.

Lemma queuedFor_put_other (c t m c' : Z) (v : KVValue) (kv : KV) :
  c' <> c ->
  queuedFor c (kv_put (NotificationKey t m c') v kv) = queuedFor c kv.
Proof.
  intros N. assert (Hc : (c' =? c) = false) by now apply Z.eqb_neq.
  induction kv as [|[k0 v0] kv IH].
  - cbn. now rewrite Hc.
  - cbn [kv_put]. destruct (KVKey_eqb (NotificationKey t m c') k0) eqn:E0.
    + apply KVKey_eqb_eq in E0. subst k0. cbn. now rewrite Hc.
    + unfold queuedFor in *. cbn [filter]. now rewrite IH.
Qed.

Lemma queuedFor_app (c : Z) (a b : KV) :
  queuedFor c (a ++ b) = queuedFor c a ++ queuedFor c b.
Proof. apply filter_app. Qed.

Section Dispatch.

Variable monitor : Monitor.
Variables currentStatus lastStatus : string.
Variable now : Z.
Variable c : Z.

Let key : KVKey := NotificationKey now (id monitor) c.

(** The value [queueNotifications] stores for a contact row. *)
Definition eventFor (contact : ContactRow) : KVValue :=
  Queued {| monitorId := id monitor;
            monitorName := name monitor;
            contactId := c_id contact;
            n_status := currentStatus;
            previousStatus := lastStatus;
            delayMinutes := JS.numOr0 (delay_minutes contact);
            timestamp := now |}.

Definition queueAll (contacts : list ContactRow) (kv : KV) : KV :=
  fold_left (queueOne monitor currentStatus lastStatus now) contacts kv.

(** Rows of other contacts leave the entries of contact [c] alone. *)
Lemma queueAll_others (contacts : list ContactRow) (kv : KV) :
  Forall (fun r => c_id r <> c) contacts ->
  queuedFor c (queueAll contacts kv) = queuedFor c kv
  /\ kv_get key (queueAll contacts kv) = kv_get key kv.
Proof.
  intros H. revert kv. induction H as [|r l Hr _ IH]; intros kv; [now split|].
  unfold queueAll in *. cbn [fold_left].
  destruct (IH (queueOne monitor currentStatus lastStatus now kv r)) as [E1 E2].
  rewrite E1, E2. unfold queueOne.
  destruct (shouldNotify currentStatus lastStatus r); [|now split]. split.
  - now apply queuedFor_put_other.
  - apply kv_get_put_other. unfold key. congruence.
Qed.

Lemma filter_singleton {A} (p : A -> bool) (l : list A) (x : A) :
  filter p l = [x] ->
  exists pre post,
    l = pre ++ x :: post
    /\ p x = true
    /\ Forall (fun y => p y = false) pre
    /\ Forall (fun y => p y = false) post.
Proof.
  induction l as [|a l IH]; cbn; [discriminate|].
  destruct (p a) eqn:E.
  - intros H. injection H as -> Hl. exists [], l.
    repeat split; auto. clear IH.
    induction l as [|b l IHl]; [constructor|].
    cbn in Hl. destruct (p b) eqn:Eb; [discriminate|].
    constructor; auto.
  - intros H. destruct (IH H) as (pre & post & -> & Hx & Hpre & Hpost).
    exists (a :: pre), post. repeat split; auto.
Qed.

(** One row for contact [c] among the contacts, and a key not yet taken:
    the queue of [c] grows by that row's event exactly when the row is
    eligible. *)
Lemma queueAll_single (contacts : list ContactRow) (row : ContactRow) (kv : KV) :
  filter (fun r => c_id r =? c) contacts = [row] ->
  kv_get key kv = None ->
  queuedFor c (queueAll contacts kv)
  = queuedFor c kv ++
    (if shouldNotify currentStatus lastStatus row then [(key, eventFor row)] else []).
Proof.
  intros Hf Hfresh.
  destruct (filter_singleton _ _ _ Hf) as (pre & post & -> & Hrow & Hpre & Hpost).
  apply Z.eqb_eq in Hrow.
  assert (Hpre' : Forall (fun r => c_id r <> c) pre)
    by (eapply Forall_impl; [|exact Hpre]; intros r Hr; now apply Z.eqb_neq).
  assert (Hpost' : Forall (fun r => c_id r <> c) post)
    by (eapply Forall_impl; [|exact Hpost]; intros r Hr; now apply Z.eqb_neq).
  unfold queueAll. rewrite fold_left_app. cbn [fold_left].
  fold (queueAll pre kv).
  destruct (queueAll_others pre kv Hpre') as [E1 E2].
  match goal with |- queuedFor c (fold_left _ post ?k) = _ =>
    fold (queueAll post k); destruct (queueAll_others post k Hpost') as [E3 _]
  end.
  rewrite E3. unfold queueOne.
  destruct (shouldNotify currentStatus lastStatus row).
  - rewrite Hrow. fold key. rewrite kv_put_fresh by now rewrite E2.
    rewrite queuedFor_app, E1. f_equal. cbn. rewrite Z.eqb_refl.
    unfold eventFor. now rewrite Hrow.
  - rewrite E1. now rewrite app_nil_r.
Qed.

Lemma shouldNotify_spec (contact : ContactRow) :
  shouldNotify currentStatus lastStatus contact = true <->
  (currentStatus <> "up" /\ JS.truthy (notify_on_down contact) = true)
  \/ (currentStatus = "up" /\ lastStatus <> "up"
      /\ JS.truthy (notify_on_up contact) = true).
Proof.
  unfold shouldNotify, isUp.
  destruct (String.eqb_spec currentStatus "up") as [Ec|Ec];
    destruct (String.eqb_spec lastStatus "up") as [El|El];
    destruct (JS.truthy (notify_on_down contact));
    destruct (JS.truthy (notify_on_up contact)); cbn;
    intuition congruence.
Qed.

End Dispatch.

(** Let a contact be bound to the monitor by one active row, and let its
    queue key of this instant be free.  The dispatch queues one event for the
    contact when the row is eligible and none otherwise, where eligible means:
    the new status is not ['up'] and [notify_on_down] is set, or the new status
    is ['up'], the previous one is not, and [notify_on_up] is set.  So a
    contact with both flags off gets nothing; one with [notify_on_down] off and
    [notify_on_up] on gets nothing on a down transition and exactly one event
    on the recovery. *)
Theorem queueNotifications_eligibility
    (monitor : Monitor) (env : Env) (now : Z) (currentStatus lastStatus : string)
    (c : Z) (row : ContactRow) :
  filter (fun r => c_id r =? c) (contactsOf (id monitor) (DB env)) = [row] ->
  kv_get (NotificationKey now (id monitor) c) (UPTIME_MONITOR_KV env) = None ->
  let before := queuedFor c (UPTIME_MONITOR_KV env) in
  let after :=
    queuedFor c
      (UPTIME_MONITOR_KV (queueNotifications monitor currentStatus lastStatus now env)) in
  let event := (NotificationKey now (id monitor) c,
                eventFor monitor currentStatus lastStatus now row) in
  let eligible :=
    (currentStatus <> "up" /\ JS.truthy (notify_on_down row) = true)
    \/ (currentStatus = "up" /\ lastStatus <> "up"
        /\ JS.truthy (notify_on_up row) = true) in
  (eligible -> after = before ++ [event])
  /\ (~ eligible -> after = before)
  /\ (JS.truthy (notify_on_down row) = false ->
      JS.truthy (notify_on_up row) = false -> after = before)
  /\ (JS.truthy (notify_on_down row) = false ->
      JS.truthy (notify_on_up row) = true ->
      (currentStatus <> "up" -> after = before)
      /\ (currentStatus = "up" -> lastStatus <> "up" -> after = before ++ [event])).
Proof.
  intros Hf Hfresh before after event eligible.
  assert (E : after = before ++
                (if shouldNotify currentStatus lastStatus row then [event] else [])).
  { unfold after, queueNotifications. cbn [UPTIME_MONITOR_KV setKV].
    exact (queueAll_single monitor currentStatus lastStatus now c _ row _ Hf Hfresh). }
  pose proof (shouldNotify_spec currentStatus lastStatus row) as S.
  fold eligible in S.
  assert (Hyes : eligible -> after = before ++ [event]).
  { intros H. apply S in H. now rewrite E, H. }
  assert (Hno : ~ eligible -> after = before).
  { intros H. rewrite E. destruct (shouldNotify currentStatus lastStatus row).
    - destruct H. now apply S.
    - apply app_nil_r. }
  split; [exact Hyes|]. split; [exact Hno|]. split.
  - intros Hd Hu. apply Hno. unfold eligible. rewrite Hd, Hu. intuition discriminate.
  - intros Hd Hu. split.
    + intros Hc. apply Hno. unfold eligible. rewrite Hd. intuition discriminate.
    + intros Hc Hl. apply Hyes. unfold eligible. right. auto.
Qed.

Definition contactsDB : Database :=
  {| monitors := [httpMonitor]; monitor_checks := []; incidents := [];
     uptime_stats := [];
     alert_contacts := [{| ac_id := 7; ac_is_active := Some 1 |};
                        {| ac_id := 8; ac_is_active := Some 1 |}];
     monitor_alert_contacts :=
       [{| mac_monitor_id := 1; mac_alert_contact_id := 8;
           mac_notify_on_down := Some 1; mac_notify_on_up := Some 1;
           mac_delay_minutes := Some 0 |};
        {| mac_monitor_id := 1; mac_alert_contact_id := 7;
           mac_notify_on_down := Some 0; mac_notify_on_up := Some 1;
           mac_delay_minutes := Some 0 |}] |}.

Definition recoveryOnly : ContactRow :=
  {| c_id := 7; notify_on_down := Some 0; notify_on_up := Some 1;
     delay_minutes := Some 0 |}.

Lemma queueNotifications_eligibility_witness :
  queuedFor 7
    (UPTIME_MONITOR_KV
       (queueNotifications httpMonitor "up" "down" 500
          {| DB := contactsDB; UPTIME_MONITOR_KV := [] |}))
  = [] ++ [(NotificationKey 500 1 7,
            eventFor httpMonitor "up" "down" 500 recoveryOnly)].
Proof.
  destruct (queueNotifications_eligibility httpMonitor
              {| DB := contactsDB; UPTIME_MONITOR_KV := [] |}
              500 "up" "down" 7 recoveryOnly eq_refl eq_refl)
    as (_ & _ & _ & H).
  destruct (H eq_refl eq_refl) as [_ H2].
  apply H2; [reflexivity | discriminate].
Defined.

(* ================================================================== *)
(** ** The transition machine on a sequence of results *)
(* ================================================================== *)

(** What the [try] block of [runMonitoringCheck] does with a result. *)
Definition recordResult (monitor : Monitor) (result : CheckResult)
    (saveT handleT : Z) (env : Env) : Env :=
  handleStatusChange monitor result handleT
    (saveCheckResult (id monitor) result saveT env).

Lemma runMonitoringCheck_returned (monitor : Monitor) (w : World) (env : Env)
    (result : CheckResult) :
  probe monitor w env = Returns result ->
  runMonitoringCheck monitor w env
  = (recordResult monitor result (saveTime w) (handleTime w) env, result).
Proof. intros E. unfold runMonitoringCheck. now rewrite E. Qed.

(** The checks, and the incidents, of one monitor. *)
Definition history (monitorId : Z) (checks : list CheckRow) : list CheckRow :=
  filter (fun r => chk_monitor_id r =? monitorId) checks.

Definition incidentsOf (monitorId : Z) (l : list IncidentRow) : list IncidentRow :=
  filter (fun i => inc_monitor_id i =? monitorId) l.

(** The incident a down-transition opens, and its resolved form. *)
Definition opened (monitorId : Z) (result : CheckResult) (key : Z) : IncidentRow :=
  {| inc_id := key;
     inc_monitor_id := monitorId;
     inc_status := "investigating";
     inc_started_at := checked_at result;
     inc_resolved_at := None;
     inc_duration_seconds := None;
     inc_cause := JS.strOr (error_message result)
                           ("Monitor status: " ^^ status result) |}.

Definition resolved (now : Z) (i : IncidentRow) : IncidentRow :=
  {| inc_id := inc_id i;
     inc_monitor_id := inc_monitor_id i;
     inc_status := "resolved";
     inc_started_at := inc_started_at i;
     inc_resolved_at := Some now;
     inc_duration_seconds := Some (strftime_s now - strftime_s (inc_started_at i));
     inc_cause := inc_cause i |}.

(** The incident table after [handleStatusChange], by the two statuses. *)
Definition incidentsAfter (lastStatus : string) (monitor : Monitor)
    (result : CheckResult) (now : Z) (l : list IncidentRow) : list IncidentRow :=
  if String.eqb lastStatus (status result) then l
  else if isDownish (status result) then
    l ++ [opened (id monitor) result (nextId (map inc_id l))]
  else if isUp (status result) && isDownish lastStatus then
    mapWhere (isOpen (id monitor)) (resolved now) l
  else l.

Lemma nextId_above (l : list Z) : Forall (fun x => x < nextId l) l.
Proof.
  unfold nextId. induction l as [|a l IH]; constructor; cbn [fold_right].
  - lia.
  - eapply Forall_impl; [|exact IH]. cbn beta. intros x Hx. lia.
Qed.

Lemma maxCheckId_from (monitorId : Z) (checks : list CheckRow) (acc : option Z) (i : Z) :
  fold_left
    (fun acc r =>
       if chk_monitor_id r =? monitorId then
         match acc with
         | Some m => Some (Z.max m (chk_id r))
         | None => Some (chk_id r)
         end
       else acc) checks acc = Some i ->
  acc = Some i \/ In i (map chk_id checks).
Proof.
  revert acc. induction checks as [|r l IH]; intros acc; cbn [fold_left map].
  - auto.
  - intros H. apply IH in H. destruct H as [H|H]; [|right; now right].
    destruct (chk_monitor_id r =? monitorId); [|now left].
    destruct acc as [m|].
    + injection H as H. destruct (Z.max_spec m (chk_id r)) as [[_ E]|[_ E]];
        rewrite E in H; [right; left; exact H | left; now f_equal].
    + injection H as H. right. now left.
Qed.

Section AfterSave.

Variable monitorId : Z.
Variable checks : list CheckRow.
Variable new : CheckRow.
Hypothesis new_monitor : chk_monitor_id new = monitorId.
Hypothesis new_id : chk_id new = nextId (map chk_id checks).

Lemma older_ids (r : CheckRow) : In r checks -> chk_id r < chk_id new.
Proof.
  intros H. rewrite new_id.
  pose proof (nextId_above (map chk_id checks)) as F.
  rewrite Forall_forall in F. apply F. now apply in_map.
Qed.

Lemma maxCheckId_snoc : maxCheckId monitorId (checks ++ [new]) = Some (chk_id new).
Proof.
  unfold maxCheckId. rewrite fold_left_app. cbn [fold_left].
  rewrite new_monitor, Z.eqb_refl.
  match goal with |- match ?a with _ => _ end = _ => destruct a as [m|] eqn:E end;
    [|reflexivity].
  apply maxCheckId_from in E. destruct E as [E|E]; [discriminate|].
  apply in_map_iff in E. destruct E as (r & <- & Hr).
  apply older_ids in Hr. f_equal. lia.
Qed.

(** Right after a save, the [lastCheck] query sees the monitor's earlier
    rows, all of them. *)
Lemma lastCheck_snoc :
  lastCheck monitorId (checks ++ [new]) = latestByCheckedAt (history monitorId checks).
Proof.
  unfold lastCheck. rewrite maxCheckId_snoc, filter_app. cbn [filter].
  rewrite Z.eqb_refl, andb_false_r, app_nil_r. f_equal.
  apply filter_ext_in. intros r Hr. apply older_ids in Hr.
  replace (chk_id r =? chk_id new) with false by (symmetry; apply Z.eqb_neq; lia).
  apply andb_true_r.
Qed.

Lemma history_snoc : history monitorId (checks ++ [new]) = history monitorId checks ++ [new].
Proof.
  unfold history. rewrite filter_app. cbn [filter].
  now rewrite new_monitor, Z.eqb_refl.
Qed.

End AfterSave.

Lemma latestByCheckedAt_snoc (l : list CheckRow) (r : CheckRow) :
  latestByCheckedAt (l ++ [r])
  = match latestByCheckedAt l with
    | Some b => if chk_checked_at b <? chk_checked_at r then Some r else Some b
    | None => Some r
    end.
Proof. unfold latestByCheckedAt. now rewrite fold_left_app. Qed.

Lemma handleStatusChange_checks (monitor : Monitor) (result : CheckResult) (now : Z) (env : Env) :
  monitor_checks (DB (handleStatusChange monitor result now env))
  = monitor_checks (DB env).
Proof.
  unfold handleStatusChange.
  destruct (negb _); [|reflexivity].
  destruct (isDownish _); [reflexivity|].
  destruct (_ && _); reflexivity.
Qed.

Lemma handleStatusChange_incidents (monitor : Monitor) (result : CheckResult) (now : Z) (env : Env) :
  incidents (DB (handleStatusChange monitor result now env))
  = incidentsAfter
      (JS.strOr (option_map chk_status
                   (lastCheck (id monitor) (monitor_checks (DB env)))) "unknown")
      monitor result now (incidents (DB env)).
Proof.
  unfold handleStatusChange, incidentsAfter.
  destruct (String.eqb _ (status result)); cbn [negb]; [reflexivity|].
  destruct (isDownish (status result)); [reflexivity|].
  destruct (_ && _); reflexivity.
Qed.

(** One recorded result, for a monitor whose latest earlier check (if any)
    is strictly older than the new one. *)
Lemma recordResult_step (monitor : Monitor) (result : CheckResult)
    (saveT handleT : Z) (env : Env) (prev : option CheckRow) :
  latestByCheckedAt (history (id monitor) (monitor_checks (DB env))) = prev ->
  match prev with
  | Some p => chk_checked_at p < checked_at result
  | None => True
  end ->
  let env' := recordResult monitor result saveT handleT env in
  (exists row,
      latestByCheckedAt (history (id monitor) (monitor_checks (DB env'))) = Some row
      /\ chk_status row = status result
      /\ chk_checked_at row = checked_at result)
  /\ incidents (DB env')
     = incidentsAfter (JS.strOr (option_map chk_status prev) "unknown")
         monitor result handleT (incidents (DB env)).
Proof.
  intros Hprev Hlt env'. unfold env', recordResult.
  destruct (saveCheckResult_checks (id monitor) result saveT env)
    as (row & E & Hid & Hm & Hs & _ & _ & Ht).
  split.
  - exists row. rewrite handleStatusChange_checks, E.
    rewrite (history_snoc _ _ _ Hm), latestByCheckedAt_snoc, Hprev.
    split; [|now split].
    destruct prev as [p|]; [|reflexivity].
    replace (chk_checked_at p <? chk_checked_at row) with true; [reflexivity|].
    symmetry. apply Z.ltb_lt. lia.
  - rewrite handleStatusChange_incidents, E, (lastCheck_snoc _ _ _ Hm Hid), Hprev.
    now rewrite saveCheckResult_incidents.
Qed.

Lemma incidentsOf_app (monitorId : Z) (a b : list IncidentRow) :
  incidentsOf monitorId (a ++ b) = incidentsOf monitorId a ++ incidentsOf monitorId b.
Proof. apply filter_app. Qed.

Lemma incidentsOf_resolve_none (monitorId now : Z) (l : list IncidentRow) :
  incidentsOf monitorId l = [] ->
  incidentsOf monitorId (mapWhere (isOpen monitorId) (resolved now) l) = [].
Proof.
  unfold incidentsOf, mapWhere, isOpen. induction l as [|i l IH]; [reflexivity|].
  cbn [filter map]. destruct (inc_monitor_id i =? monitorId) eqn:E; [discriminate|].
  cbn [andb]. rewrite E. exact IH.
Qed.

(** C2. A monitor without earlier checks or incidents gets the results
    [up, down, down, up], each stamped later than the one before.  No incident
    exists after the first result; the first ['down'] opens one incident, with
    status ['investigating'], [started_at] the [checked_at] of that result and
    cause its error message or "Monitor status: down"; the second ['down']
    changes nothing; the final ['up'] closes that incident with [resolved_at]
    the clock reading [now] of the handler and [duration_seconds] the
    difference of the two instants in whole seconds.  No other incident of the
    monitor exists at any point. *)
Theorem up_down_down_up_opens_and_closes_one_incident
    (monitor : Monitor) (env : Env) (r1 r2 r3 r4 : CheckResult)
    (s1 h1 s2 h2 s3 h3 s4 now : Z) :
  history (id monitor) (monitor_checks (DB env)) = [] ->
  incidentsOf (id monitor) (incidents (DB env)) = [] ->
  status r1 = "up" -> status r2 = "down" -> status r3 = "down" -> status r4 = "up" ->
  checked_at r1 < checked_at r2 ->
  checked_at r2 < checked_at r3 ->
  checked_at r3 < checked_at r4 ->
  let env1 := recordResult monitor r1 s1 h1 env in
  let env2 := recordResult monitor r2 s2 h2 env1 in
  let env3 := recordResult monitor r3 s3 h3 env2 in
  let env4 := recordResult monitor r4 s4 now env3 in
  let key := nextId (map inc_id (incidents (DB env))) in
  let cause := JS.strOr (error_message r2) "Monitor status: down" in
  incidentsOf (id monitor) (incidents (DB env1)) = []
  /\ incidentsOf (id monitor) (incidents (DB env2))
     = [{| inc_id := key; inc_monitor_id := id monitor;
           inc_status := "investigating";
           inc_started_at := checked_at r2;
           inc_resolved_at := None; inc_duration_seconds := None;
           inc_cause := cause |}]
  /\ incidentsOf (id monitor) (incidents (DB env3))
     = incidentsOf (id monitor) (incidents (DB env2))
  /\ incidentsOf (id monitor) (incidents (DB env4))
     = [{| inc_id := key; inc_monitor_id := id monitor;
           inc_status := "resolved";
           inc_started_at := checked_at r2;
           inc_resolved_at := Some now;
           inc_duration_seconds :=
             Some (strftime_s now - strftime_s (checked_at r2));
           inc_cause := cause |}].
Proof.
  intros Hh Hi S1 S2 S3 S4 T12 T23 T34 env1 env2 env3 env4 key cause.
  (* first result: up, nothing before it *)
  destruct (recordResult_step monitor r1 s1 h1 env None) as [(p1 & L1 & P1 & Q1) I1];
    [now rewrite Hh | exact I |].
  fold env1 in L1, I1.
  assert (E1 : incidents (DB env1) = incidents (DB env)).
  { rewrite I1. unfold incidentsAfter. rewrite S1. reflexivity. }
  (* second result: down after up *)
  destruct (recordResult_step monitor r2 s2 h2 env1 (Some p1) L1) as [(p2 & L2 & P2 & Q2) I2];
    [lia|].
  fold env2 in L2, I2.
  assert (E2 : incidents (DB env2)
               = incidents (DB env) ++ [opened (id monitor) r2 key]).
  { rewrite I2. unfold incidentsAfter. cbn [option_map]. rewrite P1, S1, S2, E1.
    reflexivity. }
  (* third result: down after down *)
  destruct (recordResult_step monitor r3 s3 h3 env2 (Some p2) L2) as [(p3 & L3 & P3 & Q3) I3];
    [lia|].
  fold env3 in L3, I3.
  assert (E3 : incidents (DB env3) = incidents (DB env2)).
  { rewrite I3. unfold incidentsAfter. cbn [option_map]. rewrite P2, S2, S3.
    reflexivity. }
  (* fourth result: up after down *)
  destruct (recordResult_step monitor r4 s4 now env3 (Some p3) L3) as [_ I4];
    [lia|].
  fold env4 in I4.
  assert (E4 : incidents (DB env4)
               = mapWhere (isOpen (id monitor)) (resolved now) (incidents (DB env2))).
  { rewrite I4. unfold incidentsAfter. cbn [option_map]. rewrite P3, S3, S4, E3.
    reflexivity. }
  assert (O : isOpen (id monitor) (opened (id monitor) r2 key) = true).
  { unfold isOpen, opened. cbn. now rewrite Z.eqb_refl. }
  split; [now rewrite E1|]. split; [|split].
  - rewrite E2, incidentsOf_app, Hi.
    unfold incidentsOf, opened, cause, key. cbn [filter inc_monitor_id app].
    rewrite Z.eqb_refl, S2. reflexivity.
  - now rewrite E3.
  - rewrite E4, E2. unfold mapWhere. rewrite map_app, incidentsOf_app.
    fold (mapWhere (isOpen (id monitor)) (resolved now) (incidents (DB env))).
    rewrite (incidentsOf_resolve_none _ _ _ Hi). cbn [map app]. rewrite O.
    unfold incidentsOf, resolved, opened, cause, key.
    cbn [filter inc_monitor_id inc_id inc_started_at inc_cause].
    rewrite Z.eqb_refl, S2. reflexivity.
Qed.

Definition sampleAt (t : Z) (st : string) (message : option string) : CheckResult :=
  {| status := st; response_time_ms := Some 120; status_code := None;
     error_message := message; checked_at := t; region := getRegion;
     ssl_days_remaining := None; keyword_found := None |}.

Lemma up_down_down_up_opens_and_closes_one_incident_witness :
  incidentsOf 1
    (incidents
       (DB (recordResult httpMonitor (sampleAt 900000 "up" None) 900001 905500
              (recordResult httpMonitor (sampleAt 600000 "down" None) 600001 600002
                 (recordResult httpMonitor
                    (sampleAt 300000 "down" (Some "Unexpected status code: 503"))
                    300001 300002
                    (recordResult httpMonitor (sampleAt 0 "up" None) 1 2
                       emptyEnv))))))
  = [{| inc_id := 1; inc_monitor_id := 1; inc_status := "resolved";
        inc_started_at := 300000; inc_resolved_at := Some 905500;
        inc_duration_seconds := Some 605;
        inc_cause := "Unexpected status code: 503" |}].
Proof.
  exact (proj2 (proj2 (proj2
    (up_down_down_up_opens_and_closes_one_incident httpMonitor emptyEnv
       (sampleAt 0 "up" None)
       (sampleAt 300000 "down" (Some "Unexpected status code: 503"))
       (sampleAt 600000 "down" None)
       (sampleAt 900000 "up" None)
       1 2 300001 300002 600001 600002 900001 905500
       eq_refl eq_refl eq_refl eq_refl eq_refl eq_refl
       eq_refl eq_refl eq_refl)))).
Defined.

(** *** When the invariant does hold *)

(** One cycle: the result, and the clock readings of its save and of its
    transition handling. *)
Definition Cycle : Type := CheckResult * Z * Z.

Definition recordAll (monitor : Monitor) (cycles : list Cycle) (env : Env) : Env :=
  fold_left (fun e '(r, s, h) => recordResult monitor r s h e) cycles env.

Definition openCount (monitorId : Z) (env : Env) : nat :=
  List.length (filter (isOpen monitorId) (incidents (DB env))).

(** The statuses the [monitor_checks] table admits. *)
Definition validStatus (s : string) : Prop :=
  s = "up" \/ s = "down" \/ s = "timeout" \/ s = "error".

(** A run of cycles after a check at [prevT] with status [prevS]: valid
    statuses, strictly increasing [checked_at], and no step from one
    down-class status to a different one. *)
Fixpoint steady (prevT : option Z) (prevS : string) (cycles : list Cycle) : Prop :=
  match cycles with
  | [] => True
  | (r, _, _) :: rest =>
      validStatus (status r)
      /\ match prevT with Some t => t < checked_at r | None => True end
      /\ (isDownish prevS = true -> isDownish (status r) = true -> prevS = status r)
      /\ steady (Some (checked_at r)) (status r) rest
  end.

Lemma openCount_opened (monitorId : Z) (l : list IncidentRow) (result : CheckResult) (key : Z) :
  List.length (filter (isOpen monitorId) (l ++ [opened monitorId result key]))
  = S (List.length (filter (isOpen monitorId) l)).
Proof.
  rewrite filter_app, length_app. cbn [filter]. unfold isOpen at 2. cbn.
  rewrite Z.eqb_refl. cbn. lia.
Qed.

Lemma openCount_resolved (monitorId now : Z) (l : list IncidentRow) :
  filter (isOpen monitorId) (mapWhere (isOpen monitorId) (resolved now) l) = [].
Proof.
  unfold mapWhere. induction l as [|i l IH]; [reflexivity|].
  cbn [map filter]. destruct (isOpen monitorId i) eqn:E.
  - unfold isOpen at 1. cbn. rewrite andb_false_r. exact IH.
  - rewrite E. exact IH.
Qed.

Lemma validStatus_strOr (s : string) : validStatus s -> JS.strOr (Some s) "unknown" = s.
Proof. intros [-> | [-> | [-> | ->]]]; reflexivity. Qed.

Lemma validStatus_up_or_downish (s : string) :
  validStatus s -> (s = "up" /\ isDownish s = false) \/ isDownish s = true.
Proof. intros [-> | [-> | [-> | ->]]]; auto. Qed.

(** The state the transition machine is in between two cycles. *)
Definition tracked (monitor : Monitor) (env : Env) (prevT : option Z) (prevS : string)
    : Prop :=
  (exists prev,
      latestByCheckedAt (history (id monitor) (monitor_checks (DB env))) = prev
      /\ option_map chk_checked_at prev = prevT
      /\ JS.strOr (option_map chk_status prev) "unknown" = prevS)
  /\ (openCount (id monitor) env <= 1)%nat
  /\ (openCount (id monitor) env = 1%nat -> isDownish prevS = true).

Lemma tracked_step (monitor : Monitor) (env : Env) (prevT : option Z) (prevS : string)
    (r : CheckResult) (s h : Z) :
  tracked monitor env prevT prevS ->
  validStatus (status r) ->
  match prevT with Some t => t < checked_at r | None => True end ->
  (isDownish prevS = true -> isDownish (status r) = true -> prevS = status r) ->
  tracked monitor (recordResult monitor r s h env) (Some (checked_at r)) (status r).
Proof.
  intros [(prev & L & HT & HS) [Hle Hone]] V Hlt Hcalm.
  destruct (recordResult_step monitor r s h env prev L) as [(row & L' & P & Q) I].
  { destruct prev as [p|]; cbn in HT; subst prevT; [exact Hlt | exact I]. }
  split.
  - exists (Some row). split; [exact L'|]. cbn [option_map]. split; [now rewrite Q|].
    rewrite P. now apply validStatus_strOr.
  - unfold openCount in *. rewrite I, HS. unfold incidentsAfter.
    destruct (String.eqb_spec prevS (status r)) as [E|E].
    + split; [exact Hle|]. rewrite <- E. exact Hone.
    + destruct (validStatus_up_or_downish _ V) as [[U D]|D]; rewrite D.
      * rewrite U. cbn [isUp String.eqb Ascii.eqb Bool.eqb andb].
        destruct (isDownish prevS) eqn:Dp.
        -- rewrite openCount_resolved. cbn. split; [lia | discriminate].
        -- split; [exact Hle|]. intros H1. specialize (Hone H1). discriminate.
      * rewrite openCount_opened.
        assert (Dp : isDownish prevS = false).
        { destruct (isDownish prevS) eqn:Dp; [|reflexivity].
          exfalso. apply E. now apply Hcalm. }
        assert (Z0 : List.length (filter (isOpen (id monitor)) (incidents (DB env)))
                     = 0%nat).
        { destruct (List.length (filter (isOpen (id monitor)) (incidents (DB env))))
            as [|[|n]] eqn:En; [reflexivity | | lia].
          specialize (Hone eq_refl). congruence. }
        rewrite Z0. split; [lia | intros _; reflexivity].
Qed.

(** As long as the status never moves from one of down, error, timeout to
    another of them, a monitor that starts without checks and without open
    incidents has at most one open incident after every cycle. *)
Lemma one_open_incident_while_steady (monitor : Monitor) (cycles : list Cycle) (env : Env) :
  history (id monitor) (monitor_checks (DB env)) = [] ->
  filter (isOpen (id monitor)) (incidents (DB env)) = [] ->
  steady None "unknown" cycles ->
  forall n, (openCount (id monitor) (recordAll monitor (firstn n cycles) env) <= 1)%nat.
Proof.
  intros Hh Hi.
  assert (T0 : tracked monitor env None "unknown").
  { split; [exists None; now rewrite Hh|].
    unfold openCount. rewrite Hi. cbn. split; [lia | discriminate]. }
  clear Hh Hi. revert T0. generalize (@None Z) as prevT, "unknown" as prevS.
  revert env. induction cycles as [|[[r s] h] rest IH]; intros env prevT prevS T St n.
  - rewrite firstn_nil. cbn. apply T.
  - destruct n as [|n]; [cbn; apply T|].
    cbn [firstn recordAll fold_left]. destruct St as (V & Hlt & Hcalm & St).
    apply (IH _ (Some (checked_at r)) (status r)); [|exact St].
    now apply tracked_step with (prevT := prevT) (prevS := prevS).
Qed.

(* ================================================================== *)
(** ** The downtime sweep *)
(* ================================================================== *)

(** The sweep in the words of the specification, as two mutually recursive
    readings of the remaining checks.  [sweepUp] reads them outside a down
    run: a ['down'] check is a transition into a run, counts one incident and
    is the start of the run.  [sweepDown start seen] reads them inside the run
    begun at [start], [seen] being the time of the check read last: a check
    that is not ['down'] ends the run and adds the minutes from [start] to
    that check; when the checks end inside the run, the minutes from [start]
    to the last check are added.  Both return the minutes and the incidents. *)
Fixpoint sweepUp (checks : list CheckRow) : Q * Z :=
  match checks with
  | [] => (0%Q, 0)
  | check :: rest =>
      if isDown check then
        let '(d, n) := sweepDown (chk_checked_at check) (chk_checked_at check) rest in
        (d, n + 1)
      else sweepUp rest
  end
with sweepDown (start seen : Z) (checks : list CheckRow) : Q * Z :=
  match checks with
  | [] => (minutesBetween start seen, 0)
  | check :: rest =>
      if isDown check then sweepDown start (chk_checked_at check) rest
      else
        let '(d, n) := sweepUp rest in
        ((minutesBetween start (chk_checked_at check) + d)%Q, n)
  end.

(** Checks one minute mark apart from each other are 60000 ms apart. *)
Definition checkAtMinute (minute : Z) (st : string) : CheckRow :=
  {| chk_id := minute; chk_monitor_id := 1; chk_status := st;
     chk_response_time_ms := Some 120; chk_status_code := None;
     chk_error_message := None; chk_checked_at := minute * 60000;
     chk_region := getRegion; chk_ssl_days_remaining := None;
     chk_keyword_found := None |}.

Module DowntimeFacts.

Import Downtime.

(** The addition after the loop, for a last check at [lastCheck]. *)
Definition finish (st : State) (lastCheck : Z) : Q :=
  if isInDowntime st then
    match downtimeStart st with
    | Some start => (totalDuration st + minutesBetween start lastCheck)%Q
    | None => totalDuration st
    end
  else totalDuration st.

Lemma calculateDowntime_finish (checks : list CheckRow) :
  calculateDowntime checks
  = {| info_totalDuration :=
         JS.Math_round
           (finish (fold_left step checks init)
              (last (map chk_checked_at checks) 0));
       info_incidents := incidents (fold_left step checks init) |}.
Proof. reflexivity. Qed.

Lemma last_cons {A} (a d : A) (l : list A) : last (a :: l) d = last l a.
Proof.
  revert a d. induction l as [|b l IH]; intros a d; [reflexivity|].
  change (last (a :: b :: l) d) with (last (b :: l) d).
  now rewrite (IH b d), (IH b a).
Qed.

(** The loop, started outside or inside a down run, against the two
    readings of the specification. *)
Lemma loop_sweep (checks : list CheckRow) :
  (forall st d,
      isInDowntime st = false ->
      (finish (fold_left step checks st) (last (map chk_checked_at checks) d)
       == totalDuration st + fst (sweepUp checks))%Q
      /\ incidents (fold_left step checks st)
         = incidents st + snd (sweepUp checks))
  /\ (forall st start seen,
        isInDowntime st = true ->
        downtimeStart st = Some start ->
        (finish (fold_left step checks st) (last (map chk_checked_at checks) seen)
         == totalDuration st + fst (sweepDown start seen checks))%Q
        /\ incidents (fold_left step checks st)
           = incidents st + snd (sweepDown start seen checks)).
Proof.
  induction checks as [|c rest [IHup IHdown]]; split.
  - intros st d H. cbn. unfold finish. rewrite H. split; [ring | lia].
  - intros st start seen H Hs. cbn. unfold finish. rewrite H, Hs.
    split; [reflexivity | lia].
  - intros st d H. cbn [fold_left map sweepUp]. rewrite last_cons.
    destruct (isDown c) eqn:E.
    + assert (Es : step st c
                   = {| totalDuration := totalDuration st;
                        incidents := incidents st + 1;
                        isInDowntime := true;
                        downtimeStart := Some (chk_checked_at c) |})
        by (unfold step; now rewrite H, E).
      rewrite Es.
      destruct (IHdown {| totalDuration := totalDuration st;
                          incidents := incidents st + 1;
                          isInDowntime := true;
                          downtimeStart := Some (chk_checked_at c) |}
                  (chk_checked_at c) (chk_checked_at c) eq_refl eq_refl)
        as [Hd Hn].
      rewrite Hd, Hn. cbn [totalDuration incidents].
      destruct (sweepDown _ _ rest) as [dd nn]. cbn [fst snd].
      split; [reflexivity | lia].
    + assert (Es : step st c = st)
        by (unfold step; rewrite H, E; reflexivity).
      rewrite Es. exact (IHup st (chk_checked_at c) H).
  - intros st start seen H Hs. cbn [fold_left map sweepDown]. rewrite last_cons.
    destruct (isDown c) eqn:E.
    + assert (Es : step st c = st)
        by (unfold step; rewrite H, E; reflexivity).
      rewrite Es. exact (IHdown st start (chk_checked_at c) H Hs).
    + assert (Es : step st c
                   = {| totalDuration :=
                          (totalDuration st
                           + minutesBetween start (chk_checked_at c))%Q;
                        incidents := incidents st;
                        isInDowntime := false;
                        downtimeStart := downtimeStart st |})
        by (unfold step; now rewrite H, E, Hs).
      rewrite Es.
      destruct (IHup {| totalDuration :=
                          (totalDuration st
                           + minutesBetween start (chk_checked_at c))%Q;
                        incidents := incidents st;
                        isInDowntime := false;
                        downtimeStart := downtimeStart st |}
                  (chk_checked_at c) eq_refl) as [Hd Hn].
      rewrite Hd, Hn. cbn [totalDuration incidents].
      destruct (sweepUp rest) as [dd nn]. cbn [fst snd].
      split; [ring | reflexivity].
Qed.

Lemma Math_round_comp (a b : Q) : (a == b)%Q -> JS.Math_round a = JS.Math_round b.
Proof. intros E. unfold JS.Math_round. now rewrite E. Qed.

End DowntimeFacts.

(** With the minutes taken as exact rationals, the loop yields one incident
    for each transition into a down run, the minutes from the start of a run
    to the check that ends it and, for a run still open at the end, the
    minutes to the last check; the sum rounded to whole minutes.  This is the
    reading the bounds on the nightly row are proved for; the arithmetic of
    the code itself is that of [calculateDowntime64] below. *)
Theorem calculateDowntime_is_the_sweep :
  (forall checks : list CheckRow,
      calculateDowntime checks
      = {| Downtime.info_totalDuration := JS.Math_round (fst (sweepUp checks));
           Downtime.info_incidents := snd (sweepUp checks) |})
  /\ calculateDowntime
       [checkAtMinute 0 "up"; checkAtMinute 5 "down"; checkAtMinute 10 "down";
        checkAtMinute 15 "up"; checkAtMinute 20 "down"]
     = {| Downtime.info_totalDuration := 10; Downtime.info_incidents := 2 |}.
Proof.
  split; [|vm_compute; reflexivity].
  intros checks. rewrite DowntimeFacts.calculateDowntime_finish.
  destruct (proj1 (DowntimeFacts.loop_sweep checks) Downtime.init 0 eq_refl)
    as [Hd Hn].
  rewrite Hn. cbn [Downtime.incidents Downtime.init]. f_equal.
  apply DowntimeFacts.Math_round_comp. rewrite Hd.
  cbn [Downtime.totalDuration Downtime.init]. ring.
Qed.

(* ================================================================== *)
(** ** The downtime sweep in double precision *)
(* ================================================================== *)

Module Double.

(** JavaScript numbers are IEEE 754 doubles: an operation yields its exact
    result rounded to the nearest double, ties to the even significand.
    Finite values only: 53 significant bits, subnormal numbers included;
    results beyond the largest double are not covered. *)

(** [floor (log2 |q|)] of a rational that is not 0. *)
Definition exponent (q : Q) : Z :=
  let n := Z.abs (Qnum q) in
  let d := Zpos (Qden q) in
  let e := Z.log2 n - Z.log2 d in
  if d * 2 ^ Z.max e 0 <=? n * 2 ^ Z.max (- e) 0 then e else e - 1.

(** The integer nearest to [a / b], ties to even. *)
Definition nearestEven (a b : Z) : Z :=
  let f := a / b in
  match 2 * (a mod b) ?= b with
  | Lt => f
  | Gt => f + 1
  | Eq => if Z.even f then f else f + 1
  end.

Definition round (q : Q) : Q :=
  if Qnum q =? 0 then 0%Q
  else
    let k := Z.max (exponent q) (-1022) - 52 in
    let m := nearestEven (Qnum q * 2 ^ Z.max (- k) 0)
               (Zpos (Qden q) * 2 ^ Z.max k 0) in
    Qred (Qmake (m * 2 ^ Z.max k 0) (Z.to_pos (2 ^ Z.max (- k) 0))).

End Double.

Section DowntimeArithmetic.

(** What an arithmetic operation does to its exact result. *)
Variable fl : Q -> Q.

(** [(b - a) / (1000 * 60)] on two [Date]s. *)
Definition minutesBetweenWith (a b : Z) : Q :=
  fl (fl (inject_Z (b - a)) / inject_Z (1000 * 60)).

(** One iteration of the [for] loop. *)
Definition stepWith (st : Downtime.State) (check : CheckRow) : Downtime.State :=
  if isDown check && negb (Downtime.isInDowntime st) then
    {| Downtime.totalDuration := Downtime.totalDuration st;
       Downtime.incidents := Downtime.incidents st + 1;
       Downtime.isInDowntime := true;
       Downtime.downtimeStart := Some (chk_checked_at check) |}
  else if negb (isDown check) && Downtime.isInDowntime st then
    {| Downtime.totalDuration :=
         match Downtime.downtimeStart st with
         | Some start =>
             fl (Downtime.totalDuration st
                 + minutesBetweenWith start (chk_checked_at check))
         | None => Downtime.totalDuration st
         end;
       Downtime.incidents := Downtime.incidents st;
       Downtime.isInDowntime := false;
       Downtime.downtimeStart := Downtime.downtimeStart st |}
  else st.

(** The addition after the loop, for a last check at [lastCheck]. *)
Definition finishWith (st : Downtime.State) (lastCheck : Z) : Q :=
  if Downtime.isInDowntime st then
    match Downtime.downtimeStart st with
    | Some start => fl (Downtime.totalDuration st + minutesBetweenWith start lastCheck)
    | None => Downtime.totalDuration st
    end
  else Downtime.totalDuration st.

Definition calculateDowntimeWith (checks : list CheckRow) : Downtime.Info :=
  let st := fold_left stepWith checks Downtime.init in
  {| Downtime.info_totalDuration :=
       JS.Math_round (finishWith st (last (map chk_checked_at checks) 0));
     Downtime.info_incidents := Downtime.incidents st |}.

(** The pass as the specification words it, for a given reading of which
    check is a transition into a down run ([entersDown]) and which one a
    transition back ([leavesDown]): outside a run, a check that enters one
    counts an incident and records its time as the start; inside a run, a
    check that leaves it adds the minutes since the start to the total; a
    run still open after the last check adds the minutes from its start to
    that last check. *)
Variables entersDown leavesDown : CheckRow -> bool.



End DowntimeArithmetic.

(** [calculateDowntime(checks)] as the code computes it, in doubles. *)
Definition calculateDowntime64 (checks : list CheckRow) : Downtime.Info :=
  calculateDowntimeWith Double.round checks.



(** With every operation exact, this is [calculateDowntime]. *)
Lemma calculateDowntimeWith_exact (checks : list CheckRow) :
  calculateDowntimeWith (fun q => q) checks = calculateDowntime checks.
Proof. reflexivity. Qed.

Module Downtime64Facts.

Import Downtime.




End Downtime64Facts.




(** Checks at a given second of the day. *)
Definition checkAtSecond (second : Z) (st : string) : CheckRow :=
  {| chk_id := second; chk_monitor_id := 1; chk_status := st;
     chk_response_time_ms := Some 120; chk_status_code := None;
     chk_error_message := None; chk_checked_at := second * 1000;
     chk_region := getRegion; chk_ssl_days_remaining := None;
     chk_keyword_found := None |}.

(** Runs of 7, 22 and 1 seconds make half a minute; added as doubles they
    come to 0.49999999999999994, which rounds to 0, where the exact sum
    rounds to 1. *)
Lemma half_a_minute_in_doubles :
  calculateDowntime64
    [checkAtSecond 0 "down"; checkAtSecond 7 "up"; checkAtSecond 60 "down";
     checkAtSecond 82 "up"; checkAtSecond 120 "down"; checkAtSecond 121 "up"]
  = {| Downtime.info_totalDuration := 0; Downtime.info_incidents := 3 |}
  /\ calculateDowntime
       [checkAtSecond 0 "down"; checkAtSecond 7 "up"; checkAtSecond 60 "down";
        checkAtSecond 82 "up"; checkAtSecond 120 "down"; checkAtSecond 121 "up"]
     = {| Downtime.info_totalDuration := 1; Downtime.info_incidents := 3 |}.
Proof. split; vm_compute; reflexivity. Qed.

(* ================================================================== *)
(** ** Re-running the daily aggregation *)
(* ================================================================== *)

Section Aggregation.

Variable now : Z.

Let today : Z := dateOf now.

(** The skip test of [calculateStats]. *)
Definition alreadyComputed (db : Database) : bool :=
  0 <? Z.of_nat (List.length (filter (fun r => st_date r =? today) (uptime_stats db))).

(** Some row of the date at hand exists. *)
Definition hasToday (stats : list StatRow) : Prop :=
  exists r, In r stats /\ st_date r = today.

Lemma alreadyComputed_iff (db : Database) :
  alreadyComputed db = true <-> hasToday (uptime_stats db).
Proof.
  unfold alreadyComputed, hasToday. split.
  - intros H. apply Z.ltb_lt in H.
    destruct (filter _ (uptime_stats db)) as [|r l] eqn:E; [cbn in H; lia|].
    assert (Hin : In r (filter (fun r => st_date r =? today) (uptime_stats db)))
      by (rewrite E; now left).
    apply filter_In in Hin. destruct Hin as [Hin Hd].
    exists r. split; [exact Hin | now apply Z.eqb_eq].
  - intros (r & Hin & Hd). apply Z.ltb_lt.
    assert (Hf : In r (filter (fun r => st_date r =? today) (uptime_stats db)))
      by (apply filter_In; split; [exact Hin | now apply Z.eqb_eq]).
    destruct (filter _ (uptime_stats db)); [destruct Hf | cbn [List.length]; lia].
Qed.

(** The loop over the active monitors. *)
Definition aggregate (active : list Monitor) (db : Database) : Database :=
  fold_left (fun d m => calculateMonitorStats (id m) today d) active db.

Definition retained (stats : list StatRow) : list StatRow :=
  filter (fun r => negb (st_date r <? today - 365)) stats.

Lemma calculateStats_unfold (db : Database) :
  calculateStats now db
  = if alreadyComputed db then db
    else match filter isActive (monitors db) with
         | [] => db
         | active =>
             let db1 := aggregate active db in
             updateMonitorSummaryStats now
               (setStats db1 (retained (uptime_stats db1)))
         end.
Proof. reflexivity. Qed.

Lemma calculateMonitorStats_cases (i : Z) (db : Database) :
  (checksOn i today db = [] /\ calculateMonitorStats i today db = db)
  \/ (checksOn i today db <> []
      /\ exists row stats,
           calculateMonitorStats i today db = setStats db (stats ++ [row])
           /\ st_date row = today).
Proof.
  unfold calculateMonitorStats.
  destruct (checksOn i today db) as [|c l] eqn:E; [left; now split|].
  right. split; [discriminate|]. eexists. eexists. split; reflexivity.
Qed.

Lemma calculateMonitorStats_hasToday (i : Z) (db : Database) :
  hasToday (uptime_stats db) ->
  hasToday (uptime_stats (calculateMonitorStats i today db)).
Proof.
  intros H. destruct (calculateMonitorStats_cases i db)
    as [[_ E]|[_ (row & stats & E & Hd)]]; rewrite E; [exact H|].
  exists row. split; [|exact Hd]. cbn. apply in_or_app. right. now left.
Qed.

Lemma calculateMonitorStats_checksOn (i j : Z) (db : Database) :
  checksOn j today (calculateMonitorStats i today db) = checksOn j today db.
Proof.
  unfold calculateMonitorStats. now destruct (checksOn i today db).
Qed.

Lemma aggregate_hasToday (active : list Monitor) (db : Database) :
  hasToday (uptime_stats db) -> hasToday (uptime_stats (aggregate active db)).
Proof.
  revert db. induction active as [|m l IH]; intros db H; [exact H|].
  cbn [aggregate fold_left]. apply IH. now apply calculateMonitorStats_hasToday.
Qed.

(** Either no active monitor has a check of the day, and the loop leaves
    the database as it is, or the loop leaves a row of the day. *)
Lemma aggregate_cases (active : list Monitor) (db : Database) :
  (Forall (fun m => checksOn (id m) today db = []) active
   /\ aggregate active db = db)
  \/ hasToday (uptime_stats (aggregate active db)).
Proof.
  revert db. induction active as [|m l IH]; intros db.
  - left. split; [constructor | reflexivity].
  - cbn [aggregate fold_left].
    destruct (calculateMonitorStats_cases (id m) db)
      as [[E0 E]|[_ (row & stats & E & Hd)]].
    + rewrite E. destruct (IH db) as [[F A]|H]; [left|right; exact H].
      split; [now constructor | exact A].
    + right. apply aggregate_hasToday. rewrite E.
      exists row. split; [|exact Hd]. cbn. apply in_or_app. right. now left.
Qed.

Lemma retained_hasToday (stats : list StatRow) :
  hasToday stats -> hasToday (retained stats).
Proof.
  intros (r & Hin & Hd). exists r. split; [|exact Hd].
  apply filter_In. split; [exact Hin|].
  apply negb_true_iff, Z.ltb_ge. lia.
Qed.

Lemma retained_twice (stats : list StatRow) : retained (retained stats) = retained stats.
Proof.
  unfold retained. induction stats as [|r l IH]; [reflexivity|].
  cbn [filter]. destruct (negb _) eqn:E; [|exact IH].
  cbn [filter]. now rewrite E, IH.
Qed.

Lemma retained_not_today (stats : list StatRow) :
  ~ hasToday stats -> ~ hasToday (retained stats).
Proof.
  intros N (r & Hin & Hd). apply N. exists r. split; [|exact Hd].
  apply filter_In in Hin. tauto.
Qed.

Lemma summarised_id (ids : list Z) (db : Database) (m : Monitor) :
  id (summarised now ids db m) = id m.
Proof. unfold summarised. now destruct (existsb _ ids). Qed.

Lemma summarised_isActive (ids : list Z) (db : Database) (m : Monitor) :
  isActive (summarised now ids db m) = isActive m.
Proof. unfold summarised. now destruct (existsb _ ids). Qed.

Lemma summarised_twice (ids : list Z) (db : Database) (m : Monitor) :
  summarised now ids db (summarised now ids db m) = summarised now ids db m.
Proof.
  unfold summarised. destruct (existsb (Z.eqb (id m)) ids) eqn:E.
  - rewrite summaryFor_id, E. apply summaryFor_twice.
  - now rewrite E.
Qed.

Lemma filter_map_commute {A} (p : A -> bool) (f : A -> A) (l : list A) :
  (forall x, p (f x) = p x) -> filter p (map f l) = map f (filter p l).
Proof.
  intros H. induction l as [|x l IH]; [reflexivity|].
  cbn [map filter]. rewrite H. destruct (p x); cbn [map]; now rewrite IH.
Qed.

Lemma active_after_summary (db : Database) :
  filter isActive (monitors (updateMonitorSummaryStats now db))
  = map (summarised now (map id (filter isActive (monitors db))) db)
      (filter isActive (monitors db)).
Proof.
  rewrite updateMonitorSummaryStats_monitors. cbn [monitors setMonitors].
  apply filter_map_commute. intros m. apply summarised_isActive.
Qed.

Lemma updateMonitorSummaryStats_stats (db : Database) :
  uptime_stats (updateMonitorSummaryStats now db) = uptime_stats db.
Proof. now rewrite updateMonitorSummaryStats_monitors. Qed.

Lemma updateMonitorSummaryStats_checks (db : Database) :
  monitor_checks (updateMonitorSummaryStats now db) = monitor_checks db.
Proof. now rewrite updateMonitorSummaryStats_monitors. Qed.

(** The summary pass reads [uptime_stats] only, so a second pass writes
    the same values again. *)
Lemma updateMonitorSummaryStats_twice (db : Database) :
  updateMonitorSummaryStats now (updateMonitorSummaryStats now db)
  = updateMonitorSummaryStats now db.
Proof.
  rewrite (updateMonitorSummaryStats_monitors now (updateMonitorSummaryStats now db)).
  rewrite active_after_summary.
  rewrite (updateMonitorSummaryStats_monitors now db).
  cbn [monitors setMonitors]. unfold setMonitors.
  cbn [monitors monitor_checks incidents uptime_stats alert_contacts
       monitor_alert_contacts].
  f_equal. rewrite !map_map.
  set (ids := map id (filter isActive (monitors db))).
  assert (Eids : map (fun x => id (summarised now ids db x))
                   (filter isActive (monitors db)) = ids).
  { unfold ids. apply map_ext. intros m. apply summarised_id. }
  rewrite Eids. apply map_ext. intros m.
  exact (summarised_twice ids db m).
Qed.

End Aggregation.

Lemma setStats_same (db : Database) : setStats db (uptime_stats db) = db.
Proof. now destruct db. Qed.

Lemma checksOn_ext (i date : Z) (db db' : Database) :
  monitor_checks db = monitor_checks db' -> checksOn i date db = checksOn i date db'.
Proof. intros E. unfold checksOn. now rewrite E. Qed.

Lemma aggregate_none (now : Z) (active : list Monitor) (db : Database) :
  Forall (fun m => checksOn (id m) (dateOf now) db = []) active ->
  aggregate now active db = db.
Proof.
  intros F. induction F as [|m l Hm _ IH]; [reflexivity|].
  cbn [aggregate fold_left]. unfold calculateMonitorStats at 2. rewrite Hm.
  exact IH.
Qed.

(** A run that found no check of the day for any active monitor: the next
    run finds the same and leaves everything as it is. *)
Lemma calculateStats_again_untouched (now : Z) (db : Database) :
  alreadyComputed now db = false ->
  Forall (fun m => checksOn (id m) (dateOf now) db = [])
         (filter isActive (monitors db)) ->
  let db' := updateMonitorSummaryStats now
               (setStats db (retained now (uptime_stats db))) in
  calculateStats now db' = db'.
Proof.
  intros C F db'. rewrite calculateStats_unfold.
  assert (Es : uptime_stats db' = retained now (uptime_stats db))
    by (unfold db'; now rewrite updateMonitorSummaryStats_stats).
  assert (C' : alreadyComputed now db' = false).
  { destruct (alreadyComputed now db') eqn:E; [|reflexivity].
    apply alreadyComputed_iff in E. rewrite Es in E.
    exfalso. revert E. apply retained_not_today. intros H.
    apply alreadyComputed_iff in H. congruence. }
  rewrite C'.
  assert (Ea : filter isActive (monitors db')
               = map (summarised now (map id (filter isActive (monitors db)))
                        (setStats db (retained now (uptime_stats db))))
                   (filter isActive (monitors db)))
    by (unfold db'; now rewrite active_after_summary).
  assert (F' : Forall (fun m => checksOn (id m) (dateOf now) db' = [])
                 (filter isActive (monitors db'))).
  { rewrite Ea. apply Forall_map. eapply Forall_impl; [|exact F].
    intros m Hm. cbn beta. rewrite summarised_id.
    rewrite (checksOn_ext _ _ db' db); [exact Hm|].
    unfold db'. now rewrite updateMonitorSummaryStats_checks. }
  destruct (filter isActive (monitors db')) as [|m l] eqn:A; [reflexivity|].
  cbn zeta. fold (aggregate now (m :: l) db').
  rewrite (aggregate_none now (m :: l) db' F').
  rewrite Es, retained_twice, <- Es, setStats_same.
  apply updateMonitorSummaryStats_twice.
Qed.

(** C5. Running [calculateStats] a second time at the same clock reading
    changes nothing: the database, and with it every [uptime_stats] row, is
    what the first run left.  Whenever a row of the day exists the run is
    skipped outright. *)
Theorem calculateStats_idempotent (now : Z) (db : Database) :
  calculateStats now (calculateStats now db) = calculateStats now db
  /\ uptime_stats (calculateStats now (calculateStats now db))
     = uptime_stats (calculateStats now db)
  /\ (existsb (fun r => st_date r =? dateOf now) (uptime_stats db) = true ->
      calculateStats now db = db).
Proof.
  assert (Skip : forall d, alreadyComputed now d = true -> calculateStats now d = d)
    by (intros d H; rewrite calculateStats_unfold; now rewrite H).
  assert (Main : calculateStats now (calculateStats now db) = calculateStats now db).
  { rewrite (calculateStats_unfold now db).
    destruct (alreadyComputed now db) eqn:C; [now apply Skip|].
    destruct (filter isActive (monitors db)) as [|m l] eqn:A.
    - rewrite calculateStats_unfold. now rewrite C, A.
    - cbn zeta. destruct (aggregate_cases now (m :: l) db) as [[F E]|H].
      + rewrite E. apply calculateStats_again_untouched; [exact C|].
        now rewrite A.
      + apply Skip. apply alreadyComputed_iff.
        rewrite updateMonitorSummaryStats_stats. cbn [uptime_stats setStats].
        now apply retained_hasToday. }
  split; [exact Main|]. split; [now rewrite Main|].
  intros H. apply Skip. apply alreadyComputed_iff.
  apply existsb_exists in H. destruct H as (r & Hin & Hd).
  exists r. split; [exact Hin | now apply Z.eqb_eq].
Qed.

(** A day with two checks of one monitor, aggregated twice. *)
Definition aggregatedDB : Database :=
  {| monitors := [httpMonitor];
     monitor_checks := [checkAtMinute 0 "up"; checkAtMinute 5 "down"];
     incidents := [];
     uptime_stats := [];
     alert_contacts := []; monitor_alert_contacts := [] |}.

Lemma calculateStats_idempotent_witness :
  existsb (fun r => st_date r =? dateOf 600000)
    (uptime_stats (calculateStats 600000 aggregatedDB)) = true
  /\ calculateStats 600000 (calculateStats 600000 aggregatedDB)
     = calculateStats 600000 aggregatedDB.
Proof.
  split; [vm_compute; reflexivity|].
  apply (proj2 (proj2 (calculateStats_idempotent 600000
                         (calculateStats 600000 aggregatedDB)))).
  vm_compute. reflexivity.
Defined.

(* ================================================================== *)
(** ** The periodic re-scan *)
(* ================================================================== *)

(** The re-scan holds a notification back in two cases only, both decided by
    the monitor's own settings. *)
Lemma backstopSends_spec (current_status : string) (previous_status : option string)
    (alertSettings : AlertSettings) :
  backstopSends current_status previous_status alertSettings = false <->
  (current_status = "down" /\ as_notify_on_down alertSettings = Some false)
  \/ (current_status = "up" /\ previous_status = Some "down"
      /\ as_notify_on_up alertSettings = Some false).
Proof.
  unfold backstopSends, isUp.
  destruct (String.eqb_spec current_status "down") as [Ed|Ed];
    destruct (String.eqb_spec current_status "up") as [Eu|Eu];
    try (exfalso; congruence).
  - destruct (as_notify_on_down alertSettings) as [[|]|]; cbn;
      split; try discriminate; intuition congruence.
  - destruct previous_status as [p|]; cbn.
    + destruct (String.eqb_spec p "down") as [Ep|Ep];
        destruct (as_notify_on_up alertSettings) as [[|]|]; cbn;
        split; try discriminate; intuition congruence.
    + split; [discriminate | intuition congruence].
  - cbn. split; [discriminate | intuition congruence].
Qed.

(* ================================================================== *)
(** * Further properties of the workers *)
(* ================================================================== *)

(* ================================================================== *)
(** ** Printing and parsing status codes *)
(* ================================================================== *)

Module Digits.

(** The characters ['0'] to ['9']. *)
Definition isDigit (c : ascii) : bool :=
  let n := Z.of_nat (nat_of_ascii c) in (48 <=? n) && (n <=? 57).

Fixpoint allDigits (s : string) : bool :=
  match s with
  | EmptyString => true
  | String c rest => isDigit c && allDigits rest
  end.

(** The number a run of decimal digits denotes after the digits [a]. *)
Fixpoint valueFrom (d : Decimal.uint) (a : Z) : Z :=
  match d with
  | Decimal.Nil => a
  | Decimal.D0 l => valueFrom l (10 * a)
  | Decimal.D1 l => valueFrom l (10 * a + 1)
  | Decimal.D2 l => valueFrom l (10 * a + 2)
  | Decimal.D3 l => valueFrom l (10 * a + 3)
  | Decimal.D4 l => valueFrom l (10 * a + 4)
  | Decimal.D5 l => valueFrom l (10 * a + 5)
  | Decimal.D6 l => valueFrom l (10 * a + 6)
  | Decimal.D7 l => valueFrom l (10 * a + 7)
  | Decimal.D8 l => valueFrom l (10 * a + 8)
  | Decimal.D9 l => valueFrom l (10 * a + 9)
  end.

Lemma allDigits_uint (d : Decimal.uint) : allDigits (NilEmpty.string_of_uint d) = true.
Proof. induction d; cbn [NilEmpty.string_of_uint allDigits]; auto. Qed.

Lemma parseDigits_some (d : Decimal.uint) (a : Z) :
  JS.parseDigits 10 (NilEmpty.string_of_uint d) (Some a) = Some (valueFrom d a).
Proof.
  revert a. induction d; intros a; cbn [NilEmpty.string_of_uint JS.parseDigits valueFrom];
    [reflexivity | ..];
    (match goal with
     | |- context [JS.digitValue 10 ?c] =>
         let v := eval vm_compute in (JS.digitValue 10 c) in
         change (JS.digitValue 10 c) with v
     end; cbv iota beta; rewrite IHd; f_equal; f_equal; lia).
Qed.

Lemma parseDigits_none (d : Decimal.uint) :
  d <> Decimal.Nil ->
  JS.parseDigits 10 (NilEmpty.string_of_uint d) None = Some (valueFrom d 0).
Proof.
  destruct d; intros N; [congruence | ..];
    cbn [NilEmpty.string_of_uint JS.parseDigits valueFrom];
    (match goal with
     | |- context [JS.digitValue 10 ?c] =>
         let v := eval vm_compute in (JS.digitValue 10 c) in
         change (JS.digitValue 10 c) with v
     end; cbv iota beta; rewrite parseDigits_some; reflexivity).
Qed.

Lemma of_uint_acc_value (d : Decimal.uint) (p : positive) :
  Z.pos (Pos.of_uint_acc d p) = valueFrom d (Z.pos p).
Proof.
  revert p. induction d; intros p; cbn [Pos.of_uint_acc valueFrom];
    [reflexivity | ..]; rewrite IHd; f_equal; lia.
Qed.

Lemma of_uint_value (d : Decimal.uint) : Z.of_N (Pos.of_uint d) = valueFrom d 0.
Proof.
  induction d; cbn [Pos.of_uint valueFrom]; [reflexivity | exact IHd | ..];
    cbn [Z.of_N]; rewrite of_uint_acc_value; reflexivity.
Qed.

Lemma to_uint_not_nil (p : positive) : Pos.to_uint p <> Decimal.Nil.
Proof.
  intros E. pose proof (DecimalPos.Unsigned.of_to p) as H.
  rewrite E in H. discriminate.
Qed.

Lemma value_to_uint (p : positive) : valueFrom (Pos.to_uint p) 0 = Z.pos p.
Proof.
  rewrite <- of_uint_value, DecimalPos.Unsigned.of_to. reflexivity.
Qed.

(** What [toString] prints for a number that is not negative. *)
Definition unsignedText (z : Z) : Decimal.uint :=
  match z with
  | Z.pos p => Pos.to_uint p
  | _ => Decimal.D0 Decimal.Nil
  end.

Lemma toString_unsigned (z : Z) :
  0 <= z -> JS.toString z = NilEmpty.string_of_uint (unsignedText z).
Proof.
  intros H. destruct z as [|p|p]; [reflexivity | | lia].
  unfold JS.toString. cbn [Z.to_int NilZero.string_of_int unsignedText].
  unfold NilZero.string_of_uint. pose proof (to_uint_not_nil p).
  destruct (Pos.to_uint p); [congruence | reflexivity ..].
Qed.

Lemma unsignedText_value (z : Z) :
  0 <= z -> unsignedText z <> Decimal.Nil /\ valueFrom (unsignedText z) 0 = z.
Proof.
  intros H. destruct z as [|p|p]; [split; [discriminate | reflexivity] | | lia].
  split; [apply to_uint_not_nil | apply value_to_uint].
Qed.

(** [parseInt] on a run of digits reads all of it in base ten. *)
Lemma parseInt_digits (d : Decimal.uint) :
  d <> Decimal.Nil ->
  JS.parseInt (NilEmpty.string_of_uint d) = Some (valueFrom d 0).
Proof.
  intros N.
  assert (E : JS.parseInt (NilEmpty.string_of_uint d)
              = match JS.parseDigits 10 (NilEmpty.string_of_uint d) None with
                | Some v => Some (1 * v)
                | None => None
                end).
  { destruct d as [|d|d|d|d|d|d|d|d|d|d]; [congruence | | reflexivity ..].
    destruct d; reflexivity. }
  rewrite E, (parseDigits_none d N). f_equal. lia.
Qed.

End Digits.

(** [parseInt] reads back what the template literal printed, for every
    integer. *)
Theorem parseInt_toString (z : Z) : JS.parseInt (JS.toString z) = Some z.
Proof.
  destruct z as [|p|p].
  - reflexivity.
  - rewrite (Digits.toString_unsigned (Z.pos p)) by lia.
    destruct (Digits.unsignedText_value (Z.pos p)) as [N V]; [lia|].
    now rewrite (Digits.parseInt_digits _ N), V.
  - unfold JS.toString. cbn [Z.to_int NilZero.string_of_int].
    pose proof (Digits.to_uint_not_nil p) as N.
    assert (E : NilZero.string_of_uint (Pos.to_uint p)
                = NilEmpty.string_of_uint (Pos.to_uint p))
      by (unfold NilZero.string_of_uint; destruct (Pos.to_uint p);
          [congruence | reflexivity ..]).
    rewrite E.
    assert (P : JS.parseInt (String "-" (NilEmpty.string_of_uint (Pos.to_uint p)))
                = match JS.parseDigits 10 (NilEmpty.string_of_uint (Pos.to_uint p)) None with
                  | Some v => Some (-1 * v)
                  | None => None
                  end).
    { destruct (Pos.to_uint p) as [|d|d|d|d|d|d|d|d|d|d]; [congruence | | reflexivity ..].
      destruct d; reflexivity. }
    rewrite P, (Digits.parseDigits_none _ N), Digits.value_to_uint. f_equal.
Qed.

Module DigitText.

Import Digits.

Lemma digit_not_space (c : ascii) : isDigit c = true -> JS.isWhiteSpace c = false.
Proof.
  unfold isDigit, JS.isWhiteSpace. cbv zeta.
  generalize (Z.of_nat (nat_of_ascii c)). intros n H.
  apply andb_true_iff in H. destruct H as [H1 H2].
  apply Z.leb_le in H1. apply Z.leb_le in H2.
  apply orb_false_iff. split.
  - apply andb_false_iff. right. apply Z.leb_gt. lia.
  - apply Z.eqb_neq. lia.
Qed.

Lemma digit_differs (c sep : ascii) :
  isDigit c = true -> isDigit sep = false -> Ascii.eqb c sep = false.
Proof.
  intros Hc Hs. destruct (Ascii.eqb_spec c sep) as [E|E]; [|reflexivity].
  subst. congruence.
Qed.

Lemma split_digits (sep : ascii) (s : string) :
  allDigits s = true -> isDigit sep = false -> JS.split sep s = [s].
Proof.
  intros H Hs. induction s as [|c s IH]; [reflexivity|].
  cbn [allDigits] in H. apply andb_true_iff in H. destruct H as [Hc H].
  cbn [JS.split]. rewrite (digit_differs c sep Hc Hs), (IH H). reflexivity.
Qed.

Lemma split_digits_then (sep : ascii) (pre post : string) :
  allDigits pre = true -> isDigit sep = false ->
  JS.split sep (pre ^^ String sep post) = pre :: JS.split sep post.
Proof.
  intros H Hs. induction pre as [|c pre IH].
  - cbn [String.append JS.split]. now rewrite Ascii.eqb_refl.
  - cbn [allDigits] in H. apply andb_true_iff in H. destruct H as [Hc H].
    cbn [String.append JS.split]. rewrite (digit_differs c sep Hc Hs), (IH H).
    reflexivity.
Qed.

Lemma no_dash_in_digits (s : string) :
  allDigits s = true -> JS.includes "-" s = false.
Proof.
  intros H. induction s as [|c s IH]; [reflexivity|].
  cbn [allDigits] in H. apply andb_true_iff in H. destruct H as [Hc H].
  cbn [JS.includes prefix]. rewrite (IH H), orb_false_r.
  destruct (ascii_dec "-" c) as [E|E]; [|reflexivity].
  subst c. discriminate.
Qed.

Lemma trimEnd_digits (s : string) : allDigits s = true -> JS.trimEnd s = s.
Proof.
  intros H. induction s as [|c s IH]; [reflexivity|].
  cbn [allDigits] in H. apply andb_true_iff in H. destruct H as [Hc H].
  cbn [JS.trimEnd]. rewrite (IH H), (digit_not_space c Hc).
  now destruct s.
Qed.

Lemma trim_digits (s : string) : allDigits s = true -> JS.trim s = s.
Proof.
  intros H. unfold JS.trim.
  assert (E : JS.trimStart s = s).
  { destruct s as [|c s]; [reflexivity|].
    cbn [allDigits] in H. apply andb_true_iff in H. destruct H as [Hc _].
    cbn [JS.trimStart]. now rewrite (digit_not_space c Hc). }
  rewrite E. now apply trimEnd_digits.
Qed.

(** The printed form of a number that is not negative: digits only, not
    empty, and read back by [parseInt] after trimming. *)
Lemma printed (z : Z) :
  0 <= z ->
  allDigits (JS.toString z) = true
  /\ JS.toString z <> ""
  /\ JS.parseInt (JS.trim (JS.toString z)) = Some z.
Proof.
  intros H. split; [|split].
  - rewrite (toString_unsigned z H). apply allDigits_uint.
  - rewrite (toString_unsigned z H).
    destruct (unsignedText_value z H) as [N _].
    destruct (unsignedText z); [congruence | discriminate ..].
  - rewrite trim_digits.
    + destruct z; try lia; apply parseInt_toString.
    + rewrite (toString_unsigned z H). apply allDigits_uint.
Qed.

End DigitText.

Lemma arrayIncludes_codesFromTo (lo hi c : Z) :
  JS.arrayIncludes (codesFromTo lo hi) c = true <-> lo <= c <= hi.
Proof.
  unfold JS.arrayIncludes, codesFromTo. rewrite existsb_exists. split.
  - intros (x & Hin & Hx). apply in_map_iff in Hin. destruct Hin as (k & <- & Hk).
    apply in_seq in Hk. apply Z.eqb_eq in Hx. lia.
  - intros H. exists (Some c). split; [|apply Z.eqb_refl].
    apply in_map_iff. exists (Z.to_nat (c - lo)). split; [f_equal; lia|].
    apply in_seq. lia.
Qed.

Lemma parseStatusCodes_nonempty (s : string) :
  s <> "" -> parseStatusCodes (Some s) = flat_map parsePart (JS.split "," s).
Proof. intros N. destruct s; [congruence | reflexivity]. Qed.

Lemma printed_single (n : Z) :
  0 <= n -> parseStatusCodes (Some (JS.toString n)) = [Some n].
Proof.
  intros Hn. destruct (DigitText.printed n Hn) as (Dn & Nn & Pn).
  rewrite (parseStatusCodes_nonempty _ Nn).
  rewrite (DigitText.split_digits "," _ Dn eq_refl).
  cbn [flat_map]. unfold parsePart.
  rewrite (DigitText.no_dash_in_digits _ Dn), Pn. reflexivity.
Qed.

Lemma printed_range (lo hi : Z) :
  0 <= lo -> 0 <= hi ->
  parseStatusCodes (Some (JS.toString lo ^^ "-" ^^ JS.toString hi))
  = codesFromTo lo hi.
Proof.
  intros Hlo Hhi.
  destruct (DigitText.printed lo Hlo) as (Dlo & Nlo & Plo).
  destruct (DigitText.printed hi Hhi) as (Dhi & _ & Phi).
  set (text := JS.toString lo ^^ "-" ^^ JS.toString hi).
  assert (Ntext : text <> "").
  { unfold text. destruct (JS.toString lo); [congruence | discriminate]. }
  rewrite (parseStatusCodes_nonempty _ Ntext).
  assert (Hsplit : JS.split "," text = [text]).
  { unfold text. change ("-" ^^ JS.toString hi) with (String "-" (JS.toString hi)).
    generalize (JS.toString hi) Dhi. generalize (JS.toString lo) Dlo.
    intros a Da b Db. induction a as [|x a IH].
    - cbn [String.append JS.split]. change (Ascii.eqb "-" ",") with false.
      cbv iota. now rewrite (DigitText.split_digits "," b Db eq_refl).
    - cbn [Digits.allDigits] in Da. apply andb_true_iff in Da. destruct Da as [Hx Da].
      cbn [String.append JS.split].
      rewrite (DigitText.digit_differs x "," Hx eq_refl), (IH Da). reflexivity. }
  rewrite Hsplit. cbn [flat_map]. rewrite app_nil_r. unfold parsePart.
  assert (Hinc : JS.includes "-" text = true).
  { unfold text. rewrite <- (append_empty_r (JS.toString hi)) at 1.
    change (JS.toString lo ^^ "-" ^^ JS.toString hi ^^ "")
      with (JS.toString lo ^^ "-" ^^ (JS.toString hi ^^ "")).
    apply (includes_append "-" (JS.toString lo) (JS.toString hi ^^ "")). }
  rewrite Hinc. unfold text.
  change ("-" ^^ JS.toString hi) with (String "-" (JS.toString hi)).
  rewrite (DigitText.split_digits_then "-" _ _ Dlo eq_refl).
  rewrite (DigitText.split_digits "-" _ Dhi eq_refl).
  cbn [map]. rewrite Plo, Phi. reflexivity.
Qed.

(** The status codes of HTTP have three digits.  Up to this bound the
    numbers [parseInt] reads and the loop of a range pushes are exact, and a
    range has at most a thousand codes. *)
Definition maxStatusCode : Z := 999.

(** X1. An expression printed as one code [n], or as a range [lo-hi] of two
    codes, all of them from 0 to 999, parses to exactly that code,
    respectively to the codes from [lo] to [hi] in order; a range whose
    bounds are the wrong way round holds no code at all. *)
Theorem parseStatusCodes_printed (n lo hi : Z) :
  0 <= n <= maxStatusCode -> 0 <= lo <= maxStatusCode -> 0 <= hi <= maxStatusCode ->
  parseStatusCodes (Some (JS.toString n)) = [Some n]
  /\ parseStatusCodes (Some (JS.toString lo ^^ "-" ^^ JS.toString hi))
     = codesFromTo lo hi
  /\ (forall c,
        JS.arrayIncludes
          (parseStatusCodes (Some (JS.toString lo ^^ "-" ^^ JS.toString hi))) c = true
        <-> lo <= c <= hi)
  /\ (hi < lo ->
      parseStatusCodes (Some (JS.toString lo ^^ "-" ^^ JS.toString hi)) = []).
Proof.
  intros [Hn _] [Hlo _] [Hhi _].
  split; [now apply printed_single|]. split; [now apply printed_range|]. split.
  - intros c. rewrite (printed_range lo hi Hlo Hhi). apply arrayIncludes_codesFromTo.
  - intros H. rewrite (printed_range lo hi Hlo Hhi). unfold codesFromTo.
    replace (Z.to_nat (hi - lo + 1)) with 0%nat by lia. reflexivity.
Qed.

Lemma parseStatusCodes_printed_witness :
  parseStatusCodes (Some (JS.toString 200 ^^ "-" ^^ JS.toString 204))
  = codesFromTo 200 204.
Proof.
  exact (proj1 (proj2 (parseStatusCodes_printed 301 200 204
                         ltac:(unfold maxStatusCode; lia)
                         ltac:(unfold maxStatusCode; lia)
                         ltac:(unfold maxStatusCode; lia)))).
Defined.

(** X2. An HTTP monitor whose expected codes are printed as [lo-hi], both
    from 0 to 999, is ['up'] exactly for an answer with a code from [lo] to
    [hi], and ['down'] for any other answer; with the bounds the wrong way
    round no answer is ['up']. *)
Theorem checkHTTP_expected_range (monitor : Monitor) (w : World)
    (code lo hi : Z) (text : string) :
  0 <= lo <= maxStatusCode -> 0 <= hi <= maxStatusCode ->
  expected_status_codes monitor = Some (JS.toString lo ^^ "-" ^^ JS.toString hi) ->
  setup_error w = None ->
  fetched w = Responds code text ->
  exists r,
    checkHTTP monitor w = Returns r
    /\ (status r = "up" <-> lo <= code <= hi)
    /\ (status r = "down" <-> ~ lo <= code <= hi).
Proof.
  intros [Hlo _] [Hhi _] He Hs Hf.
  destruct (checkHTTP_classifies_response monitor w code text Hs Hf)
    as (r & E & _ & Hup & _ & Hdown).
  exists r. split; [exact E|].
  rewrite He, (printed_range lo hi Hlo Hhi), arrayIncludes_codesFromTo in Hup.
  split; [exact Hup|]. split.
  - intros D N. apply Hup in N. congruence.
  - intros N. apply Hdown. intros U. apply N. now apply Hup.
Qed.

Lemma checkHTTP_expected_range_witness :
  exists r,
    checkHTTP httpMonitor (cycleAt 0 (Responds 404 "")) = Returns r
    /\ (status r = "up" <-> 200 <= 404 <= 299)
    /\ (status r = "down" <-> ~ 200 <= 404 <= 299).
Proof.
  exact (checkHTTP_expected_range httpMonitor (cycleAt 0 (Responds 404 ""))
           404 200 299 "" ltac:(unfold maxStatusCode; lia)
           ltac:(unfold maxStatusCode; lia) eq_refl eq_refl eq_refl).
Defined.

(* ================================================================== *)
(** ** What a monitoring cycle leaves behind *)
(* ================================================================== *)

Lemma checkHTTP_status (monitor : Monitor) (w : World) (r : CheckResult) :
  checkHTTP monitor w = Returns r -> validStatus (status r).
Proof.
  unfold checkHTTP, validStatus. destruct (setup_error w); [discriminate|].
  destruct (fetched w).
  - destruct (JS.arrayIncludes _ code); intros E; injection E as <-; cbn; auto.
  - intros E; injection E as <-; cbn; auto.
Qed.

Lemma checkKeyword_status (monitor : Monitor) (w : World) (r : CheckResult) :
  checkKeyword monitor w = Returns r -> validStatus (status r).
Proof.
  unfold checkKeyword. destruct (checkHTTP monitor w) as [h|] eqn:H; [|discriminate].
  apply checkHTTP_status in H.
  destruct (negb (isUp (status h))); [intros E; injection E as <-; exact H|].
  unfold validStatus. destruct (refetched w).
  - match goal with |- context [if ?b then "up" else "down"] => destruct b end;
      intros E; injection E as <-; cbn; auto.
  - intros E; injection E as <-; cbn; auto.
Qed.

Lemma probe_status (monitor : Monitor) (w : World) (env : Env) (r : CheckResult) :
  probe monitor w env = Returns r -> validStatus (status r).
Proof.
  unfold probe.
  destruct (_ || _); [apply checkHTTP_status|].
  destruct (String.eqb (type monitor) "ping").
  { unfold checkPing, validStatus. destruct (fetched w);
      intros E; injection E as <-; cbn; auto. }
  destruct (String.eqb (type monitor) "port").
  { unfold checkPort, validStatus. destruct (socket_error w);
      intros E; injection E as <-; cbn; auto. }
  destruct (String.eqb (type monitor) "keyword"); [apply checkKeyword_status|].
  destruct (String.eqb (type monitor) "ssl").
  { unfold checkSSL, validStatus. destruct (fetched w);
      intros E; injection E as <-; cbn; auto. }
  destruct (String.eqb (type monitor) "heartbeat"); [|discriminate].
  unfold checkHeartbeat, validStatus.
  destruct (kv_get _ _) as [[[t|]|]|];
    try (intros E; injection E as <-; cbn; auto).
  destruct (Qle_bool _ _); cbn; auto.
Qed.

(** X3. Whatever the type of the monitor and whatever the outside world
    answers, the result of a cycle carries one of the four statuses the
    [monitor_checks] table admits. *)
Theorem runMonitoringCheck_status_valid (monitor : Monitor) (w : World) (env : Env) :
  validStatus (status (snd (runMonitoringCheck monitor w env))).
Proof.
  unfold runMonitoringCheck. destruct (probe monitor w env) as [r|m] eqn:E.
  - cbn [snd]. exact (probe_status _ _ _ _ E).
  - cbn. unfold validStatus. auto.
Qed.

(** X4. A cycle appends exactly one row to [monitor_checks] and rewrites no
    earlier row: the new row belongs to the monitor, repeats the status, the
    message and the time of the result that is returned, and gets a key
    above every key in the table. *)
Theorem runMonitoringCheck_appends_one_row (monitor : Monitor) (w : World) (env : Env) :
  exists row,
    monitor_checks (DB (fst (runMonitoringCheck monitor w env)))
    = monitor_checks (DB env) ++ [row]
    /\ chk_monitor_id row = id monitor
    /\ chk_status row = status (snd (runMonitoringCheck monitor w env))
    /\ chk_error_message row = error_message (snd (runMonitoringCheck monitor w env))
    /\ chk_checked_at row = checked_at (snd (runMonitoringCheck monitor w env))
    /\ Forall (fun r => chk_id r < chk_id row) (monitor_checks (DB env)).
Proof.
  assert (Fresh : forall row,
             chk_id row = nextId (map chk_id (monitor_checks (DB env))) ->
             Forall (fun r => chk_id r < chk_id row) (monitor_checks (DB env))).
  { intros row Hid. apply Forall_forall. intros r Hr. rewrite Hid.
    pose proof (nextId_above (map chk_id (monitor_checks (DB env)))) as F.
    rewrite Forall_forall in F. apply F. now apply in_map. }
  unfold runMonitoringCheck. destruct (probe monitor w env) as [r|m]; cbn [fst snd].
  - destruct (saveCheckResult_checks (id monitor) r (saveTime w) env)
      as (row & E & Hid & Hm & Hs & He & _ & Ht).
    exists row. rewrite handleStatusChange_checks. repeat split; auto.
  - destruct (saveCheckResult_checks (id monitor)
                {| status := "error"; response_time_ms := None; status_code := None;
                   error_message := Some m; checked_at := stampTime w;
                   region := "unknown"; ssl_days_remaining := None;
                   keyword_found := None |} (saveTime w) env)
      as (row & E & Hid & Hm & Hs & He & _ & Ht).
    exists row. repeat split; auto.
Qed.

(** X5. A keyword monitor of kind ['exists'] whose page answers with an
    expected code but lacks the keyword: the result is ['down'] with
    [keyword_found = false] and a message naming the keyword, yet the row
    that is stored has [keyword_found] [NULL], as [false || null] is bound. *)
Theorem keyword_absent_is_stored_as_null (monitor : Monitor) (w : World) (env : Env)
    (code code' : Z) (text body : string) :
  type monitor = "keyword" ->
  JS.strOr (keyword_type monitor) "exists" = "exists" ->
  setup_error w = None ->
  fetched w = Responds code text ->
  JS.arrayIncludes (parseStatusCodes (expected_status_codes monitor)) code = true ->
  refetched w = Responds code' body ->
  JS.includes (keyword monitor) body = false ->
  let result := snd (runMonitoringCheck monitor w env) in
  status result = "down"
  /\ keyword_found result = Some false
  /\ error_message result
     = Some ("Keyword " ^^ dquote ^^ keyword monitor ^^ dquote ^^ " not found")
  /\ exists row,
       monitor_checks (DB (fst (runMonitoringCheck monitor w env)))
       = monitor_checks (DB env) ++ [row]
       /\ chk_status row = "down"
       /\ chk_keyword_found row = None.
Proof.
  intros Ht Hk Hs Hf Hin Hr Hb result.
  assert (P : probe monitor w env
              = Returns {|
                  status := "down";
                  response_time_ms := Some (responseTime w);
                  status_code := Some code;
                  error_message :=
                    Some ("Keyword " ^^ dquote ^^ keyword monitor ^^ dquote
                          ^^ " " ^^ "not found");
                  checked_at := stampTime w;
                  region := getRegion;
                  ssl_days_remaining := None;
                  keyword_found := Some false |}).
  { unfold probe. rewrite Ht. cbn [String.eqb Ascii.eqb Bool.eqb orb andb].
    unfold checkKeyword, checkHTTP. rewrite Hs, Hf, Hin. cbn [status isUp negb].
    cbn [String.eqb Ascii.eqb Bool.eqb negb]. rewrite Hr, Hk, Hb.
    cbn [String.eqb Ascii.eqb Bool.eqb]. reflexivity. }
  unfold result. rewrite (runMonitoringCheck_returned _ _ _ _ P). cbn [fst snd].
  split; [reflexivity|]. split; [reflexivity|]. split; [reflexivity|].
  eexists. unfold recordResult. rewrite handleStatusChange_checks.
  cbn [saveCheckResult DB setDB updateDailyStats setStats setChecks monitor_checks].
  split; [reflexivity|]. split; reflexivity.
Qed.

Definition keywordMonitor : Monitor :=
  {| id := 2; name := "landing"; type := "keyword";
     url := Some "https://example.org/"; hostname := None; port := None;
     keyword := "Welcome"; keyword_type := Some "exists";
     interval_seconds := 300; timeout_seconds := 30;
     expected_status_codes := Some "200-299";
     is_active := Some 1;
     uptime_30d := None; uptime_7d := None;
     avg_response_time_30d := None; stats_updated_at := None |}.

Lemma keyword_absent_is_stored_as_null_witness :
  status (snd (runMonitoringCheck keywordMonitor
                 (cycleAt 0 (Responds 200 "Under maintenance")) emptyEnv)) = "down".
Proof.
  exact (proj1 (keyword_absent_is_stored_as_null keywordMonitor
                  (cycleAt 0 (Responds 200 "Under maintenance")) emptyEnv
                  200 200 "Under maintenance" "Under maintenance"
                  eq_refl eq_refl eq_refl eq_refl eq_refl eq_refl eq_refl)).
Defined.

(* ================================================================== *)
(** ** The heartbeat probe *)
(* ================================================================== *)

Lemma seconds_within (d i : Z) :
  Qle_bool (inject_Z d / 1000)%Q (inject_Z (i * 2)) = true <-> d <= 2000 * i.
Proof.
  rewrite Qle_bool_iff. unfold Qle, Qdiv, Qmult, Qinv, inject_Z.
  cbn -[Z.mul]. lia.
Qed.

Lemma round_seconds_back (d : Z) :
  JS.Math_round (inject_Z d / 1000 * 1000)%Q = d.
Proof.
  unfold JS.Math_round, Qfloor, Qplus, Qdiv, Qmult, Qinv, inject_Z.
  cbn -[Z.mul Z.div]. symmetry. apply Z.div_unique with (r := 1000); lia.
Qed.

(** X6. A heartbeat monitor is ['up'] exactly when the last heartbeat is at
    most twice the interval old (the bound included), and it reports the age
    of the heartbeat in milliseconds as response time; when it is older the
    result is ['down'] with an overdue message, and with no heartbeat on
    record it is ['down'] with "No heartbeat received". *)
Theorem checkHeartbeat_threshold (monitor : Monitor) (w : World) (env : Env) :
  (forall t,
      kv_get (HeartbeatKey (id monitor)) (UPTIME_MONITOR_KV env)
      = Some (HeartbeatAt (Some t)) ->
      exists r,
        checkHeartbeat monitor w env = Returns r
        /\ (status r = "up" <-> stampTime w - t <= 2000 * interval_seconds monitor)
        /\ (status r = "down" <-> 2000 * interval_seconds monitor < stampTime w - t)
        /\ (status r = "up" -> error_message r = None)
        /\ (status r = "down" -> exists msg, error_message r = Some msg
                                              /\ prefix "Heartbeat overdue by " msg = true)
        /\ response_time_ms r = Some (stampTime w - t))
  /\ (kv_get (HeartbeatKey (id monitor)) (UPTIME_MONITOR_KV env) = None ->
      exists r,
        checkHeartbeat monitor w env = Returns r
        /\ status r = "down"
        /\ error_message r = Some "No heartbeat received").
Proof.
  split.
  - intros t H. unfold checkHeartbeat. rewrite H.
    pose proof (seconds_within (stampTime w - t) (interval_seconds monitor)) as S.
    destruct (Qle_bool _ _) eqn:E; eexists; (split; [reflexivity|]);
      cbn [status error_message response_time_ms]; rewrite round_seconds_back.
    + assert (L : stampTime w - t <= 2000 * interval_seconds monitor) by now apply S.
      repeat split; auto; try discriminate; intros; lia.
    + assert (L : ~ stampTime w - t <= 2000 * interval_seconds monitor)
        by (intros L; apply S in L; discriminate).
      repeat split; auto; try discriminate; try (intros; lia).
      intros _. eexists. split; [reflexivity|]. apply prefix_append.
  - intros H. unfold checkHeartbeat. rewrite H. eexists. repeat split.
Qed.

Lemma checkHeartbeat_threshold_witness :
  exists r,
    checkHeartbeat httpMonitor (cycleAt 600000 timedOut)
      {| DB := emptyDB;
         UPTIME_MONITOR_KV := [(HeartbeatKey 1, HeartbeatAt (Some 121))] |}
    = Returns r
    /\ status r = "up".
Proof.
  destruct (proj1 (checkHeartbeat_threshold httpMonitor (cycleAt 600000 timedOut)
                     {| DB := emptyDB;
                        UPTIME_MONITOR_KV := [(HeartbeatKey 1, HeartbeatAt (Some 121))] |})
              121 eq_refl) as (r & E & Hup & _).
  exists r. split; [exact E|]. apply Hup. cbn. lia.
Defined.

(* ================================================================== *)
(** ** Transitions: what they touch and what they leave alone *)
(* ================================================================== *)

Lemma filter_mapWhere_untouched {A} (q p : A -> bool) (f : A -> A) (l : list A) :
  (forall x, p x = true -> q x = false /\ q (f x) = false) ->
  filter q (mapWhere p f l) = filter q l.
Proof.
  intros H. unfold mapWhere. induction l as [|x l IH]; [reflexivity|].
  cbn [map filter]. destruct (p x) eqn:E.
  - destruct (H x E) as [-> ->]. exact IH.
  - destruct (q x); now rewrite IH.
Qed.

Lemma queueAll_heartbeats (monitor : Monitor) (currentStatus lastStatus : string)
    (now k : Z) (contacts : list ContactRow) (kv : KV) :
  kv_get (HeartbeatKey k) (queueAll monitor currentStatus lastStatus now contacts kv)
  = kv_get (HeartbeatKey k) kv.
Proof.
  revert kv. induction contacts as [|r l IH]; intros kv; [reflexivity|].
  unfold queueAll in *. cbn [fold_left]. rewrite IH. unfold queueOne.
  destruct (shouldNotify currentStatus lastStatus r); [|reflexivity].
  apply kv_get_put_other. discriminate.
Qed.

Lemma handleStatusChange_stats (monitor : Monitor) (result : CheckResult) (now : Z) (env : Env) :
  uptime_stats (DB (handleStatusChange monitor result now env)) = uptime_stats (DB env).
Proof.
  unfold handleStatusChange.
  destruct (negb _); [|reflexivity].
  destruct (isDownish _); [reflexivity|].
  destruct (_ && _); reflexivity.
Qed.

Lemma handleStatusChange_heartbeats (monitor : Monitor) (result : CheckResult)
    (now k : Z) (env : Env) :
  kv_get (HeartbeatKey k) (UPTIME_MONITOR_KV (handleStatusChange monitor result now env))
  = kv_get (HeartbeatKey k) (UPTIME_MONITOR_KV env).
Proof.
  unfold handleStatusChange.
  destruct (negb _); [|reflexivity].
  unfold queueNotifications. cbn [UPTIME_MONITOR_KV setKV].
  match goal with
  | |- kv_get _ (fold_left (queueOne ?m ?c ?l ?n) ?cs ?kv) = _ =>
      change (fold_left (queueOne m c l n) cs kv) with (queueAll m c l n cs kv)
  end.
  rewrite queueAll_heartbeats.
  destruct (isDownish _); [reflexivity|].
  destruct (_ && _); reflexivity.
Qed.

Lemma updateDailyStats_other_monitor (monitorId other : Z) (result : CheckResult)
    (now : Z) (db : Database) :
  other <> monitorId ->
  filter (fun r => st_monitor_id r =? other) (uptime_stats (updateDailyStats monitorId result now db))
  = filter (fun r => st_monitor_id r =? other) (uptime_stats db).
Proof.
  intros N.
  assert (Kq : forall d x, statKey monitorId d x = true -> (st_monitor_id x =? other) = false).
  { intros d x Hx. unfold statKey in Hx. apply andb_true_iff in Hx.
    destruct Hx as [Hx _]. apply Z.eqb_eq in Hx. apply Z.eqb_neq. lia. }
  unfold updateDailyStats. cbn [uptime_stats setStats].
  set (today := dateOf now).
  set (upserted := if existsb (statKey monitorId today) (uptime_stats db) then _ else _).
  assert (U : filter (fun r => st_monitor_id r =? other) upserted
              = filter (fun r => st_monitor_id r =? other) (uptime_stats db)).
  { unfold upserted. destruct (existsb _ _).
    - apply filter_mapWhere_untouched. intros x Hx. split; [exact (Kq _ _ Hx)|].
      cbn. exact (Kq _ _ Hx).
    - rewrite filter_app. cbn [filter upsertInsert st_monitor_id].
      replace (monitorId =? other) with false by (symmetry; apply Z.eqb_neq; lia).
      apply app_nil_r. }
  destruct (find _ upserted); [|exact U].
  rewrite filter_mapWhere_untouched; [exact U|].
  intros x Hx. split; [exact (Kq _ _ Hx)|]. cbn. exact (Kq _ _ Hx).
Qed.

(** X7. A cycle recorded for one monitor leaves every other monitor alone:
    its check rows, its incidents, its daily statistics and every heartbeat
    are what they were. *)
Theorem recordResult_other_monitors (monitor : Monitor) (result : CheckResult)
    (saveT handleT : Z) (env : Env) (other : Z) :
  other <> id monitor ->
  let env' := recordResult monitor result saveT handleT env in
  history other (monitor_checks (DB env')) = history other (monitor_checks (DB env))
  /\ incidentsOf other (incidents (DB env')) = incidentsOf other (incidents (DB env))
  /\ filter (fun r => st_monitor_id r =? other) (uptime_stats (DB env'))
     = filter (fun r => st_monitor_id r =? other) (uptime_stats (DB env))
  /\ forall k, kv_get (HeartbeatKey k) (UPTIME_MONITOR_KV env')
               = kv_get (HeartbeatKey k) (UPTIME_MONITOR_KV env).
Proof.
  intros N env'. unfold env', recordResult.
  assert (Ne : (id monitor =? other) = false) by (apply Z.eqb_neq; lia).
  split; [|split; [|split]].
  - rewrite handleStatusChange_checks.
    destruct (saveCheckResult_checks (id monitor) result saveT env)
      as (row & E & _ & Hm & _).
    rewrite E. unfold history. rewrite filter_app. cbn [filter].
    rewrite Hm, Ne. apply app_nil_r.
  - rewrite handleStatusChange_incidents, saveCheckResult_incidents.
    unfold incidentsAfter. destruct (String.eqb _ _); [reflexivity|].
    destruct (isDownish _).
    + rewrite incidentsOf_app. unfold incidentsOf at 2. cbn [filter opened inc_monitor_id].
      rewrite Ne. apply app_nil_r.
    + destruct (_ && _); [|reflexivity].
      unfold incidentsOf. apply filter_mapWhere_untouched.
      intros x Hx. unfold isOpen in Hx. apply andb_true_iff in Hx.
      destruct Hx as [Hx _]. apply Z.eqb_eq in Hx. cbn [resolved inc_monitor_id].
      rewrite Hx. now split.
  - rewrite handleStatusChange_stats.
    cbn [saveCheckResult DB setDB].
    rewrite updateDailyStats_other_monitor by exact N. reflexivity.
  - intros k. rewrite handleStatusChange_heartbeats. reflexivity.
Qed.

Lemma recordResult_other_monitors_witness :
  incidentsOf 2
    (incidents (DB (recordResult httpMonitor (sampleAt 0 "down" None) 1 2 emptyEnv)))
  = incidentsOf 2 (incidents (DB emptyEnv)).
Proof.
  exact (proj1 (proj2 (recordResult_other_monitors httpMonitor
                         (sampleAt 0 "down" None) 1 2 emptyEnv 2 ltac:(discriminate)))).
Defined.

Lemma lastStatus_after_save (monitor : Monitor) (result : CheckResult) (saveT : Z)
    (env : Env) :
  lastCheck (id monitor)
    (monitor_checks (DB (saveCheckResult (id monitor) result saveT env)))
  = latestByCheckedAt (history (id monitor) (monitor_checks (DB env))).
Proof.
  destruct (saveCheckResult_checks (id monitor) result saveT env)
    as (row & E & Hid & Hm & _).
  rewrite E. exact (lastCheck_snoc _ _ _ Hm Hid).
Qed.

(** X8. A result that repeats the status of the monitor's latest check is
    only recorded: the cycle ends in the state the save left, so no incident
    is opened or closed and nothing is queued. *)
Theorem repeated_status_only_records (monitor : Monitor) (result : CheckResult)
    (saveT handleT : Z) (env : Env) (p : CheckRow) :
  latestByCheckedAt (history (id monitor) (monitor_checks (DB env))) = Some p ->
  chk_status p = status result ->
  status result <> "" ->
  recordResult monitor result saveT handleT env
  = saveCheckResult (id monitor) result saveT env.
Proof.
  intros L S N. unfold recordResult, handleStatusChange.
  rewrite lastStatus_after_save, L. cbn [option_map]. rewrite S.
  assert (E : JS.strOr (Some (status result)) "unknown" = status result)
    by (destruct (status result); [congruence | reflexivity]).
  rewrite E, String.eqb_refl. reflexivity.
Qed.

Lemma repeated_status_only_records_witness :
  recordResult httpMonitor (sampleAt 300000 "down" None) 300001 300002
    (recordResult httpMonitor (sampleAt 0 "down" None) 1 2 emptyEnv)
  = saveCheckResult 1 (sampleAt 300000 "down" None) 300001
      (recordResult httpMonitor (sampleAt 0 "down" None) 1 2 emptyEnv).
Proof.
  apply (repeated_status_only_records httpMonitor (sampleAt 300000 "down" None)
           300001 300002
           (recordResult httpMonitor (sampleAt 0 "down" None) 1 2 emptyEnv)
           {| chk_id := 1; chk_monitor_id := 1; chk_status := "down";
              chk_response_time_ms := Some 120; chk_status_code := None;
              chk_error_message := None; chk_checked_at := 0;
              chk_region := getRegion; chk_ssl_days_remaining := None;
              chk_keyword_found := None |});
    [reflexivity | reflexivity | discriminate].
Defined.

(** X9. An ['up'] result that follows a ['down'], ['error'] or ['timeout']
    check closes every open incident of the monitor, however many there are:
    none is left with [resolved_at] [NULL]. *)
Theorem recovery_closes_every_open_incident (monitor : Monitor) (result : CheckResult)
    (saveT handleT : Z) (env : Env) (p : CheckRow) :
  latestByCheckedAt (history (id monitor) (monitor_checks (DB env))) = Some p ->
  isDownish (chk_status p) = true ->
  status result = "up" ->
  filter (isOpen (id monitor))
    (incidents (DB (recordResult monitor result saveT handleT env))) = [].
Proof.
  intros L D S. unfold recordResult.
  rewrite handleStatusChange_incidents, lastStatus_after_save, L,
    saveCheckResult_incidents.
  cbn [option_map]. unfold incidentsAfter. rewrite S.
  assert (E : JS.strOr (Some (chk_status p)) "unknown" = chk_status p)
    by (destruct (chk_status p); [discriminate | reflexivity]).
  rewrite E.
  destruct (String.eqb_spec (chk_status p) "up") as [U|U];
    [rewrite U in D; discriminate|].
  cbn [isDownish String.eqb Ascii.eqb Bool.eqb orb isUp andb]. rewrite D.
  apply openCount_resolved.
Qed.

Lemma recovery_closes_every_open_incident_witness :
  filter (isOpen 1)
    (incidents (DB (recordResult httpMonitor (sampleAt 600000 "up" None) 600001 600002
                      afterDownThenTimeout))) = [].
Proof.
  apply (recovery_closes_every_open_incident httpMonitor (sampleAt 600000 "up" None)
           600001 600002 afterDownThenTimeout
           {| chk_id := 2; chk_monitor_id := 1; chk_status := "timeout";
              chk_response_time_ms := Some 120; chk_status_code := None;
              chk_error_message := Some "Request timeout after 30s";
              chk_checked_at := 300121;
              chk_region := getRegion; chk_ssl_days_remaining := None;
              chk_keyword_found := None |});
    reflexivity.
Defined.

Lemma saveCheckResult_contacts (monitorId other : Z) (result : CheckResult) (now : Z) (env : Env) :
  contactsOf other (DB (saveCheckResult monitorId result now env))
  = contactsOf other (DB env).
Proof. reflexivity. Qed.

(** X10. The first result ever recorded for a monitor, when it is ['up'], is
    handled as a change from ['unknown']: a contact bound by one active row
    with [notify_on_up] set gets one queued event, whose previous status reads
    ['unknown'], although the monitor was never seen down. *)
Theorem first_up_is_announced (monitor : Monitor) (result : CheckResult)
    (saveT handleT : Z) (env : Env) (c : Z) (row : ContactRow) :
  history (id monitor) (monitor_checks (DB env)) = [] ->
  status result = "up" ->
  filter (fun r => c_id r =? c) (contactsOf (id monitor) (DB env)) = [row] ->
  JS.truthy (notify_on_up row) = true ->
  kv_get (NotificationKey handleT (id monitor) c) (UPTIME_MONITOR_KV env) = None ->
  queuedFor c (UPTIME_MONITOR_KV (recordResult monitor result saveT handleT env))
  = queuedFor c (UPTIME_MONITOR_KV env)
    ++ [(NotificationKey handleT (id monitor) c,
         eventFor monitor "up" "unknown" handleT row)].
Proof.
  intros Hh S Hf Hu Hfresh. unfold recordResult, handleStatusChange.
  rewrite lastStatus_after_save, Hh. cbn [latestByCheckedAt fold_left option_map JS.strOr].
  rewrite S. cbn [String.eqb Ascii.eqb Bool.eqb negb isDownish orb isUp andb].
  unfold queueNotifications. cbn [UPTIME_MONITOR_KV setKV].
  rewrite saveCheckResult_contacts.
  match goal with
  | |- queuedFor c (fold_left (queueOne ?m ?cu ?l ?n) ?cs ?kv) = _ =>
      change (fold_left (queueOne m cu l n) cs kv) with (queueAll m cu l n cs kv)
  end.
  rewrite (queueAll_single monitor "up" "unknown" handleT c _ row _ Hf)
    by (rewrite saveCheckResult_KV; exact Hfresh).
  rewrite saveCheckResult_KV.
  unfold shouldNotify. cbn [isUp String.eqb Ascii.eqb Bool.eqb negb andb].
  rewrite Hu. reflexivity.
Qed.

Lemma first_up_is_announced_witness :
  queuedFor 7
    (UPTIME_MONITOR_KV
       (recordResult httpMonitor (sampleAt 0 "up" None) 1 2
          {| DB := contactsDB; UPTIME_MONITOR_KV := [] |}))
  = [] ++ [(NotificationKey 2 1 7, eventFor httpMonitor "up" "unknown" 2 recoveryOnly)].
Proof.
  exact (first_up_is_announced httpMonitor (sampleAt 0 "up" None) 1 2
           {| DB := contactsDB; UPTIME_MONITOR_KV := [] |} 7 recoveryOnly
           eq_refl eq_refl eq_refl eq_refl eq_refl).
Defined.

(* ================================================================== *)
(** ** The daily row kept by the incremental upsert *)
(* ================================================================== *)

Lemma filter_mapWhere_same {A} (p : A -> bool) (f : A -> A) (l : list A) :
  (forall x, p x = true -> p (f x) = true) ->
  filter p (mapWhere p f l) = map f (filter p l).
Proof.
  intros H. unfold mapWhere. induction l as [|x l IH]; [reflexivity|].
  cbn [map filter]. destruct (p x) eqn:E.
  - rewrite (H x E). cbn [map]. now rewrite IH.
  - rewrite E. exact IH.
Qed.

Lemma filter_negb_mapWhere {A} (p : A -> bool) (f : A -> A) (l : list A) :
  (forall x, p x = true -> p (f x) = true) ->
  filter (fun x => negb (p x)) (mapWhere p f l) = filter (fun x => negb (p x)) l.
Proof.
  intros H. apply filter_mapWhere_untouched. intros x E.
  now rewrite (H x E), E.
Qed.

Lemma find_is_first_filtered {A} (p : A -> bool) (l : list A) :
  find p l = hd_error (filter p l).
Proof.
  induction l as [|x l IH]; [reflexivity|].
  cbn [find filter]. now destruct (p x).
Qed.

Lemma existsb_filter_nil {A} (p : A -> bool) (l : list A) :
  existsb p l = false <-> filter p l = [].
Proof.
  induction l as [|x l IH]; [now split|].
  cbn [existsb filter]. destruct (p x); cbn [orb]; [split; discriminate | exact IH].
Qed.

Lemma statKey_upsertUpdate (m d upInc rt : Z) (r : StatRow) :
  statKey m d (upsertUpdate upInc rt r) = statKey m d r.
Proof. reflexivity. Qed.

Lemma statKey_setUptimePercentage (m d : Z) (p : option Q) (r : StatRow) :
  statKey m d (setUptimePercentage p r) = statKey m d r.
Proof. reflexivity. Qed.

Section Upsert.

Variable monitorId : Z.
Variable result : CheckResult.
Variable now : Z.
Variable db : Database.

Let today : Z := dateOf now.
Let upInc : Z := if isUp (status result) then 1 else 0.
Let rt : Z := JS.numOr0 (response_time_ms result).
Let key : StatRow -> bool := statKey monitorId today.

(** The row of the day before the percentage is recomputed. *)
Definition upsertedRow (old : list StatRow) : StatRow :=
  match old with
  | [] => upsertInsert monitorId today upInc rt
  | r :: _ => upsertUpdate upInc rt r
  end.

Lemma updateDailyStats_key_rows :
  (List.length (filter key (uptime_stats db)) <= 1)%nat ->
  let r := upsertedRow (filter key (uptime_stats db)) in
  filter key (uptime_stats (updateDailyStats monitorId result now db))
  = [setUptimePercentage
       (uptimePercent (successful_checks r) (total_checks r)) r].
Proof.
  intros U r. unfold updateDailyStats. cbn [uptime_stats setStats].
  fold today. fold upInc. fold rt. fold key.
  destruct (filter key (uptime_stats db)) as [|r0 [|r1 l]] eqn:F;
    [| |cbn [List.length] in U; lia].
  - assert (X : existsb key (uptime_stats db) = false) by now apply existsb_filter_nil.
    rewrite X.
    assert (K : key (upsertInsert monitorId today upInc rt) = true).
    { unfold key, statKey. cbn. now rewrite !Z.eqb_refl. }
    rewrite find_is_first_filtered, filter_app, F. cbn [filter app]. rewrite K.
    cbn [hd_error].
    rewrite filter_mapWhere_same by (intros x Hx; exact Hx).
    rewrite filter_app, F. cbn [filter app]. rewrite K. reflexivity.
  - assert (X : existsb key (uptime_stats db) = true).
    { destruct (existsb key (uptime_stats db)) eqn:E; [reflexivity|].
      apply existsb_filter_nil in E. congruence. }
    rewrite X.
    rewrite find_is_first_filtered,
      (filter_mapWhere_same key (upsertUpdate upInc rt)) by (intros x Hx; exact Hx).
    rewrite F. cbn [map hd_error].
    rewrite filter_mapWhere_same by (intros x Hx; exact Hx).
    rewrite (filter_mapWhere_same key (upsertUpdate upInc rt)) by (intros x Hx; exact Hx).
    rewrite F. reflexivity.
Qed.

Lemma updateDailyStats_other_rows :
  filter (fun r => negb (key r)) (uptime_stats (updateDailyStats monitorId result now db))
  = filter (fun r => negb (key r)) (uptime_stats db).
Proof.
  unfold updateDailyStats. cbn [uptime_stats setStats].
  fold today. fold upInc. fold rt. fold key.
  set (upserted := if existsb key (uptime_stats db) then _ else _).
  assert (E : filter (fun r => negb (key r)) upserted
              = filter (fun r => negb (key r)) (uptime_stats db)).
  { unfold upserted. destruct (existsb key (uptime_stats db)).
    - apply filter_negb_mapWhere. intros x Hx. exact Hx.
    - rewrite filter_app. cbn [filter].
      assert (K : key (upsertInsert monitorId today upInc rt) = true).
      { unfold key, statKey. cbn. now rewrite !Z.eqb_refl. }
      rewrite K. apply app_nil_r. }
  destruct (find key upserted); [|exact E].
  rewrite filter_negb_mapWhere by (intros x Hx; exact Hx). exact E.
Qed.

End Upsert.

(** X11. With at most one row per monitor and date in [uptime_stats], the
    upsert leaves exactly one row for the monitor and the day of the clock:
    counters 1 and 0/1 for the first check of the day, else the old counters
    plus one check and plus one success for an ['up'] result; its
    [uptime_percentage] is recomputed from these very counters; every row of
    another monitor or date is kept as it is, in order. *)
Theorem updateDailyStats_one_row_per_day (monitorId : Z) (result : CheckResult)
    (now : Z) (db : Database) :
  (List.length (filter (statKey monitorId (dateOf now)) (uptime_stats db)) <= 1)%nat ->
  let upInc := if isUp (status result) then 1 else 0 in
  let stats' := uptime_stats (updateDailyStats monitorId result now db) in
  exists r,
    filter (statKey monitorId (dateOf now)) stats' = [r]
    /\ match filter (statKey monitorId (dateOf now)) (uptime_stats db) with
       | [] => total_checks r = Some 1 /\ successful_checks r = Some upInc
       | old :: _ =>
           total_checks r = sqlZ Z.add (total_checks old) (Some 1)
           /\ successful_checks r = sqlZ Z.add (successful_checks old) (Some upInc)
       end
    /\ uptime_percentage r = uptimePercent (successful_checks r) (total_checks r)
    /\ filter (fun x => negb (statKey monitorId (dateOf now) x)) stats'
       = filter (fun x => negb (statKey monitorId (dateOf now) x)) (uptime_stats db).
Proof.
  intros U upInc stats'. eexists. split.
  - exact (updateDailyStats_key_rows monitorId result now db U).
  - split; [|split].
    + destruct (filter _ (uptime_stats db)); cbn; split; reflexivity.
    + reflexivity.
    + apply updateDailyStats_other_rows.
Qed.

Lemma updateDailyStats_one_row_per_day_witness :
  exists r,
    filter (statKey 1 (dateOf 0))
      (uptime_stats (updateDailyStats 1 (sample "up" (Some 100)) 0 emptyDB)) = [r]
    /\ total_checks r = Some 1.
Proof.
  destruct (updateDailyStats_one_row_per_day 1 (sample "up" (Some 100)) 0 emptyDB)
    as (r & E & C & _); [cbn; lia|].
  exists r. split; [exact E | exact (proj1 C)].
Defined.

Lemma updateDailyStats_has_today (monitorId : Z) (result : CheckResult)
    (now : Z) (db : Database) :
  exists r,
    In r (uptime_stats (updateDailyStats monitorId result now db))
    /\ st_date r = dateOf now.
Proof.
  assert (Pre : forall (f : StatRow -> StatRow) l r,
             (forall x, st_date (f x) = st_date x) ->
             In r l -> exists r', In r' (mapWhere (statKey monitorId (dateOf now)) f l)
                                  /\ st_date r' = st_date r).
  { intros f l r Hf Hin. unfold mapWhere.
    exists (if statKey monitorId (dateOf now) r then f r else r).
    split.
    - exact (in_map (fun x => if statKey monitorId (dateOf now) x then f x else x) l r Hin).
    - destruct (statKey _ _ r); [apply Hf | reflexivity]. }
  unfold updateDailyStats. cbn [uptime_stats setStats].
  set (upserted := if existsb _ (uptime_stats db) then _ else _).
  assert (E : exists r, In r upserted /\ st_date r = dateOf now).
  { unfold upserted. destruct (existsb _ (uptime_stats db)) eqn:X.
    - apply existsb_exists in X. destruct X as (x & Hin & Hk).
      destruct (Pre (upsertUpdate (if isUp (status result) then 1 else 0)
                       (JS.numOr0 (response_time_ms result))) _ x (fun _ => eq_refl) Hin)
        as (r' & Hin' & Hd).
      exists r'. split; [exact Hin'|]. rewrite Hd.
      unfold statKey in Hk. apply andb_true_iff in Hk. destruct Hk as [_ Hk].
      now apply Z.eqb_eq.
    - eexists. split; [apply in_or_app; right; left; reflexivity | reflexivity]. }
  destruct (find _ upserted); [|exact E].
  destruct E as (r & Hin & Hd).
  destruct (Pre (setUptimePercentage
                   (uptimePercent (successful_checks s) (total_checks s)))
              _ r (fun _ => eq_refl) Hin) as (r' & Hin' & Hd').
  exists r'. split; [exact Hin' | congruence].
Qed.

(** X12. Once a check has been saved on a day, [calculateStats] of that day
    is skipped and returns the database as it is: the upsert of the check
    left an [uptime_stats] row of the day, which is all the skip test looks
    for.  The nightly row, the purge and the summary update do not happen. *)
Theorem calculateStats_skipped_after_check (monitorId : Z) (result : CheckResult)
    (saveT now : Z) (env : Env) :
  dateOf now = dateOf saveT ->
  calculateStats now (DB (saveCheckResult monitorId result saveT env))
  = DB (saveCheckResult monitorId result saveT env).
Proof.
  intros D. rewrite calculateStats_unfold.
  assert (A : alreadyComputed now (DB (saveCheckResult monitorId result saveT env)) = true).
  { apply alreadyComputed_iff. cbn [saveCheckResult DB setDB].
    destruct (updateDailyStats_has_today monitorId result saveT
                (setChecks (DB env) (monitor_checks (DB env) ++
                   [{| chk_id := nextId (map chk_id (monitor_checks (DB env)));
                       chk_monitor_id := monitorId;
                       chk_status := status result;
                       chk_response_time_ms := response_time_ms result;
                       chk_status_code := status_code result;
                       chk_error_message := error_message result;
                       chk_checked_at := checked_at result;
                       chk_region := region result;
                       chk_ssl_days_remaining :=
                         match ssl_days_remaining result with
                         | Some 0 => None
                         | v => v
                         end;
                       chk_keyword_found :=
                         match keyword_found result with
                         | Some true => Some true
                         | _ => None
                         end |}]))) as (r & Hin & Hd).
    exists r. split; [exact Hin | congruence]. }
  now rewrite A.
Qed.

Lemma calculateStats_skipped_after_check_witness :
  calculateStats 600000 (DB (saveCheckResult 1 (sample "up" (Some 100)) 1000 emptyEnv))
  = DB (saveCheckResult 1 (sample "up" (Some 100)) 1000 emptyEnv).
Proof.
  exact (calculateStats_skipped_after_check 1 (sample "up" (Some 100)) 1000 600000
           emptyEnv eq_refl).
Defined.

(** A row whose stored average lies between its stored minimum and maximum,
    after at least one check. *)
Definition avgWithinBounds (r : StatRow) : Prop :=
  exists n a lo hi,
    total_checks r = Some n /\ 1 <= n
    /\ avg_response_time_ms r = Some a
    /\ min_response_time_ms r = Some lo
    /\ max_response_time_ms r = Some hi
    /\ (inject_Z lo <= a)%Q /\ (a <= inject_Z hi)%Q.

Lemma running_avg_bounds (a : Q) (n lo hi rt : Z) :
  1 <= n ->
  (inject_Z lo <= a)%Q -> (a <= inject_Z hi)%Q ->
  (inject_Z (Z.min lo rt) <= (a * inject_Z (n - 1) + inject_Z rt) / inject_Z n)%Q
  /\ ((a * inject_Z (n - 1) + inject_Z rt) / inject_Z n <= inject_Z (Z.max hi rt))%Q.
Proof.
  intros Hn Hlo Hhi.
  assert (N0 : (0 < inject_Z n)%Q)
    by (change 0%Q with (inject_Z 0); rewrite <- Zlt_Qlt; lia).
  assert (N1 : (0 <= inject_Z (n - 1))%Q)
    by (change 0%Q with (inject_Z 0); rewrite <- Zle_Qle; lia).
  assert (EN : (inject_Z n == inject_Z (n - 1) + 1)%Q).
  { change 1%Q with (inject_Z 1). rewrite <- (inject_Z_plus (n - 1) 1).
    replace (n - 1 + 1) with n by lia. reflexivity. }
  assert (L1 : (inject_Z (Z.min lo rt) <= inject_Z lo)%Q) by (rewrite <- Zle_Qle; lia).
  assert (L2 : (inject_Z (Z.min lo rt) <= inject_Z rt)%Q) by (rewrite <- Zle_Qle; lia).
  assert (H1 : (inject_Z hi <= inject_Z (Z.max hi rt))%Q) by (rewrite <- Zle_Qle; lia).
  assert (H2 : (inject_Z rt <= inject_Z (Z.max hi rt))%Q) by (rewrite <- Zle_Qle; lia).
  split.
  - apply Qle_shift_div_l; [exact N0|]. rewrite EN. nra.
  - apply Qle_shift_div_r; [exact N0|]. rewrite EN. nra.
Qed.

Lemma upsertInsert_within (m d upInc rt : Z) : avgWithinBounds (upsertInsert m d upInc rt).
Proof.
  exists 1, (inject_Z rt), rt, rt. cbn. repeat split; try lia; apply Qle_refl.
Qed.

Lemma upsertUpdate_within (upInc rt : Z) (r : StatRow) :
  avgWithinBounds r -> avgWithinBounds (upsertUpdate upInc rt r).
Proof.
  intros (n & a & lo & hi & Hn & Hn1 & Ha & Hlo & Hhi & B1 & B2).
  destruct (running_avg_bounds a n lo hi rt Hn1 B1 B2) as [R1 R2].
  exists (n + 1), (Qred ((a * inject_Z (n - 1) + inject_Z rt) / inject_Z n)),
    (Z.min lo rt), (Z.max hi rt).
  cbn [upsertUpdate total_checks avg_response_time_ms min_response_time_ms
       max_response_time_ms].
  rewrite Hn, Ha, Hlo, Hhi. cbn [sqlZ sqlRunningAvg].
  replace (n =? 0) with false by (symmetry; apply Z.eqb_neq; lia).
  repeat split; try lia; rewrite Qred_correct; assumption.
Qed.

Lemma setUptimePercentage_within (p : option Q) (r : StatRow) :
  avgWithinBounds r -> avgWithinBounds (setUptimePercentage p r).
Proof. intros H. exact H. Qed.

(** X13. The upsert keeps the stored average between the stored minimum and
    maximum: when the row of the day (at most one) has it so, or does not
    exist yet, the row of the day has it so afterwards, whatever the response
    time of the new result. *)
Theorem updateDailyStats_average_within_bounds (monitorId : Z) (result : CheckResult)
    (now : Z) (db : Database) :
  (List.length (filter (statKey monitorId (dateOf now)) (uptime_stats db)) <= 1)%nat ->
  Forall avgWithinBounds (filter (statKey monitorId (dateOf now)) (uptime_stats db)) ->
  Forall avgWithinBounds
    (filter (statKey monitorId (dateOf now))
       (uptime_stats (updateDailyStats monitorId result now db))).
Proof.
  intros U F. rewrite (updateDailyStats_key_rows monitorId result now db U).
  constructor; [|constructor]. apply setUptimePercentage_within.
  unfold upsertedRow. destruct (filter _ (uptime_stats db)) as [|r l].
  - apply upsertInsert_within.
  - apply upsertUpdate_within. now inversion F.
Qed.

Lemma updateDailyStats_average_within_bounds_witness :
  Forall avgWithinBounds
    (filter (statKey 1 (dateOf 0))
       (uptime_stats (updateDailyStats 1 (sample "up" (Some 200)) 0
                        (updateDailyStats 1 (sample "up" (Some 100)) 0 emptyDB)))).
Proof.
  apply updateDailyStats_average_within_bounds.
  - vm_compute. lia.
  - apply updateDailyStats_average_within_bounds; [cbn; lia | constructor].
Defined.

(* ================================================================== *)
(** ** The nightly row *)
(* ================================================================== *)

(** Rows in ascending order of [checked_at], none earlier than [t]. *)
Fixpoint ascendingFrom (t : Z) (l : list CheckRow) : Prop :=
  match l with
  | [] => True
  | x :: rest => t <= chk_checked_at x /\ ascendingFrom (chk_checked_at x) rest
  end.

Definition ascending (l : list CheckRow) : Prop :=
  match l with
  | [] => True
  | x :: rest => ascendingFrom (chk_checked_at x) rest
  end.

(** The sweep of the specification in milliseconds. *)
Fixpoint msUp (checks : list CheckRow) : Z :=
  match checks with
  | [] => 0
  | check :: rest =>
      if isDown check then msDown (chk_checked_at check) (chk_checked_at check) rest
      else msUp rest
  end
with msDown (start seen : Z) (checks : list CheckRow) : Z :=
  match checks with
  | [] => seen - start
  | check :: rest =>
      if isDown check then msDown start (chk_checked_at check) rest
      else (chk_checked_at check - start) + msUp rest
  end.

Module NightlyFacts.

Lemma insert_in (r x : CheckRow) (l : list CheckRow) :
  In x (insertByCheckedAt r l) <-> x = r \/ In x l.
Proof.
  induction l as [|y l IH]; cbn [insertByCheckedAt].
  - cbn. intuition congruence.
  - destruct (chk_checked_at r <? chk_checked_at y); cbn [In].
    + intuition congruence.
    + rewrite IH. intuition congruence.
Qed.

Lemma insert_length (r : CheckRow) (l : list CheckRow) :
  List.length (insertByCheckedAt r l) = S (List.length l).
Proof.
  induction l as [|y l IH]; cbn [insertByCheckedAt]; [reflexivity|].
  destruct (_ <? _); cbn [List.length]; [reflexivity | now rewrite IH].
Qed.

Lemma insert_ascendingFrom (r : CheckRow) (t : Z) (l : list CheckRow) :
  t <= chk_checked_at r -> ascendingFrom t l -> ascendingFrom t (insertByCheckedAt r l).
Proof.
  revert t. induction l as [|y l IH]; intros t Ht H; cbn [insertByCheckedAt].
  - cbn. auto.
  - destruct H as [H1 H2]. destruct (Z.ltb_spec (chk_checked_at r) (chk_checked_at y)).
    + cbn [ascendingFrom]. repeat split; auto; lia.
    + cbn [ascendingFrom]. split; [exact H1|]. apply IH; [lia | exact H2].
Qed.

Lemma insert_ascending (r : CheckRow) (l : list CheckRow) :
  ascending l -> ascending (insertByCheckedAt r l).
Proof.
  destruct l as [|y l]; [cbn; auto|]. intros H. cbn [insertByCheckedAt].
  destruct (Z.ltb_spec (chk_checked_at r) (chk_checked_at y)).
  - cbn [ascending ascendingFrom]. split; [lia | exact H].
  - cbn [ascending]. apply insert_ascendingFrom; [lia | exact H].
Qed.

Lemma order_from (l acc : list CheckRow) :
  let out := fold_left (fun a r => insertByCheckedAt r a) l acc in
  (ascending acc -> ascending out)
  /\ (forall x, In x out <-> In x l \/ In x acc)
  /\ List.length out = (List.length l + List.length acc)%nat.
Proof.
  revert acc. induction l as [|r l IH]; intros acc; cbn [fold_left].
  - cbn. intuition.
  - destruct (IH (insertByCheckedAt r acc)) as (A & I & L). split; [|split].
    + intros H. apply A. now apply insert_ascending.
    + intros x. rewrite I, insert_in. cbn [In]. intuition congruence.
    + rewrite L, insert_length. cbn [List.length]. lia.
Qed.

(** [ORDER BY checked_at] returns the rows it is given, in ascending order. *)
Lemma orderByCheckedAt_spec (l : list CheckRow) :
  ascending (orderByCheckedAt l)
  /\ (forall x, In x (orderByCheckedAt l) <-> In x l)
  /\ List.length (orderByCheckedAt l) = List.length l.
Proof.
  destruct (order_from l []) as (A & I & L). unfold orderByCheckedAt.
  split; [apply A; exact Logic.I|]. split.
  - intros x. rewrite I. cbn. intuition.
  - rewrite L. cbn. lia.
Qed.

Lemma checksOn_spec (monitorId date : Z) (db : Database) :
  ascending (checksOn monitorId date db)
  /\ forall x, In x (checksOn monitorId date db) <->
               In x (monitor_checks db)
               /\ chk_monitor_id x = monitorId
               /\ dateOf (chk_checked_at x) = date.
Proof.
  unfold checksOn.
  destruct (orderByCheckedAt_spec
              (filter (fun r => (chk_monitor_id r =? monitorId)
                                && (dateOf (chk_checked_at r) =? date))
                 (monitor_checks db))) as (A & I & _).
  split; [exact A|]. intros x. rewrite I, filter_In, andb_true_iff, !Z.eqb_eq.
  tauto.
Qed.

(** The minutes of the sweep are its milliseconds over 60000. *)
Lemma sweep_ms (checks : list CheckRow) :
  (fst (sweepUp checks) == inject_Z (msUp checks) / inject_Z (1000 * 60))%Q
  /\ (forall start seen,
         fst (sweepDown start seen checks)
         == inject_Z (msDown start seen checks) / inject_Z (1000 * 60))%Q.
Proof.
  induction checks as [|c rest [IHu IHd]]; split.
  - cbn. reflexivity.
  - intros start seen. cbn. reflexivity.
  - cbn [sweepUp msUp]. destruct (isDown c).
    + specialize (IHd (chk_checked_at c) (chk_checked_at c)).
      destruct (sweepDown _ _ rest). exact IHd.
    + exact IHu.
  - intros start seen. cbn [sweepDown msDown]. destruct (isDown c).
    + apply IHd.
    + destruct (sweepUp rest) as [d n]. cbn [fst] in *. rewrite IHu.
      unfold minutesBetween. rewrite inject_Z_plus. field. discriminate.
Qed.

Lemma ms_bounds (checks : list CheckRow) :
  (forall t0, ascendingFrom t0 checks ->
              0 <= msUp checks <= last (map chk_checked_at checks) t0 - t0)
  /\ (forall start seen,
         start <= seen -> ascendingFrom seen checks ->
         0 <= msDown start seen checks
              <= last (map chk_checked_at checks) seen - start).
Proof.
  induction checks as [|c rest [IHu IHd]]; split.
  - intros t0 _. cbn. lia.
  - intros start seen H _. cbn. lia.
  - intros t0 [H1 H2]. cbn [msUp map]. rewrite DowntimeFacts.last_cons.
    destruct (isDown c).
    + specialize (IHd (chk_checked_at c) (chk_checked_at c) (Z.le_refl _) H2). lia.
    + specialize (IHu (chk_checked_at c) H2). lia.
  - intros start seen H [H1 H2]. cbn [msDown map]. rewrite DowntimeFacts.last_cons.
    destruct (isDown c).
    + assert (Hs : start <= chk_checked_at c) by lia.
      specialize (IHd start (chk_checked_at c) Hs H2). lia.
    + specialize (IHu (chk_checked_at c) H2). lia.
Qed.

(** The incidents of the sweep are at most the ['down'] checks. *)
Lemma incidents_bounds (checks : list CheckRow) :
  (0 <= snd (sweepUp checks) <= Z.of_nat (List.length (filter isDown checks)))
  /\ (forall start seen,
         0 <= snd (sweepDown start seen checks)
         <= Z.of_nat (List.length (filter isDown checks))).
Proof.
  induction checks as [|c rest [IHu IHd]]; split.
  - cbn. lia.
  - intros. cbn. lia.
  - cbn [sweepUp filter]. destruct (isDown c).
    + specialize (IHd (chk_checked_at c) (chk_checked_at c)).
      destruct (sweepDown _ _ rest) as [d n]. cbn [snd List.length] in *. lia.
    + exact IHu.
  - intros start seen. cbn [sweepDown filter]. destruct (isDown c).
    + specialize (IHd start (chk_checked_at c)). cbn [List.length]. lia.
    + destruct (sweepUp rest) as [d n]. cbn [snd] in *. lia.
Qed.

(** [calculateDowntime] in terms of the sweep. *)
Lemma calculateDowntime_sweep (checks : list CheckRow) :
  calculateDowntime checks
  = {| Downtime.info_totalDuration := JS.Math_round (fst (sweepUp checks));
       Downtime.info_incidents := snd (sweepUp checks) |}.
Proof.
  rewrite DowntimeFacts.calculateDowntime_finish.
  destruct (proj1 (DowntimeFacts.loop_sweep checks) Downtime.init 0 eq_refl)
    as [Hd Hn].
  rewrite Hn. cbn [Downtime.incidents Downtime.init]. f_equal.
  apply DowntimeFacts.Math_round_comp. rewrite Hd.
  cbn [Downtime.totalDuration Downtime.init]. ring.
Qed.

Lemma Math_round_comp' (a b : Q) : (a == b)%Q -> JS.Math_round a = JS.Math_round b.
Proof. intros E. unfold JS.Math_round. now rewrite E. Qed.

Lemma Math_round_le (a b : Q) : (a <= b)%Q -> JS.Math_round a <= JS.Math_round b.
Proof.
  intros H. unfold JS.Math_round. apply Qfloor_resp_le.
  apply Qplus_le_compat; [exact H | apply Qle_refl].
Qed.

Lemma Math_round_minutes (ms : Z) :
  JS.Math_round (inject_Z ms / inject_Z (1000 * 60)) = (ms + 30000) / 60000.
Proof.
  change (1000 * 60) with 60000.
  unfold JS.Math_round, Qfloor, Qplus, Qdiv, Qmult, Qinv, inject_Z.
  cbn -[Z.mul Z.div Z.add].
  replace (ms * 1 * 2 + 1 * 60000) with ((ms + 30000) * 2) by lia.
  change 120000 with (60000 * 2).
  rewrite Z.div_mul_cancel_r by lia. reflexivity.
Qed.

End NightlyFacts.

Lemma last_in {A} (l : list A) (d : A) : l <> [] -> In (last l d) l.
Proof.
  induction l as [|a l IH]; [congruence|]. intros _.
  destruct l as [|b l]; [now left|]. right. apply IH. discriminate.
Qed.

Lemma dateOf_bounds (t d : Z) :
  dateOf t = d -> d * msPerDay <= t < (d + 1) * msPerDay.
Proof.
  unfold dateOf, msPerDay. intros <-.
  pose proof (Z.mul_div_le t 86400000 ltac:(lia)).
  pose proof (Z.mul_succ_div_gt t 86400000 ltac:(lia)).
  lia.
Qed.

(** X14. In the nightly row of a monitor and a date, the downtime is at
    least 0 and at most 1440 minutes, and the number of downtime incidents is
    at least 0 and at most the number of ['down'] checks of that day. *)
Theorem dailyRow_downtime_bounds (monitorId date : Z) (db : Database) :
  let row := dailyRow monitorId date (checksOn monitorId date db) in
  exists minutes runs downs,
    downtime_duration row = Some minutes
    /\ downtime_incidents row = Some runs
    /\ down_checks row = Some downs
    /\ 0 <= minutes <= 1440
    /\ 0 <= runs <= downs.
Proof.
  intros row. unfold row, dailyRow.
  cbn [downtime_duration downtime_incidents down_checks].
  rewrite NightlyFacts.calculateDowntime_sweep.
  cbn [Downtime.info_totalDuration Downtime.info_incidents].
  do 3 eexists. split; [reflexivity|]. split; [reflexivity|]. split; [reflexivity|].
  split; [|apply NightlyFacts.incidents_bounds].
  destruct (NightlyFacts.checksOn_spec monitorId date db) as [A I].
  set (checks := checksOn monitorId date db) in *.
  rewrite (NightlyFacts.Math_round_comp' _ _ (proj1 (NightlyFacts.sweep_ms checks))).
  rewrite NightlyFacts.Math_round_minutes.
  destruct checks as [|c rest] eqn:E.
  - cbn. lia.
  - assert (B : 0 <= msUp (c :: rest)
                <= last (map chk_checked_at (c :: rest)) (chk_checked_at c)
                   - chk_checked_at c).
    { apply (proj1 (NightlyFacts.ms_bounds (c :: rest))). cbn [ascendingFrom].
      split; [lia | exact A]. }
    assert (Hl : In (last (map chk_checked_at (c :: rest)) (chk_checked_at c))
                   (map chk_checked_at (c :: rest)))
      by (apply last_in; discriminate).
    apply in_map_iff in Hl. destruct Hl as (x & Hx & Hin).
    apply I in Hin. destruct Hin as (_ & _ & Dx).
    assert (Dc : dateOf (chk_checked_at c) = date)
      by (apply (I c); now left).
    apply dateOf_bounds in Dx. apply dateOf_bounds in Dc.
    rewrite <- Hx in B. unfold msPerDay in *.
    split.
    + apply Z.div_pos; lia.
    + assert ((msUp (c :: rest) + 30000) / 60000 < 1441)
        by (apply Z.div_lt_upper_bound; lia).
      lia.
Qed.

Lemma disjoint_filters {A} (p q : A -> bool) (l : list A) :
  (forall x, p x = true -> q x = false) ->
  (List.length (filter p l) + List.length (filter q l) <= List.length l)%nat.
Proof.
  intros H. induction l as [|x l IH]; [cbn; lia|].
  cbn [filter]. destruct (p x) eqn:E.
  - rewrite (H x E). cbn [List.length]. lia.
  - destruct (q x); cbn [List.length]; lia.
Qed.

Lemma up_not_down (c : CheckRow) : isUp (chk_status c) = true -> isDown c = false.
Proof.
  unfold isUp, isDown. intros H. apply String.eqb_eq in H. now rewrite H.
Qed.

Lemma round2_within (x : Q) :
  (0 <= x)%Q -> (x <= 100)%Q -> (0 <= round2 x)%Q /\ (round2 x <= 100)%Q.
Proof.
  intros H0 H1. unfold round2. rewrite Qred_correct.
  assert (L : 0 <= JS.Math_round (x * 100)).
  { change 0 with (JS.Math_round 0). apply NightlyFacts.Math_round_le. nra. }
  assert (U : JS.Math_round (x * 100) <= 10000).
  { change 10000 with (JS.Math_round 10000). apply NightlyFacts.Math_round_le. nra. }
  assert (L' : (0 <= inject_Z (JS.Math_round (x * 100)))%Q)
    by (change 0%Q with (inject_Z 0); now rewrite <- Zle_Qle).
  assert (U' : (inject_Z (JS.Math_round (x * 100)) <= 10000)%Q)
    by (change 10000%Q with (inject_Z 10000); now rewrite <- Zle_Qle).
  split.
  - apply Qle_shift_div_l; [reflexivity | nra].
  - apply Qle_shift_div_r; [reflexivity | nra].
Qed.

(** X15. In the nightly row of a non-empty list of checks, [total_checks] is
    the number of checks, [up_checks] and [down_checks] together never exceed
    it (checks that ended in ['timeout'] or ['error'] are in neither), and
    [uptime_percentage] lies between 0 and 100. *)
Theorem dailyRow_counts (monitorId date : Z) (checkResults : list CheckRow) :
  checkResults <> [] ->
  let row := dailyRow monitorId date checkResults in
  exists total ups downs pct,
    total_checks row = Some total
    /\ up_checks row = Some ups
    /\ down_checks row = Some downs
    /\ uptime_percentage row = Some pct
    /\ total = Z.of_nat (List.length checkResults)
    /\ 0 <= ups /\ 0 <= downs /\ ups + downs <= total
    /\ (0 <= pct)%Q /\ (pct <= 100)%Q.
Proof.
  intros N row. unfold row, dailyRow.
  cbn [total_checks up_checks down_checks uptime_percentage].
  do 4 eexists. do 4 (split; [reflexivity|]). split; [reflexivity|].
  pose proof (disjoint_filters (fun c => isUp (chk_status c)) isDown checkResults
                up_not_down) as D.
  set (ups := List.length (filter (fun c => isUp (chk_status c)) checkResults)) in *.
  set (downs := List.length (filter isDown checkResults)) in *.
  assert (T : (0 < List.length checkResults)%nat)
    by (destruct checkResults; [congruence | cbn; lia]).
  split; [lia|]. split; [lia|]. split; [lia|].
  replace (0 <? Z.of_nat (List.length checkResults)) with true
    by (symmetry; apply Z.ltb_lt; lia).
  apply round2_within.
  - apply Qmult_le_0_compat; [|discriminate].
    apply Qle_shift_div_l.
    + change 0%Q with (inject_Z 0). rewrite <- Zlt_Qlt. lia.
    + rewrite Qmult_0_l. change 0%Q with (inject_Z 0). rewrite <- Zle_Qle. lia.
  - assert (F : (inject_Z (Z.of_nat ups) / inject_Z (Z.of_nat (List.length checkResults))
                 <= 1)%Q).
    { apply Qle_shift_div_r.
      - change 0%Q with (inject_Z 0). rewrite <- Zlt_Qlt. lia.
      - rewrite Qmult_1_l. rewrite <- Zle_Qle. lia. }
    nra.
Qed.

Lemma dailyRow_counts_witness :
  exists total ups downs pct,
    total_checks (dailyRow 1 0 [checkAtMinute 0 "up"; checkAtMinute 5 "timeout"])
    = Some total
    /\ up_checks (dailyRow 1 0 [checkAtMinute 0 "up"; checkAtMinute 5 "timeout"])
       = Some ups
    /\ down_checks (dailyRow 1 0 [checkAtMinute 0 "up"; checkAtMinute 5 "timeout"])
       = Some downs
    /\ uptime_percentage (dailyRow 1 0 [checkAtMinute 0 "up"; checkAtMinute 5 "timeout"])
       = Some pct
    /\ total = 2
    /\ 0 <= ups /\ 0 <= downs /\ ups + downs <= total
    /\ (0 <= pct)%Q /\ (pct <= 100)%Q.
Proof.
  exact (dailyRow_counts 1 0 [checkAtMinute 0 "up"; checkAtMinute 5 "timeout"]
           ltac:(discriminate)).
Defined.

Lemma sweepUp_no_down (checks : list CheckRow) :
  Forall (fun c => isDown c = false) checks -> sweepUp checks = (0%Q, 0).
Proof.
  intros F. induction F as [|c l Hc _ IH]; [reflexivity|].
  cbn [sweepUp]. now rewrite Hc.
Qed.

(** X16. The nightly sweep counts ['down'] checks only.  On a day whose
    checks all ended in ['timeout'] or ['error'] the row reports an uptime of
    0 percent together with no ['down'] check, no downtime incident and 0
    minutes of downtime. *)
Theorem dailyRow_timeouts_are_no_downtime (monitorId date : Z) (checkResults : list CheckRow) :
  checkResults <> [] ->
  Forall (fun c => chk_status c = "timeout" \/ chk_status c = "error") checkResults ->
  let row := dailyRow monitorId date checkResults in
  uptime_percentage row = Some 0%Q
  /\ up_checks row = Some 0
  /\ down_checks row = Some 0
  /\ downtime_incidents row = Some 0
  /\ downtime_duration row = Some 0.
Proof.
  intros N F row.
  assert (ND : Forall (fun c => isDown c = false) checkResults).
  { eapply Forall_impl; [|exact F]. intros c [H|H]; unfold isDown; now rewrite H. }
  assert (NU : filter (fun c => isUp (chk_status c)) checkResults = []).
  { clear N ND. induction F as [|c l Hc _ IH]; [reflexivity|].
    cbn [filter]. destruct Hc as [H|H]; rewrite H; exact IH. }
  assert (NDn : filter isDown checkResults = []).
  { clear N F NU. induction ND as [|c l Hc _ IH]; [reflexivity|].
    cbn [filter]. now rewrite Hc. }
  unfold row, dailyRow.
  cbn [uptime_percentage up_checks down_checks downtime_incidents downtime_duration].
  rewrite NU, NDn, NightlyFacts.calculateDowntime_sweep, (sweepUp_no_down _ ND).
  cbn [List.length Z.of_nat Downtime.info_incidents Downtime.info_totalDuration fst snd].
  split; [|repeat split].
  f_equal. unfold round2.
  assert (T : 0 < Z.of_nat (List.length checkResults))
    by (destruct checkResults; [congruence | cbn [List.length]; lia]).
  replace (0 <? Z.of_nat (List.length checkResults)) with true
    by (symmetry; apply Z.ltb_lt; lia).
  rewrite (NightlyFacts.Math_round_comp' _ 0).
  - reflexivity.
  - unfold Qdiv. rewrite !Qmult_0_l. reflexivity.
Qed.

Lemma dailyRow_timeouts_are_no_downtime_witness :
  uptime_percentage
    (dailyRow 1 0 [checkAtMinute 0 "timeout"; checkAtMinute 5 "error"]) = Some 0%Q.
Proof.
  apply (dailyRow_timeouts_are_no_downtime 1 0
           [checkAtMinute 0 "timeout"; checkAtMinute 5 "error"]).
  - discriminate.
  - constructor; [left; reflexivity|].
    constructor; [right; reflexivity | constructor].
Defined.

(* ================================================================== *)
(** ** The nightly aggregation next to the incremental upsert *)
(* ================================================================== *)

(** Every check has left a daily row of its date. *)
Definition everyCheckHasDayRow (db : Database) : Prop :=
  forall c, In c (monitor_checks db) ->
            exists r, In r (uptime_stats db) /\ st_date r = dateOf (chk_checked_at c).

Lemma updateDailyStats_keeps_dates (monitorId : Z) (result : CheckResult)
    (now : Z) (db : Database) (r : StatRow) :
  In r (uptime_stats db) ->
  exists r', In r' (uptime_stats (updateDailyStats monitorId result now db))
             /\ st_date r' = st_date r.
Proof.
  assert (Pre : forall (f : StatRow -> StatRow) l x,
             (forall y, st_date (f y) = st_date y) ->
             In x l -> exists x', In x' (mapWhere (statKey monitorId (dateOf now)) f l)
                                  /\ st_date x' = st_date x).
  { intros f l x Hf Hin.
    exists (if statKey monitorId (dateOf now) x then f x else x). split.
    - exact (in_map (fun y => if statKey monitorId (dateOf now) y then f y else y) l x Hin).
    - destruct (statKey _ _ x); [apply Hf | reflexivity]. }
  intros Hin. unfold updateDailyStats. cbn [uptime_stats setStats].
  set (upserted := if existsb _ (uptime_stats db) then _ else _).
  assert (E : exists r', In r' upserted /\ st_date r' = st_date r).
  { unfold upserted. destruct (existsb _ (uptime_stats db)).
    - apply Pre; [reflexivity | exact Hin].
    - exists r. split; [apply in_or_app; now left | reflexivity]. }
  destruct (find _ upserted); [|exact E].
  destruct E as (r1 & Hin1 & Hd1).
  destruct (Pre (setUptimePercentage
                   (uptimePercent (successful_checks s) (total_checks s)))
              _ r1 (fun _ => eq_refl) Hin1) as (r2 & Hin2 & Hd2).
  exists r2. split; [exact Hin2 | congruence].
Qed.

Lemma probe_checked_at (monitor : Monitor) (w : World) (env : Env) (r : CheckResult) :
  probe monitor w env = Returns r -> checked_at r = stampTime w.
Proof.
  assert (H : forall r0, checkHTTP monitor w = Returns r0 -> checked_at r0 = stampTime w).
  { unfold checkHTTP. destruct (setup_error w); [discriminate|].
    destruct (fetched w); intros r0 E; injection E as <-; reflexivity. }
  unfold probe.
  destruct (_ || _); [apply H|].
  destruct (String.eqb (type monitor) "ping").
  { unfold checkPing. destruct (fetched w); intros E; injection E as <-; reflexivity. }
  destruct (String.eqb (type monitor) "port").
  { unfold checkPort. destruct (socket_error w); intros E; injection E as <-; reflexivity. }
  destruct (String.eqb (type monitor) "keyword").
  { unfold checkKeyword. destruct (checkHTTP monitor w) as [h|] eqn:Eh; [|discriminate].
    specialize (H h eq_refl).
    destruct (negb (isUp (status h))); [intros E; injection E as <-; exact H|].
    destruct (refetched w); intros E; injection E as <-; exact H. }
  destruct (String.eqb (type monitor) "ssl").
  { unfold checkSSL. destruct (fetched w); intros E; injection E as <-; reflexivity. }
  destruct (String.eqb (type monitor) "heartbeat"); [|discriminate].
  unfold checkHeartbeat.
  destruct (kv_get _ _) as [[[t|]|]|]; intros E; injection E as <-; reflexivity.
Qed.

Lemma saveCheckResult_keeps_cover (monitorId : Z) (result : CheckResult)
    (saveT : Z) (env : Env) :
  dateOf saveT = dateOf (checked_at result) ->
  everyCheckHasDayRow (DB env) ->
  everyCheckHasDayRow (DB (saveCheckResult monitorId result saveT env)).
Proof.
  intros D Inv c Hc.
  destruct (saveCheckResult_checks monitorId result saveT env)
    as (row & E & _ & _ & _ & _ & _ & Ht).
  rewrite E in Hc. apply in_app_or in Hc. cbn [saveCheckResult DB setDB].
  destruct Hc as [Hc|[<-|[]]].
  - destruct (Inv c Hc) as (r & Hr & Hd).
    destruct (updateDailyStats_keeps_dates monitorId result saveT
                (setChecks (DB env) (monitor_checks (DB env) ++ [row])) r Hr)
      as (r' & Hr' & Hd').
    exists r'. split; [|congruence].
    cbn [saveCheckResult DB setDB] in E. cbn [monitor_checks setStats updateDailyStats] in E.
    apply app_inv_head in E. injection E as E. rewrite E. exact Hr'.
  - cbn [saveCheckResult DB setDB] in E. cbn [monitor_checks setStats updateDailyStats] in E.
    apply app_inv_head in E. injection E as E.
    destruct (updateDailyStats_has_today monitorId result saveT
                (setChecks (DB env) (monitor_checks (DB env) ++ [row])))
      as (r & Hr & Hd).
    exists r. split; [rewrite E; exact Hr|]. rewrite Hd, Ht. exact D.
Qed.

(** Every check has left a daily row of its monitor and date. *)
Definition everyCheckHasOwnDayRow (db : Database) : Prop :=
  forall c, In c (monitor_checks db) ->
            exists r, In r (uptime_stats db)
                      /\ st_monitor_id r = chk_monitor_id c
                      /\ st_date r = dateOf (chk_checked_at c).

Lemma mapWhere_keeps_key {A} (p : A -> bool) (f : A -> A) (key : A -> Z * Z)
    (l : list A) (x : A) :
  (forall y, key (f y) = key y) ->
  In x l -> exists x', In x' (mapWhere p f l) /\ key x' = key x.
Proof.
  intros Hf Hin. exists (if p x then f x else x). split.
  - exact (in_map (fun y => if p y then f y else y) l x Hin).
  - destruct (p x); [apply Hf | reflexivity].
Qed.

(** The upsert keeps, for every row, a row of the same monitor and date. *)
Lemma updateDailyStats_keeps_keys (monitorId : Z) (result : CheckResult)
    (now : Z) (db : Database) (r : StatRow) :
  In r (uptime_stats db) ->
  exists r', In r' (uptime_stats (updateDailyStats monitorId result now db))
             /\ st_monitor_id r' = st_monitor_id r
             /\ st_date r' = st_date r.
Proof.
  set (key := fun x : StatRow => (st_monitor_id x, st_date x)).
  assert (K : forall x y : StatRow,
             key x = key y -> st_monitor_id x = st_monitor_id y /\ st_date x = st_date y).
  { intros x y E. unfold key in E. now injection E. }
  intros Hin. unfold updateDailyStats. cbn [uptime_stats setStats].
  set (upserted := if existsb _ (uptime_stats db) then _ else _).
  assert (E : exists r', In r' upserted /\ key r' = key r).
  { unfold upserted. destruct (existsb _ (uptime_stats db)).
    - apply mapWhere_keeps_key; [reflexivity | exact Hin].
    - exists r. split; [apply in_or_app; now left | reflexivity]. }
  assert (F : exists r', In r' (match find (statKey monitorId (dateOf now)) upserted with
                                | Some stats =>
                                    mapWhere (statKey monitorId (dateOf now))
                                      (setUptimePercentage
                                         (uptimePercent (successful_checks stats)
                                            (total_checks stats)))
                                      upserted
                                | None => upserted
                                end)
                         /\ key r' = key r).
  { destruct (find _ upserted); [|exact E].
    destruct E as (r1 & Hin1 & Hk1).
    destruct (mapWhere_keeps_key (statKey monitorId (dateOf now))
                (setUptimePercentage
                   (uptimePercent (successful_checks s) (total_checks s)))
                key upserted r1 (fun _ => eq_refl) Hin1) as (r2 & Hin2 & Hk2).
    exists r2. split; [exact Hin2 | congruence]. }
  destruct F as (r' & Hin' & Hk). exists r'. split; [exact Hin'|]. now apply K.
Qed.

(** After the upsert there is a row of the monitor and the day of the
    clock. *)
Lemma updateDailyStats_has_own_today (monitorId : Z) (result : CheckResult)
    (now : Z) (db : Database) :
  exists r,
    In r (uptime_stats (updateDailyStats monitorId result now db))
    /\ st_monitor_id r = monitorId
    /\ st_date r = dateOf now.
Proof.
  assert (E : exists r, In r (uptime_stats db ++
                                (if existsb (statKey monitorId (dateOf now)) (uptime_stats db)
                                 then []
                                 else [upsertInsert monitorId (dateOf now)
                                         (if isUp (status result) then 1 else 0)
                                         (JS.numOr0 (response_time_ms result))]))
                      /\ st_monitor_id r = monitorId /\ st_date r = dateOf now).
  { destruct (existsb _ (uptime_stats db)) eqn:X.
    - apply existsb_exists in X. destruct X as (x & Hin & Hk).
      unfold statKey in Hk. apply andb_true_iff in Hk. destruct Hk as [Hm Hd].
      apply Z.eqb_eq in Hm, Hd.
      exists x. split; [apply in_or_app; now left | now split].
    - eexists. split; [apply in_or_app; right; left; reflexivity|].
      split; reflexivity. }
  destruct E as (r & Hin & Hm & Hd).
  destruct (existsb (statKey monitorId (dateOf now)) (uptime_stats db)) eqn:X.
  - rewrite app_nil_r in Hin.
    destruct (updateDailyStats_keeps_keys monitorId result now db r Hin)
      as (r' & Hin' & Hm' & Hd').
    exists r'. split; [exact Hin'|]. split; congruence.
  - apply in_app_or in Hin. destruct Hin as [Hin|[<-|[]]].
    + destruct (updateDailyStats_keeps_keys monitorId result now db r Hin)
        as (r' & Hin' & Hm' & Hd').
      exists r'. split; [exact Hin'|]. split; congruence.
    + assert (Hin : In (upsertInsert monitorId (dateOf now)
                          (if isUp (status result) then 1 else 0)
                          (JS.numOr0 (response_time_ms result)))
                      (uptime_stats db ++
                         [upsertInsert monitorId (dateOf now)
                            (if isUp (status result) then 1 else 0)
                            (JS.numOr0 (response_time_ms result))]))
        by (apply in_or_app; right; now left).
      unfold updateDailyStats. cbn [uptime_stats setStats]. rewrite X.
      set (upserted := uptime_stats db ++ _) in *.
      destruct (find _ upserted).
      * destruct (mapWhere_keeps_key (statKey monitorId (dateOf now))
                    (setUptimePercentage
                       (uptimePercent (successful_checks s) (total_checks s)))
                    (fun x => (st_monitor_id x, st_date x)) upserted _
                    (fun _ => eq_refl) Hin) as (r2 & Hin2 & Hk2).
        exists r2. split; [exact Hin2|]. injection Hk2 as -> ->. now split.
      * eexists. split; [exact Hin|]. now split.
Qed.

Lemma saveCheckResult_keeps_own_cover (monitorId : Z) (result : CheckResult)
    (saveT : Z) (env : Env) :
  dateOf saveT = dateOf (checked_at result) ->
  everyCheckHasOwnDayRow (DB env) ->
  everyCheckHasOwnDayRow (DB (saveCheckResult monitorId result saveT env)).
Proof.
  intros D Inv c Hc.
  destruct (saveCheckResult_checks monitorId result saveT env)
    as (row & E & _ & Hid & _ & _ & _ & Ht).
  rewrite E in Hc. apply in_app_or in Hc. cbn [saveCheckResult DB setDB].
  cbn [saveCheckResult DB setDB] in E. cbn [monitor_checks setStats updateDailyStats] in E.
  apply app_inv_head in E. injection E as E.
  destruct Hc as [Hc|[<-|[]]].
  - destruct (Inv c Hc) as (r & Hr & Hm & Hd).
    destruct (updateDailyStats_keeps_keys monitorId result saveT
                (setChecks (DB env) (monitor_checks (DB env) ++ [row])) r Hr)
      as (r' & Hr' & Hm' & Hd').
    exists r'. split; [exact Hr'|]. split; congruence.
  - destruct (updateDailyStats_has_own_today monitorId result saveT
                (setChecks (DB env) (monitor_checks (DB env) ++ [row])))
      as (r & Hr & Hm & Hd).
    exists r. split; [exact Hr|]. split; [congruence|].
    rewrite Hd, Ht. exact D.
Qed.

(** X17. A cycle that is stamped and saved on the same day keeps this true:
    every row of [monitor_checks] has an [uptime_stats] row of its monitor
    and date. *)
Theorem runMonitoringCheck_keeps_day_rows (monitor : Monitor) (w : World) (env : Env) :
  dateOf (saveTime w) = dateOf (stampTime w) ->
  everyCheckHasOwnDayRow (DB env) ->
  everyCheckHasOwnDayRow (DB (fst (runMonitoringCheck monitor w env))).
Proof.
  intros D Inv.
  assert (K : forall result,
             checked_at result = stampTime w ->
             everyCheckHasOwnDayRow
               (DB (saveCheckResult (id monitor) result (saveTime w) env))).
  { intros result Hc. apply saveCheckResult_keeps_own_cover; [congruence | exact Inv]. }
  unfold runMonitoringCheck. destruct (probe monitor w env) as [r|m] eqn:P; cbn [fst].
  - specialize (K r (probe_checked_at _ _ _ _ P)).
    intros c Hc. rewrite handleStatusChange_checks in Hc.
    rewrite handleStatusChange_stats. exact (K c Hc).
  - apply K. reflexivity.
Qed.

Lemma runMonitoringCheck_keeps_day_rows_witness :
  everyCheckHasOwnDayRow
    (DB (fst (runMonitoringCheck httpMonitor (cycleAt 0 (Responds 200 "")) emptyEnv))).
Proof.
  apply (runMonitoringCheck_keeps_day_rows httpMonitor (cycleAt 0 (Responds 200 ""))
           emptyEnv eq_refl).
  intros c [].
Defined.

Lemma no_element_nil {A} (l : list A) : (forall x, ~ In x l) -> l = [].
Proof. destruct l as [|a l]; [reflexivity|]. intros H. destruct (H a). now left. Qed.

(** X18. When every check has left a daily row of its date, as the cycles
    keep it, [calculateStats] writes no nightly row at all: it is either
    skipped or finds no check of the day for any monitor, so that
    [uptime_stats] afterwards is what it was, or what the purge of rows older
    than 365 days keeps of it. *)
Theorem calculateStats_writes_no_row (now : Z) (db : Database) :
  everyCheckHasDayRow db ->
  uptime_stats (calculateStats now db) = uptime_stats db
  \/ uptime_stats (calculateStats now db) = retained now (uptime_stats db).
Proof.
  intros Inv. rewrite calculateStats_unfold.
  destruct (alreadyComputed now db) eqn:C; [now left|].
  destruct (filter isActive (monitors db)) as [|m l] eqn:A; [now left|].
  right. cbn zeta.
  assert (F : Forall (fun m => checksOn (id m) (dateOf now) db = []) (m :: l)).
  { apply Forall_forall. intros x _. apply no_element_nil. intros c Hc.
    apply (NightlyFacts.checksOn_spec (id x) (dateOf now) db) in Hc.
    destruct Hc as (Hin & _ & Hd).
    destruct (Inv c Hin) as (r & Hr & Hdr).
    assert (T : alreadyComputed now db = true).
    { apply alreadyComputed_iff. exists r. split; [exact Hr | congruence]. }
    congruence. }
  rewrite (aggregate_none now (m :: l) db F).
  now rewrite updateMonitorSummaryStats_stats.
Qed.

Lemma calculateStats_writes_no_row_witness :
  uptime_stats (calculateStats 86400000
                  (DB (saveCheckResult 1 (sample "up" (Some 100)) 1 emptyEnv)))
  = uptime_stats (DB (saveCheckResult 1 (sample "up" (Some 100)) 1 emptyEnv))
  \/ uptime_stats (calculateStats 86400000
                     (DB (saveCheckResult 1 (sample "up" (Some 100)) 1 emptyEnv)))
     = retained 86400000
         (uptime_stats (DB (saveCheckResult 1 (sample "up" (Some 100)) 1 emptyEnv))).
Proof.
  apply calculateStats_writes_no_row.
  apply saveCheckResult_keeps_cover; [reflexivity|].
  intros c [].
Defined.

(* ================================================================== *)
(** ** The nightly job on the tables of the repository *)
(* ================================================================== *)

(** The [SELECT] and the [INSERT OR REPLACE] of [calculateMonitorStats]. *)
Definition checksOfDayStatement : Statement :=
  ("monitor_checks", ["status"; "response_time_ms"; "checked_at"; "monitor_id"]).

Definition nightlyInsertStatement : Statement :=
  ("uptime_stats",
   ["monitor_id"; "date"; "total_checks"; "up_checks"; "down_checks";
    "uptime_percentage"; "avg_response_time"; "min_response_time";
    "max_response_time"; "downtime_duration"; "downtime_incidents"]).

(** [calculateMonitorStats(monitorId, date, env)] on tables declared by [s]:
    a statement that throws is caught by the function's own [catch]. *)
Definition calculateMonitorStatsOn (s : Schema) (monitorId date : Z) (db : Database)
    : Database :=
  if negb (runs s checksOfDayStatement) then db
  else
    match checksOn monitorId date db with
    | [] => db
    | _ => if runs s nightlyInsertStatement
           then calculateMonitorStats monitorId date db
           else db
    end.

(** [calculateStats(env)] on tables declared by [s]. *)
Definition calculateStatsOn (s : Schema) (now : Z) (db : Database) : Database :=
  let today := dateOf now in
  if negb (runs s ("uptime_stats", ["date"])) then db
  else if 0 <? Z.of_nat (List.length (filter (fun r => st_date r =? today)
                                        (uptime_stats db)))
  then db
  else if negb (runs s activeMonitorsStatement) then db
  else
    match filter isActive (monitors db) with
    | [] => db
    | active =>
        let db1 :=
          fold_left (fun d m => calculateMonitorStatsOn s (id m) today d) active db in
        let db2 :=
          setStats db1
            (filter (fun r => negb (st_date r <? today - 365)) (uptime_stats db1)) in
        updateMonitorSummaryStatsOn s now db2
    end.

Lemma calculateMonitorStatsOn_schema (monitorId date : Z) (db : Database) :
  calculateMonitorStatsOn schema monitorId date db = db.
Proof.
  unfold calculateMonitorStatsOn.
  change (runs schema checksOfDayStatement) with true.
  change (runs schema nightlyInsertStatement) with false.
  cbn [negb]. now destruct (checksOn monitorId date db).
Qed.

Lemma updateMonitorSummaryStatsOn_schema (now : Z) (db : Database) :
  updateMonitorSummaryStatsOn schema now db = db.
Proof.
  unfold updateMonitorSummaryStatsOn.
  change (runs schema activeMonitorsStatement) with true.
  change (forallb (runs schema) summaryStatements) with false.
  cbn [negb]. now destruct (filter isActive (monitors db)).
Qed.

Lemma fold_left_unchanged {A B} (f : A -> B -> A) (l : list B) (a : A) :
  (forall x y, f x y = x) -> fold_left f l a = a.
Proof.
  intros H. induction l as [|y l IH]; [reflexivity|]. cbn [fold_left].
  now rewrite H.
Qed.

(** X19. On the tables of the repository the nightly job writes neither a
    daily row nor a summary: the [INSERT OR REPLACE] of
    [calculateMonitorStats] names seven columns [uptime_stats] does not have
    and is caught for every monitor, and so is the summary update.  Monitors
    and checks are left as they are, and [uptime_stats] is what it was or,
    when the job is not skipped and there is an active monitor, what the
    purge of rows older than 365 days keeps of it. *)
Theorem calculateStats_on_repository_tables (now : Z) (db : Database) :
  let db' := calculateStatsOn schema now db in
  monitors db' = monitors db
  /\ monitor_checks db' = monitor_checks db
  /\ (uptime_stats db' = uptime_stats db
      \/ uptime_stats db' = retained now (uptime_stats db)).
Proof.
  cbv zeta. unfold calculateStatsOn.
  change (runs schema ("uptime_stats", ["date"])) with true.
  change (runs schema activeMonitorsStatement) with true.
  cbn [negb].
  destruct (0 <? _); [repeat split; now left|].
  destruct (filter isActive (monitors db)) as [|m l]; [repeat split; now left|].
  rewrite updateMonitorSummaryStatsOn_schema.
  rewrite (fold_left_unchanged
             (fun d m0 => calculateMonitorStatsOn schema (id m0) (dateOf now) d)
             (m :: l) db
             (fun d m0 => calculateMonitorStatsOn_schema (id m0) (dateOf now) d)).
  cbn [monitors monitor_checks uptime_stats setStats].
  repeat split. now right.
Qed.

(* ================================================================== *)
(** * The notification sender (notifications.js) *)
(* ================================================================== *)

(** A row of [alert_contacts] with the columns notifications.js names. *)
Record Contact := {
  ct_id : Z;
  ct_type : string;
  ct_destination : string;
  ct_settings : option string;
  ct_is_active : option Z;
  ct_is_enabled : option Z
}.

(** [JSON.parse(contact.settings)], as far as the senders read it. *)
Record ContactSettings := {
  bot_token : option string;
  chat_id : option string
}.

(** A row of the query of [processNotifications], one per monitor. *)
Record MonitorRow := {
  mr_id : Z;
  mr_name : string;
  mr_url : option string;
  mr_user_id : Z;
  mr_alert_contacts : string;
  mr_alert_settings : option string;
  current_status : string;
  mr_error_message : option string;
  mr_response_time_ms : option Z;
  mr_checked_at : Z;
  previous_status : option string
}.

(** Rows of [alert_logs]. *)
Record AlertLog := {
  al_user_id : Z;
  al_alert_contact_id : Z;
  al_monitor_id : Z;
  al_type : string;
  al_status : string;
  al_message : string;
  al_created_at : Z
}.

(** What the outbound [fetch] of a sender comes to. *)
Inductive Delivery :=
| Answered (ok : bool)
| Failed (message : string).

(** The notification built for one monitor; the body text, which carries a
    locale-dependent date, goes to the channel only and is left out. *)
Record NotificationPayload := {
  np_type : string;
  np_title : string
}.

Section Notifications.

(** [JSON.parse] on the two settings columns. *)
Variable parseContactSettings : string -> Completion ContactSettings.
Variable parseAlertSettings : string -> Completion AlertSettings.

(** Whether a bound id text selects a key in [id IN (?, ...)], as the store
    coerces it. *)
Variable selectsId : string -> Z -> bool.

(** What the channel of a contact answers. *)
Variable channel : Contact -> Delivery.

Definition nonEmpty (s : option string) : bool :=
  match s with
  | Some (String _ _) => true
  | _ => false
  end.

(** [response.ok], or [false] from the [catch] of a sender. *)
Definition delivered (contact : Contact) : bool :=
  match channel contact with
  | Answered ok => ok
  | Failed _ => false
  end.

Definition sendTelegramNotification (contact : Contact) (settings : ContactSettings) : bool :=
  if negb (nonEmpty (bot_token settings)) || negb (nonEmpty (chat_id settings))
  then false
  else delivered contact.

Definition noSettings : ContactSettings := {| bot_token := None; chat_id := None |}.

Definition sendNotification (contact : Contact) : Completion bool :=
  let parsed :=
    match ct_settings contact with
    | Some (String c rest) => parseContactSettings (String c rest)
    | _ => Returns noSettings
    end in
  match parsed with
  | Throws message => Throws message
  | Returns contactSettings =>
      let t := ct_type contact in
      if String.eqb t "email" then Returns true
      else if String.eqb t "webhook" then Returns (delivered contact)
      else if String.eqb t "discord" then Returns (delivered contact)
      else if String.eqb t "slack" then Returns (delivered contact)
      else if String.eqb t "telegram"
           then Returns (sendTelegramNotification contact contactSettings)
      else Returns false
  end.

(** The contacts [processMonitorNotification] selects. *)
Definition selectedContacts (alertContactIds : list string) (contacts : list Contact)
    : list Contact :=
  filter (fun c => existsb (fun i => selectsId i (ct_id c)) alertContactIds
                   && match ct_is_active c with Some 1 => true | _ => false end
                   && match ct_is_enabled c with Some 1 => true | _ => false end)
    contacts.

(** The row logged for one contact. *)
Definition logFor (monitor : MonitorRow) (notification : NotificationPayload)
    (now : Z) (contact : Contact) : AlertLog :=
  match sendNotification contact with
  | Returns success =>
      {| al_user_id := mr_user_id monitor;
         al_alert_contact_id := ct_id contact;
         al_monitor_id := mr_id monitor;
         al_type := np_type notification;
         al_status := if success then "sent" else "failed";
         al_message := if success then np_title notification
                       else "Failed to send notification";
         al_created_at := now |}
  | Throws message =>
      {| al_user_id := mr_user_id monitor;
         al_alert_contact_id := ct_id contact;
         al_monitor_id := mr_id monitor;
         al_type := np_type notification;
         al_status := "failed";
         al_message := message;
         al_created_at := now |}
  end.

(** [processMonitorNotification(monitor, env)] on the contacts table and
    the alert log. *)
Definition processMonitorNotification (monitor : MonitorRow) (now : Z)
    (contacts : list Contact) (alert_logs : list AlertLog) : list AlertLog :=
  let alertContactIds :=
    filter (fun i => match JS.trim i with EmptyString => false | _ => true end)
      (JS.split "," (mr_alert_contacts monitor)) in
  let parsed :=
    match mr_alert_settings monitor with
    | Some (String c rest) => parseAlertSettings (String c rest)
    | _ => Returns {| as_notify_on_down := None; as_notify_on_up := None |}
    end in
  match parsed with
  | Throws _ => alert_logs
  | Returns alertSettings =>
      match alertContactIds with
      | [] => alert_logs
      | _ =>
          match selectedContacts alertContactIds contacts with
          | [] => alert_logs
          | results =>
              let isDownNow := String.eqb (current_status monitor) "down" in
              let isRecovered :=
                String.eqb (current_status monitor) "up"
                && match previous_status monitor with
                   | Some p => String.eqb p "down"
                   | None => false
                   end in
              let shouldNotifyDown :=
                match as_notify_on_down alertSettings with
                | Some false => false
                | _ => true
                end in
              let shouldNotifyUp :=
                match as_notify_on_up alertSettings with
                | Some false => false
                | _ => true
                end in
              if isDownNow && negb shouldNotifyDown then alert_logs
              else if isRecovered && negb shouldNotifyUp then alert_logs
              else
                let notification :=
                  {| np_type := if isDownNow then "down"
                                else if isRecovered then "recovery"
                                else "status_change";
                     np_title := if isDownNow
                                 then "🚨 " ^^ mr_name monitor ^^ " is DOWN"
                                 else "✅ " ^^ mr_name monitor ^^ " is back UP" |} in
                fold_left
                  (fun logs contact => logs ++ [logFor monitor notification now contact])
                  results alert_logs
          end
      end
  end.

End Notifications.

(** The id texts of [monitor.alert_contacts] that are not blank. *)
Definition alertContactIdsOf (monitor : MonitorRow) : list string :=
  filter (fun i => match JS.trim i with EmptyString => false | _ => true end)
    (JS.split "," (mr_alert_contacts monitor)).

Lemma fold_append_map {A B} (f : A -> B) (l : list A) (acc : list B) :
  fold_left (fun logs x => logs ++ [f x]) l acc = acc ++ map f l.
Proof.
  revert acc. induction l as [|x l IH]; intros acc; cbn [fold_left map].
  - now rewrite app_nil_r.
  - rewrite IH, <- app_assoc. reflexivity.
Qed.

(** Either nothing is logged, or one row per selected contact, built by
    [logFor] from one and the same notification. *)
Lemma processMonitorNotification_shape
    (parseContactSettings : string -> Completion ContactSettings)
    (parseAlertSettings : string -> Completion AlertSettings)
    (selectsId : string -> Z -> bool) (channel : Contact -> Delivery)
    (monitor : MonitorRow) (now : Z) (contacts : list Contact) (logs : list AlertLog) :
  processMonitorNotification parseContactSettings parseAlertSettings selectsId channel
    monitor now contacts logs = logs
  \/ exists notification,
       processMonitorNotification parseContactSettings parseAlertSettings selectsId
         channel monitor now contacts logs
       = logs ++ map (logFor parseContactSettings channel monitor notification now)
                   (selectedContacts selectsId (alertContactIdsOf monitor) contacts)
       /\ np_type notification
          = (if String.eqb (current_status monitor) "down" then "down"
             else if String.eqb (current_status monitor) "up"
                     && match previous_status monitor with
                        | Some p => String.eqb p "down"
                        | None => false
                        end
                  then "recovery" else "status_change")
       /\ np_title notification
          = (if String.eqb (current_status monitor) "down"
             then "🚨 " ^^ mr_name monitor ^^ " is DOWN"
             else "✅ " ^^ mr_name monitor ^^ " is back UP").
Proof.
  unfold processMonitorNotification. fold (alertContactIdsOf monitor).
  destruct (match mr_alert_settings monitor with
            | Some (String c rest) => parseAlertSettings (String c rest)
            | _ => Returns {| as_notify_on_down := None; as_notify_on_up := None |}
            end) as [alertSettings|]; [|now left].
  destruct (alertContactIdsOf monitor) as [|i ids] eqn:I; [now left|].
  destruct (selectedContacts selectsId (i :: ids) contacts) as [|c cs] eqn:S; [now left|].
  destruct (_ && negb _); [now left|].
  destruct (_ && negb _); [now left|].
  right. eexists. rewrite fold_append_map. split; [reflexivity|]. split; reflexivity.
Qed.

Lemma logFor_fields
    (parseContactSettings : string -> Completion ContactSettings)
    (channel : Contact -> Delivery) (monitor : MonitorRow)
    (notification : NotificationPayload) (now : Z) (contact : Contact) :
  let log := logFor parseContactSettings channel monitor notification now contact in
  al_alert_contact_id log = ct_id contact
  /\ al_monitor_id log = mr_id monitor
  /\ al_user_id log = mr_user_id monitor
  /\ al_created_at log = now
  /\ al_type log = np_type notification
  /\ (al_status log = "sent" /\ al_message log = np_title notification
      \/ al_status log = "failed").
Proof.
  unfold logFor. destruct (sendNotification _ _ _) as [[|]|]; cbn;
    repeat split; auto.
Qed.

(** The notification a run sets out to deliver, if any; the channels have
    no part in it. *)
Definition plannedNotification
    (parseAlertSettings : string -> Completion AlertSettings)
    (selectsId : string -> Z -> bool)
    (monitor : MonitorRow) (contacts : list Contact) : option NotificationPayload :=
  match (match mr_alert_settings monitor with
         | Some (String c rest) => parseAlertSettings (String c rest)
         | _ => Returns {| as_notify_on_down := None; as_notify_on_up := None |}
         end) with
  | Throws _ => None
  | Returns alertSettings =>
      match alertContactIdsOf monitor,
            selectedContacts selectsId (alertContactIdsOf monitor) contacts with
      | [], _ | _, [] => None
      | _, _ =>
          let isDownNow := String.eqb (current_status monitor) "down" in
          let isRecovered :=
            String.eqb (current_status monitor) "up"
            && match previous_status monitor with
               | Some p => String.eqb p "down"
               | None => false
               end in
          if isDownNow
             && negb match as_notify_on_down alertSettings with
                     | Some false => false
                     | _ => true
                     end
          then None
          else if isRecovered
                  && negb match as_notify_on_up alertSettings with
                          | Some false => false
                          | _ => true
                          end
          then None
          else Some {| np_type := if isDownNow then "down"
                                  else if isRecovered then "recovery"
                                  else "status_change";
                       np_title := if isDownNow
                                   then "🚨 " ^^ mr_name monitor ^^ " is DOWN"
                                   else "✅ " ^^ mr_name monitor ^^ " is back UP" |}
      end
  end.

Lemma processMonitorNotification_planned
    (parseContactSettings : string -> Completion ContactSettings)
    (parseAlertSettings : string -> Completion AlertSettings)
    (selectsId : string -> Z -> bool) (channel : Contact -> Delivery)
    (monitor : MonitorRow) (now : Z) (contacts : list Contact) (logs : list AlertLog) :
  processMonitorNotification parseContactSettings parseAlertSettings selectsId channel
    monitor now contacts logs
  = match plannedNotification parseAlertSettings selectsId monitor contacts with
    | None => logs
    | Some notification =>
        logs ++ map (logFor parseContactSettings channel monitor notification now)
                  (selectedContacts selectsId (alertContactIdsOf monitor) contacts)
    end.
Proof.
  unfold processMonitorNotification, plannedNotification.
  fold (alertContactIdsOf monitor).
  destruct (match mr_alert_settings monitor with
            | Some (String c rest) => parseAlertSettings (String c rest)
            | _ => Returns {| as_notify_on_down := None; as_notify_on_up := None |}
            end) as [alertSettings|]; [|reflexivity].
  destruct (alertContactIdsOf monitor) as [|i ids] eqn:I; [reflexivity|].
  destruct (selectedContacts selectsId (i :: ids) contacts) as [|c cs] eqn:S; [reflexivity|].
  destruct (_ && negb _); [reflexivity|].
  destruct (_ && negb _); [reflexivity|].
  now rewrite fold_append_map.
Qed.

(** X20. [processMonitorNotification] only appends to the alert log.  It
    appends either nothing, or exactly one row for each contact it selected,
    in their order, each row naming that contact, the monitor, its user and
    the time, with status ['sent'] or ['failed']. *)
Theorem processMonitorNotification_one_row_per_contact
    (parseContactSettings : string -> Completion ContactSettings)
    (parseAlertSettings : string -> Completion AlertSettings)
    (selectsId : string -> Z -> bool) (channel : Contact -> Delivery)
    (monitor : MonitorRow) (now : Z) (contacts : list Contact) (logs : list AlertLog) :
  exists added,
    processMonitorNotification parseContactSettings parseAlertSettings selectsId channel
      monitor now contacts logs = logs ++ added
    /\ (added = []
        \/ map al_alert_contact_id added
           = map ct_id (selectedContacts selectsId (alertContactIdsOf monitor) contacts))
    /\ Forall (fun log =>
                 al_monitor_id log = mr_id monitor
                 /\ al_user_id log = mr_user_id monitor
                 /\ al_created_at log = now
                 /\ (al_status log = "sent" \/ al_status log = "failed"))
              added.
Proof.
  destruct (processMonitorNotification_shape parseContactSettings parseAlertSettings
              selectsId channel monitor now contacts logs) as [E|(n & E & _)].
  - exists []. rewrite app_nil_r. split; [exact E|]. split; [now left | constructor].
  - eexists. split; [exact E|]. split.
    + right. rewrite map_map. apply map_ext. intros c.
      apply (logFor_fields parseContactSettings channel monitor n now c).
    + apply Forall_map. apply Forall_forall. intros c _.
      destruct (logFor_fields parseContactSettings channel monitor n now c)
        as (_ & H1 & H2 & H3 & _ & H4).
      repeat split; auto. destruct H4 as [[H4 _]|H4]; auto.
Qed.

(** X21. Deliveries do not affect each other.  Let two runs differ only in
    what the channels answer.  For every selected contact whose own channel
    answers the same in both, the row logged for it is the same in both,
    whatever happens to the deliveries before and after it. *)
Theorem processMonitorNotification_isolates_contacts
    (parseContactSettings : string -> Completion ContactSettings)
    (parseAlertSettings : string -> Completion AlertSettings)
    (selectsId : string -> Z -> bool) (channel channel' : Contact -> Delivery)
    (monitor : MonitorRow) (now : Z) (contacts : list Contact) (logs : list AlertLog)
    (n : nat) (contact : Contact) :
  nth_error (selectedContacts selectsId (alertContactIdsOf monitor) contacts) n
  = Some contact ->
  channel contact = channel' contact ->
  nth_error
    (processMonitorNotification parseContactSettings parseAlertSettings selectsId channel
       monitor now contacts logs) (List.length logs + n)
  = nth_error
      (processMonitorNotification parseContactSettings parseAlertSettings selectsId channel'
         monitor now contacts logs) (List.length logs + n).
Proof.
  intros Hn Hc.
  rewrite !processMonitorNotification_planned.
  destruct (plannedNotification parseAlertSettings selectsId monitor contacts)
    as [notification|]; [|reflexivity].
  rewrite !nth_error_app2 by lia.
  replace (List.length logs + n - List.length logs)%nat with n by lia.
  rewrite !nth_error_map, Hn. cbn [option_map]. f_equal.
  unfold logFor, sendNotification, sendTelegramNotification, delivered.
  now rewrite Hc.
Qed.

(** A store that reads an id text as [parseInt] does, settings that always
    parse, and channels that answer by contact id. *)
Definition readsAsInt (text : string) (key : Z) : bool :=
  match JS.parseInt (JS.trim text) with
  | Some v => v =? key
  | None => false
  end.

Definition plainSettings (_ : string) : Completion ContactSettings :=
  Returns noSettings.

Definition defaultAlertSettings (_ : string) : Completion AlertSettings :=
  Returns {| as_notify_on_down := None; as_notify_on_up := None |}.

Definition twoContacts : list Contact :=
  [{| ct_id := 7; ct_type := "webhook"; ct_destination := "https://hooks.example/a";
      ct_settings := None; ct_is_active := Some 1; ct_is_enabled := Some 1 |};
   {| ct_id := 8; ct_type := "slack"; ct_destination := "https://hooks.example/b";
      ct_settings := None; ct_is_active := Some 1; ct_is_enabled := Some 1 |}].

Definition stalledMonitor : MonitorRow :=
  {| mr_id := 1; mr_name := "api"; mr_url := Some "https://example.org/health";
     mr_user_id := 3;
     mr_alert_contacts := "7,8"; mr_alert_settings := None;
     current_status := "timeout";
     mr_error_message := Some "Request timeout"; mr_response_time_ms := Some 30000;
     mr_checked_at := 600000;
     previous_status := None |}.

Lemma processMonitorNotification_isolates_contacts_witness :
  nth_error
    (processMonitorNotification plainSettings defaultAlertSettings readsAsInt
       (fun c => if ct_id c =? 7 then Failed "connection reset" else Answered true)
       stalledMonitor 1000 twoContacts []) (0 + 1)
  = nth_error
      (processMonitorNotification plainSettings defaultAlertSettings readsAsInt
         (fun _ => Answered true)
         stalledMonitor 1000 twoContacts []) (0 + 1).
Proof.
  exact (processMonitorNotification_isolates_contacts plainSettings defaultAlertSettings
           readsAsInt
           (fun c => if ct_id c =? 7 then Failed "connection reset" else Answered true)
           (fun _ => Answered true)
           stalledMonitor 1000 twoContacts [] 1
           {| ct_id := 8; ct_type := "slack"; ct_destination := "https://hooks.example/b";
              ct_settings := None; ct_is_active := Some 1; ct_is_enabled := Some 1 |}
           eq_refl eq_refl).
Defined.

(** X22. The title knows two cases only.  For a monitor whose status is not
    ['down'] (a first check that ended in ['timeout'] or ['error'] is passed
    on by the query), every row logged as ['sent'] carries the title
    "... is back UP"; when the status is not ['up'] either, the rows are of
    type ['status_change']. *)
Theorem not_down_is_announced_as_back_up
    (parseContactSettings : string -> Completion ContactSettings)
    (parseAlertSettings : string -> Completion AlertSettings)
    (selectsId : string -> Z -> bool) (channel : Contact -> Delivery)
    (monitor : MonitorRow) (now : Z) (contacts : list Contact) (logs : list AlertLog) :
  current_status monitor <> "down" ->
  exists added,
    processMonitorNotification parseContactSettings parseAlertSettings selectsId channel
      monitor now contacts logs = logs ++ added
    /\ Forall (fun log =>
                 al_status log = "sent" ->
                 al_message log = "✅ " ^^ mr_name monitor ^^ " is back UP")
              added
    /\ (current_status monitor <> "up" ->
        Forall (fun log => al_type log = "status_change") added).
Proof.
  intros ND.
  assert (Ed : String.eqb (current_status monitor) "down" = false)
    by now apply String.eqb_neq.
  destruct (processMonitorNotification_shape parseContactSettings parseAlertSettings
              selectsId channel monitor now contacts logs) as [E|(n & E & T & U)].
  - exists []. rewrite app_nil_r. split; [exact E|]. split; [constructor|].
    intros _. constructor.
  - eexists. split; [exact E|]. rewrite Ed in T, U. split.
    + apply Forall_map. apply Forall_forall. intros c _ S.
      destruct (logFor_fields parseContactSettings channel monitor n now c)
        as (_ & _ & _ & _ & _ & [[_ M]|F]).
      * now rewrite M, U.
      * rewrite F in S. discriminate.
    + intros NU. apply String.eqb_neq in NU. rewrite NU in T. cbn [andb] in T.
      apply Forall_map. apply Forall_forall. intros c _.
      destruct (logFor_fields parseContactSettings channel monitor n now c)
        as (_ & _ & _ & _ & Ty & _).
      now rewrite Ty, T.
Qed.

Lemma not_down_is_announced_as_back_up_witness :
  exists added,
    processMonitorNotification plainSettings defaultAlertSettings readsAsInt
      (fun _ => Answered true) stalledMonitor 1000 twoContacts [] = [] ++ added
    /\ Forall (fun log =>
                 al_status log = "sent" ->
                 al_message log = "✅ " ^^ mr_name stalledMonitor ^^ " is back UP")
              added
    /\ (current_status stalledMonitor <> "up" ->
        Forall (fun log => al_type log = "status_change") added).
Proof.
  exact (not_down_is_announced_as_back_up plainSettings defaultAlertSettings readsAsInt
           (fun _ => Answered true) stalledMonitor 1000 twoContacts []
           ltac:(discriminate)).
Defined.

(** X23. What is logged for a contact by its type, whatever its channel
    would answer: ['sent'] with the title for an ['email'] contact whose
    settings are absent or parse; ['failed'] with "Failed to send
    notification" for a contact whose type is none of email, webhook,
    discord, slack and telegram, and for a telegram contact without bot token
    or chat id; ['failed'] with the parser's message for a contact whose
    settings do not parse. *)
Theorem logFor_by_contact_type
    (parseContactSettings : string -> Completion ContactSettings)
    (channel : Contact -> Delivery) (monitor : MonitorRow)
    (notification : NotificationPayload) (now : Z) (contact : Contact) :
  let settings :=
    match ct_settings contact with
    | Some (String c rest) => parseContactSettings (String c rest)
    | _ => Returns noSettings
    end in
  let log := logFor parseContactSettings channel monitor notification now contact in
  (forall message,
      settings = Throws message ->
      al_status log = "failed" /\ al_message log = message)
  /\ (forall parsed,
        settings = Returns parsed ->
        (ct_type contact = "email" ->
         al_status log = "sent" /\ al_message log = np_title notification)
        /\ (ct_type contact = "telegram" ->
            nonEmpty (bot_token parsed) = false \/ nonEmpty (chat_id parsed) = false ->
            al_status log = "failed"
            /\ al_message log = "Failed to send notification")
        /\ (existsb (String.eqb (ct_type contact))
              ["email"; "webhook"; "discord"; "slack"; "telegram"] = false ->
            al_status log = "failed"
            /\ al_message log = "Failed to send notification")).
Proof.
  intros settings log. unfold log, logFor, sendNotification. fold settings.
  split.
  - intros message E. rewrite E. split; reflexivity.
  - intros parsed E. rewrite E. split; [|split].
    + intros T. rewrite T. split; reflexivity.
    + intros T M. rewrite T. cbn [String.eqb Ascii.eqb Bool.eqb].
      unfold sendTelegramNotification.
      destruct M as [M|M]; rewrite M; cbn [negb orb]; [|rewrite orb_true_r];
        split; reflexivity.
    + cbn [existsb]. rewrite !orb_false_iff.
      intros (H1 & H2 & H3 & H4 & H5 & _).
      rewrite H1, H2, H3, H4, H5. split; reflexivity.
Qed.

Lemma logFor_by_contact_type_witness :
  al_status
    (logFor plainSettings (fun _ => Answered true) stalledMonitor
       {| np_type := "down"; np_title := "🚨 api is DOWN" |} 1000
       {| ct_id := 9; ct_type := "teams"; ct_destination := "https://teams.example/hook";
          ct_settings := None; ct_is_active := Some 1; ct_is_enabled := Some 1 |})
  = "failed".
Proof.
  exact (proj1 (proj2 (proj2 (proj2
    (logFor_by_contact_type plainSettings (fun _ => Answered true) stalledMonitor
       {| np_type := "down"; np_title := "🚨 api is DOWN" |} 1000
       {| ct_id := 9; ct_type := "teams"; ct_destination := "https://teams.example/hook";
          ct_settings := None; ct_is_active := Some 1; ct_is_enabled := Some 1 |})
    noSettings eq_refl)) eq_refl)).
Defined.

(* ================================================================== *)
(** ** Who is notified: the queue and the sender *)
(* ================================================================== *)







(* ================================================================== *)
(** ** Timestamps as SQLite compares them *)
(* ================================================================== *)

(** [checked_at] is bound as [new Date().toISOString()], the text
    [YYYY-MM-DDTHH:MM:SS.sssZ]; SQL [datetime(...)] yields the text
    [YYYY-MM-DD HH:MM:SS].  SQLite compares two such values as text, byte by
    byte: the ten characters of the date first (they order as the days do),
    then the separator, then the time of day. *)
Record TimeText := {
  tt_date : Z;
  tt_separator : ascii;
  tt_time : Z
}.

Definition toISOString (t : Z) : TimeText :=
  {| tt_date := dateOf t; tt_separator := "T"%char; tt_time := t mod msPerDay |}.

(** [datetime(t)]: the time of day to the second. *)
Definition datetime (t : Z) : TimeText :=
  {| tt_date := dateOf t; tt_separator := " "%char; tt_time := t mod msPerDay / 1000 |}.

Definition textCompare (a b : TimeText) : comparison :=
  match tt_date a ?= tt_date b with
  | Eq =>
      match Ascii.compare (tt_separator a) (tt_separator b) with
      | Eq => tt_time a ?= tt_time b
      | c => c
      end
  | c => c
  end.

(** SQL [a > b] and [a >= b] in a [WHERE]: a comparison with [NULL] is not
    true. *)
Definition sqlGt (a b : option TimeText) : bool :=
  match a, b with
  | Some x, Some y => match textCompare x y with Gt => true | _ => false end
  | _, _ => false
  end.

Definition sqlGe (a b : option TimeText) : bool :=
  match a, b with
  | Some x, Some y => match textCompare x y with Lt => false | _ => true end
  | _, _ => false
  end.

(* ================================================================== *)
(** ** The monitors the cron handler picks (index.js) *)
(* ================================================================== *)

(** [datetime('now', '-' || n || ' seconds')].  The modifier reads
    [-300 seconds]; for a negative [n] it reads [--300 seconds], which is
    no modifier, and the result is [NULL]. *)
Definition datetimeSecondsBefore (now n : Z) : option TimeText :=
  if n <? 0 then None else Some (datetime (now - 1000 * n)).

(** The rows the inner [SELECT COUNT( * )] counts. *)
Definition recentChecks (now : Z) (m : Monitor) (db : Database) : list CheckRow :=
  filter (fun c => (chk_monitor_id c =? id m)
                   && sqlGt (Some (toISOString (chk_checked_at c)))
                        (datetimeSecondsBefore now (interval_seconds m)))
    (monitor_checks db).

(** The monitors [handleCron] hands to [runMonitoringCheck]. *)
Definition dueMonitors (now : Z) (db : Database) : list Monitor :=
  filter (fun m => isActive m
                   && (Z.of_nat (List.length (recentChecks now m db)) =? 0))
    (monitors db).

(** Two [toISOString] texts order as their instants do. *)
Lemma textCompare_iso (a b : Z) :
  textCompare (toISOString a) (toISOString b) = (a ?= b).
Proof.
  unfold textCompare, toISOString, dateOf, msPerDay. cbn [tt_date tt_separator tt_time].
  change (Ascii.compare "T" "T") with Eq. cbv iota.
  pose proof (Z.div_mod a 86400000 ltac:(lia)).
  pose proof (Z.div_mod b 86400000 ltac:(lia)).
  pose proof (Z.mod_pos_bound a 86400000 ltac:(lia)).
  pose proof (Z.mod_pos_bound b 86400000 ltac:(lia)).
  destruct (Z.compare_spec (a / 86400000) (b / 86400000)).
  - destruct (Z.compare_spec (a mod 86400000) (b mod 86400000));
      symmetry; [apply Z.compare_eq_iff | apply Z.compare_lt_iff | apply Z.compare_gt_iff];
      lia.
  - symmetry. apply Z.compare_lt_iff. lia.
  - symmetry. apply Z.compare_gt_iff. lia.
Qed.

(** A [toISOString] text against a [datetime] text: the dates decide, and
    on equal dates the separator does, ["T"] being above [" "]. *)
Lemma textCompare_iso_datetime (t u : Z) :
  textCompare (toISOString t) (datetime u)
  = if dateOf u <=? dateOf t then Gt else Lt.
Proof.
  unfold textCompare, toISOString, datetime. cbn [tt_date tt_separator tt_time].
  change (Ascii.compare "T" " ") with Gt.
  destruct (Z.compare_spec (dateOf t) (dateOf u)) as [E|L|G];
    destruct (Z.leb_spec (dateOf u) (dateOf t)); try reflexivity; lia.
Qed.

Lemma sqlGt_iso_datetime (t u : Z) :
  sqlGt (Some (toISOString t)) (Some (datetime u)) = (dateOf u <=? dateOf t).
Proof.
  unfold sqlGt. rewrite textCompare_iso_datetime.
  now destruct (dateOf u <=? dateOf t).
Qed.

Lemma sqlGe_iso_datetime (t u : Z) :
  sqlGe (Some (toISOString t)) (Some (datetime u)) = (dateOf u <=? dateOf t).
Proof.
  unfold sqlGe. rewrite textCompare_iso_datetime.
  now destruct (dateOf u <=? dateOf t).
Qed.

Lemma isActive_spec (m : Monitor) : isActive m = true <-> is_active m = Some 1.
Proof.
  unfold isActive. destruct (is_active m) as [[|[| |]|]|]; split; intros H;
    try reflexivity; try discriminate; inversion H.
Qed.

Lemma length_zero_iff (A : Type) (l : list A) :
  (Z.of_nat (List.length l) =? 0) = true <-> l = [].
Proof.
  destruct l; cbn [List.length]; split; intros H; try reflexivity; try discriminate.
Qed.

Lemma filter_nil_iff (A : Type) (f : A -> bool) (l : list A) :
  filter f l = [] <-> forall x, In x l -> f x = false.
Proof.
  induction l as [|a l IH]; cbn [filter].
  - split; [intros _ x []|reflexivity].
  - destruct (f a) eqn:E; split.
    + discriminate.
    + intros H. specialize (H a (or_introl eq_refl)). congruence.
    + intros H x [<-|Hin]; [exact E|now apply IH].
    + intros H. apply IH. intros x Hin. apply H. now right.
Qed.

(** X24. The cron handler's interval is a matter of dates.  With a
    non-negative [interval_seconds], a monitor is picked exactly when it is
    active and none of its checks is dated on or after the day on which
    [now - interval_seconds] falls; the time of day of a check plays no
    part. *)
Theorem dueMonitors_by_date (now : Z) (db : Database) (m : Monitor) :
  0 <= interval_seconds m ->
  (In m (dueMonitors now db) <->
   In m (monitors db)
   /\ is_active m = Some 1
   /\ forall c, In c (monitor_checks db) -> chk_monitor_id c = id m ->
        dateOf (chk_checked_at c) < dateOf (now - 1000 * interval_seconds m)).
Proof.
  intros Hi. unfold dueMonitors. rewrite filter_In, andb_true_iff, isActive_spec,
    length_zero_iff.
  unfold recentChecks, datetimeSecondsBefore.
  destruct (Z.ltb_spec (interval_seconds m) 0) as [|_]; [lia|].
  rewrite filter_nil_iff.
  split.
  - intros (Hin & Ha & Hc). repeat split; auto. intros c Hcin Hid.
    specialize (Hc c Hcin). rewrite sqlGt_iso_datetime in Hc.
    apply Z.eqb_eq in Hid. rewrite Hid in Hc. cbn [andb] in Hc.
    apply Z.leb_gt in Hc. exact Hc.
  - intros (Hin & Ha & Hc). repeat split; auto. intros c Hcin.
    rewrite sqlGt_iso_datetime.
    destruct (Z.eqb_spec (chk_monitor_id c) (id m)) as [Hid|]; [|reflexivity].
    cbn [andb]. apply Z.leb_gt. now apply Hc.
Qed.

(** A monitor with a five-minute interval, checked ten minutes after
    midnight, is not picked at six in the evening. *)
Lemma dueMonitors_by_date_witness :
  ~ In httpMonitor
      (dueMonitors 64800000
         (setChecks oneMonitorDB [checkAtMinute 10 "up"])).
Proof.
  intros H.
  apply (proj1 (dueMonitors_by_date 64800000
                  (setChecks oneMonitorDB [checkAtMinute 10 "up"]) httpMonitor
                  ltac:(cbn; lia))) in H.
  destruct H as (_ & _ & H).
  specialize (H (checkAtMinute 10 "up") (or_introl eq_refl) eq_refl).
  vm_compute in H. discriminate.
Defined.

(* ================================================================== *)
(** ** Statistics of a period (statistics.js) *)
(* ================================================================== *)

Record PeriodStats := {
  ps_period : string;
  ps_totalChecks : Z;
  ps_upChecks : Z;
  ps_downChecks : Z;
  ps_uptimePercentage : Q;
  ps_responseTime_avg : Z;
  ps_responseTime_min : Z;
  ps_responseTime_max : Z
}.

(** The [dateFilter] chosen by the [switch], as milliseconds before now. *)
Definition periodSpan (period : string) : Z :=
  if String.eqb period "1h" then 3600000
  else if String.eqb period "24h" then 24 * 3600000
  else if String.eqb period "7d" then 7 * msPerDay
  else if String.eqb period "30d" then 30 * msPerDay
  else 24 * 3600000.

(** The values of a column that are not [NULL]. *)
Definition present {A} (column : list (option A)) : list A :=
  flat_map (fun v => match v with Some x => [x] | None => [] end) column.

(** SQL [MIN] and [MAX]: [NULL] over no value. *)
Definition sqlMin (column : list (option Z)) : option Z :=
  match present column with
  | [] => None
  | values => Some (minimum values)
  end.

Definition sqlMax (column : list (option Z)) : option Z :=
  match present column with
  | [] => None
  | values => Some (maximum values)
  end.

(** [CASE WHEN status = 'up' THEN response_time_ms END] *)
Definition upResponseTime (c : CheckRow) : option Z :=
  if isUp (chk_status c) then chk_response_time_ms c else None.

Definition checksSince (monitorId : Z) (threshold : TimeText) (db : Database)
  : list CheckRow :=
  filter (fun c => (chk_monitor_id c =? monitorId)
                   && sqlGe (Some (toISOString (chk_checked_at c))) (Some threshold))
    (monitor_checks db).

Definition calculatePeriodStats (monitorId : Z) (period : string) (now : Z)
    (db : Database) : PeriodStats :=
  let rows := checksSince monitorId (datetime (now - periodSpan period)) db in
  let stats_total_checks := Z.of_nat (List.length rows) in
  let stats_up_checks :=
    Z.of_nat (List.length (filter (fun c => isUp (chk_status c)) rows)) in
  let stats_down_checks := Z.of_nat (List.length (filter isDown rows)) in
  let stats_avg_response_time :=
    sqlAvg (map (fun c => option_map inject_Z (upResponseTime c)) rows) in
  let stats_min_response_time := sqlMin (map upResponseTime rows) in
  let stats_max_response_time := sqlMax (map upResponseTime rows) in
  let uptimePercentage :=
    if 0 <? stats_total_checks
    then (inject_Z stats_up_checks / inject_Z stats_total_checks * 100)%Q
    else 0%Q in
  {| ps_period := period;
     ps_totalChecks := stats_total_checks;
     ps_upChecks := stats_up_checks;
     ps_downChecks := stats_down_checks;
     ps_uptimePercentage := round2 uptimePercentage;
     ps_responseTime_avg := JS.Math_round (qOr stats_avg_response_time 0);
     ps_responseTime_min := JS.numOr0 stats_min_response_time;
     ps_responseTime_max := JS.numOr0 stats_max_response_time |}.

Lemma checksSince_by_date (monitorId u : Z) (db : Database) :
  checksSince monitorId (datetime u) db
  = filter (fun c => (chk_monitor_id c =? monitorId)
                     && (dateOf u <=? dateOf (chk_checked_at c)))
      (monitor_checks db).
Proof.
  unfold checksSince. apply filter_ext. intros c.
  now rewrite sqlGe_iso_datetime.
Qed.

(** X26. The period of [calculatePeriodStats] is counted in whole days:
    the checks that enter the figures are those dated on or after the day on
    which the start of the period falls, so ['1h'] takes in every check
    since that day's midnight. *)
Theorem calculatePeriodStats_counts_whole_days (monitorId : Z) (period : string)
    (now : Z) (db : Database) :
  ps_totalChecks (calculatePeriodStats monitorId period now db)
  = Z.of_nat
      (List.length
         (filter (fun c => (chk_monitor_id c =? monitorId)
                           && (dateOf (now - periodSpan period)
                               <=? dateOf (chk_checked_at c)))
            (monitor_checks db))).
Proof.
  unfold calculatePeriodStats. cbn [ps_totalChecks].
  now rewrite checksSince_by_date.
Qed.

Lemma fold_min_le (l : list Z) (a : Z) :
  fold_left Z.min l a <= a /\ forall x, In x l -> fold_left Z.min l a <= x.
Proof.
  revert a. induction l as [|y l IH]; intros a; cbn [fold_left].
  - split; [lia|intros x []].
  - destruct (IH (Z.min a y)) as [H1 H2]. split; [lia|].
    intros x [<-|Hin]; [lia|now apply H2].
Qed.

Lemma fold_max_ge (l : list Z) (a : Z) :
  a <= fold_left Z.max l a /\ forall x, In x l -> x <= fold_left Z.max l a.
Proof.
  revert a. induction l as [|y l IH]; intros a; cbn [fold_left].
  - split; [lia|intros x []].
  - destruct (IH (Z.max a y)) as [H1 H2]. split; [lia|].
    intros x [<-|Hin]; [lia|now apply H2].
Qed.

Lemma minimum_le (l : list Z) (x : Z) : In x l -> minimum l <= x.
Proof.
  destruct l as [|a l]; [intros []|]. cbn [minimum].
  destruct (fold_min_le l a) as [H1 H2]. intros [<-|Hin]; [exact H1|now apply H2].
Qed.

Lemma maximum_ge (l : list Z) (x : Z) : In x l -> x <= maximum l.
Proof.
  destruct l as [|a l]; [intros []|]. cbn [maximum].
  destruct (fold_max_ge l a) as [H1 H2]. intros [<-|Hin]; [exact H1|now apply H2].
Qed.

Lemma sum_between (l : list Z) (lo hi : Z) (acc : Q) :
  (forall x, In x l -> lo <= x <= hi) ->
  (acc + inject_Z lo * inject_Z (Z.of_nat (List.length l))
   <= fold_left Qplus (map inject_Z l) acc)%Q
  /\ (fold_left Qplus (map inject_Z l) acc
      <= acc + inject_Z hi * inject_Z (Z.of_nat (List.length l)))%Q.
Proof.
  revert acc. induction l as [|x l IH]; intros acc H.
  - cbn [map fold_left List.length Z.of_nat].
    change (inject_Z 0) with 0%Q. split; nra.
  - cbn [map fold_left List.length].
    destruct (IH (acc + inject_Z x)%Q (fun y Hy => H y (or_intror Hy))) as [L U].
    destruct (H x (or_introl eq_refl)) as [Hlo Hhi].
    rewrite Zle_Qle in Hlo, Hhi.
    rewrite Nat2Z.inj_succ. unfold Z.succ. rewrite inject_Z_plus.
    change (inject_Z 1) with 1%Q.
    split; nra.
Qed.

Lemma Math_round_inject (n : Z) : JS.Math_round (inject_Z n) = n.
Proof.
  unfold JS.Math_round, Qfloor, Qplus, inject_Z. cbn -[Z.mul Z.div Z.add].
  symmetry. apply (Z.div_unique _ _ _ 1); lia.
Qed.

Lemma present_inject (column : list (option Z)) :
  present (map (option_map inject_Z) column) = map inject_Z (present column).
Proof.
  induction column as [|[v|] column IH]; cbn; [reflexivity| |exact IH].
  f_equal. exact IH.
Qed.

Lemma qOr_same (q : Q) : (qOr (Some q) 0 == q)%Q.
Proof.
  unfold qOr. destruct (Qeq_bool q 0) eqn:E; [|reflexivity].
  apply Qeq_bool_eq in E. now rewrite E.
Qed.

(** The rounded [AVG] of a column lies between its [MIN] and its [MAX],
    each with [|| 0] applied. *)
Lemma average_between_extremes (column : list (option Z)) :
  JS.numOr0 (sqlMin column)
  <= JS.Math_round (qOr (sqlAvg (map (option_map inject_Z) column)) 0)
  <= JS.numOr0 (sqlMax column).
Proof.
  unfold sqlMin, sqlMax, sqlAvg. fold (present (map (option_map inject_Z) column)).
  rewrite present_inject.
  destruct (present column) as [|v values] eqn:E.
  - cbn. lia.
  - set (l := v :: values).
    change (map inject_Z l) with (inject_Z v :: map inject_Z values).
    cbv iota. cbn [JS.numOr0].
    change (inject_Z v :: map inject_Z values) with (map inject_Z l).
    rewrite (NightlyFacts.Math_round_comp' _ _ (qOr_same _)).
    rewrite length_map.
    assert (P : (0 < inject_Z (Z.of_nat (List.length l)))%Q).
    { change 0%Q with (inject_Z 0). rewrite <- Zlt_Qlt. unfold l. cbn [List.length]. lia. }
    destruct (sum_between l (minimum l) (maximum l) 0) as [L U].
    { intros x Hx. split; [now apply minimum_le|now apply maximum_ge]. }
    split.
    + rewrite <- (Math_round_inject (minimum l)) at 1.
      apply NightlyFacts.Math_round_le. rewrite Qred_correct.
      apply Qle_shift_div_l; [exact P|]. nra.
    + rewrite <- (Math_round_inject (maximum l)) at 1.
      apply NightlyFacts.Math_round_le. rewrite Qred_correct.
      apply Qle_shift_div_r; [exact P|]. nra.
Qed.

(** X27. The figures [calculatePeriodStats] returns fit together: up and
    down checks never exceed the total, the uptime percentage lies between 0
    and 100, and the average response time lies between the minimum and the
    maximum. *)
Theorem calculatePeriodStats_figures_fit (monitorId : Z) (period : string) (now : Z)
    (db : Database) :
  let stats := calculatePeriodStats monitorId period now db in
  0 <= ps_upChecks stats
  /\ 0 <= ps_downChecks stats
  /\ ps_upChecks stats + ps_downChecks stats <= ps_totalChecks stats
  /\ (0 <= ps_uptimePercentage stats)%Q
  /\ (ps_uptimePercentage stats <= 100)%Q
  /\ ps_responseTime_min stats <= ps_responseTime_avg stats
  /\ ps_responseTime_avg stats <= ps_responseTime_max stats.
Proof.
  intros stats. unfold stats, calculatePeriodStats.
  cbn [ps_upChecks ps_downChecks ps_totalChecks ps_uptimePercentage
       ps_responseTime_min ps_responseTime_avg ps_responseTime_max].
  set (rows := checksSince monitorId (datetime (now - periodSpan period)) db).
  pose proof (disjoint_filters (fun c => isUp (chk_status c)) isDown rows up_not_down) as D.
  set (ups := List.length (filter (fun c => isUp (chk_status c)) rows)) in *.
  set (downs := List.length (filter isDown rows)) in *.
  split; [lia|]. split; [lia|]. split; [lia|].
  assert (R : (0 <= round2 (if 0 <? Z.of_nat (List.length rows)
                            then inject_Z (Z.of_nat ups)
                                 / inject_Z (Z.of_nat (List.length rows)) * 100
                            else 0)
               /\ round2 (if 0 <? Z.of_nat (List.length rows)
                          then inject_Z (Z.of_nat ups)
                               / inject_Z (Z.of_nat (List.length rows)) * 100
                          else 0) <= 100)%Q).
  { apply round2_within.
    - destruct (Z.ltb_spec 0 (Z.of_nat (List.length rows))) as [T|_]; [|apply Qle_refl].
      apply Qmult_le_0_compat; [|discriminate].
      apply Qle_shift_div_l.
      + change 0%Q with (inject_Z 0). rewrite <- Zlt_Qlt. lia.
      + rewrite Qmult_0_l. change 0%Q with (inject_Z 0). rewrite <- Zle_Qle. lia.
    - destruct (Z.ltb_spec 0 (Z.of_nat (List.length rows))) as [T|_]; [|discriminate].
      assert (F : (inject_Z (Z.of_nat ups) / inject_Z (Z.of_nat (List.length rows))
                   <= 1)%Q).
      { apply Qle_shift_div_r.
        - change 0%Q with (inject_Z 0). rewrite <- Zlt_Qlt. lia.
        - rewrite Qmult_1_l. rewrite <- Zle_Qle. lia. }
      nra. }
  destruct R as [R0 R1]. split; [exact R0|]. split; [exact R1|].
  rewrite <- (map_map upResponseTime (option_map inject_Z)).
  apply average_between_extremes.
Qed.

(** X28. For a monitor without any check, [calculatePeriodStats] reports
    an uptime of 0 percent with every figure at zero. *)
Theorem calculatePeriodStats_without_checks (monitorId : Z) (period : string)
    (now : Z) (db : Database) :
  (forall c, In c (monitor_checks db) -> chk_monitor_id c <> monitorId) ->
  calculatePeriodStats monitorId period now db
  = {| ps_period := period;
       ps_totalChecks := 0; ps_upChecks := 0; ps_downChecks := 0;
       ps_uptimePercentage := 0;
       ps_responseTime_avg := 0; ps_responseTime_min := 0; ps_responseTime_max := 0 |}.
Proof.
  intros H. unfold calculatePeriodStats.
  assert (E : checksSince monitorId (datetime (now - periodSpan period)) db = []).
  { unfold checksSince. apply filter_nil_iff. intros c Hin.
    destruct (Z.eqb_spec (chk_monitor_id c) monitorId) as [Hid|]; [|reflexivity].
    now destruct (H c Hin). }
  rewrite E. reflexivity.
Qed.

Lemma calculatePeriodStats_without_checks_witness :
  ps_uptimePercentage
    (calculatePeriodStats 2 "30d" 64800000
       (setChecks oneMonitorDB [checkAtMinute 10 "up"])) = 0%Q.
Proof.
  exact (f_equal ps_uptimePercentage
           (calculatePeriodStats_without_checks 2 "30d" 64800000
              (setChecks oneMonitorDB [checkAtMinute 10 "up"])
              ltac:(intros c [<-|[]]; discriminate))).
Defined.

(* ================================================================== *)
(** ** The monitors to notify about (notifications.js) *)
(* ================================================================== *)

(** The columns of a [monitors] row that only the notification query reads,
    given by the row's primary key. *)
Record AlertColumns := {
  ac_user_id : Z;
  ac_alert_contacts : option string;
  ac_alert_settings : option string
}.

Definition MonitorRow_eq_dec (a b : MonitorRow) : {a = b} + {a <> b}.
Proof. repeat decide equality. Defined.

Definition checksOf (monitorId : Z) (db : Database) : list CheckRow :=
  filter (fun c => chk_monitor_id c =? monitorId) (monitor_checks db).

(** [SELECT MAX(checked_at)] over some checks; texts written by
    [toISOString] order as their instants. *)
Definition maxCheckedAt (rows : list CheckRow) : option Z :=
  sqlMax (map (fun c => Some (chk_checked_at c)) rows).

(** The rows [prev_mc] joined to a check [mc] of a monitor: the monitor's
    checks at the latest instant before [mc]. *)
Definition previousChecks (monitorId : Z) (mc : CheckRow) (db : Database)
  : list CheckRow :=
  match maxCheckedAt (filter (fun c => chk_checked_at c <? chk_checked_at mc)
                        (checksOf monitorId db)) with
  | Some t => filter (fun c => chk_checked_at c =? t) (checksOf monitorId db)
  | None => []
  end.

(** [JOIN monitor_checks mc ... LEFT JOIN monitor_checks prev_mc ...] for one
    monitor. *)
Definition joinedChecks (monitorId : Z) (db : Database)
  : list (CheckRow * option CheckRow) :=
  flat_map (fun mc =>
              match previousChecks monitorId mc db with
              | [] => [(mc, None)]
              | previous => map (fun p => (mc, Some p)) previous
              end)
    (checksOf monitorId db).

(** The status condition of the [WHERE]; without a previous check,
    [prev_mc.status IS NULL] holds. *)
Definition statusChanged (mc : CheckRow) (prev_mc : option CheckRow) : bool :=
  match prev_mc with
  | Some p =>
      (String.eqb (chk_status mc) "down" && String.eqb (chk_status p) "up")
      || (String.eqb (chk_status mc) "up" && String.eqb (chk_status p) "down")
  | None => true
  end.

Definition isLatest (monitorId : Z) (mc : CheckRow) (db : Database) : bool :=
  match maxCheckedAt (checksOf monitorId db) with
  | Some t => chk_checked_at mc =? t
  | None => false
  end.

Definition notificationRow (m : Monitor) (columns : AlertColumns) (contacts : string)
    (mc : CheckRow) (prev_mc : option CheckRow) : MonitorRow :=
  {| mr_id := id m;
     mr_name := name m;
     mr_url := url m;
     mr_user_id := ac_user_id columns;
     mr_alert_contacts := contacts;
     mr_alert_settings := ac_alert_settings columns;
     current_status := chk_status mc;
     mr_error_message := chk_error_message mc;
     mr_response_time_ms := chk_response_time_ms mc;
     mr_checked_at := chk_checked_at mc;
     previous_status := option_map chk_status prev_mc |}.

(** The query of [processNotifications].  SQL leaves the order of the rows
    open; they are listed here monitor by monitor. *)
Definition monitorsNeedingNotification (now : Z) (alerting : Z -> AlertColumns)
    (db : Database) : list MonitorRow :=
  nodup MonitorRow_eq_dec
    (flat_map
       (fun m =>
          match ac_alert_contacts (alerting (id m)) with
          | Some (String a rest) =>
              flat_map
                (fun joined =>
                   if isLatest (id m) (fst joined) db
                      && sqlGe (Some (toISOString (chk_checked_at (fst joined))))
                           (Some (datetime (now - 10 * 60000)))
                      && statusChanged (fst joined) (snd joined)
                   then [notificationRow m (alerting (id m)) (String a rest)
                           (fst joined) (snd joined)]
                   else [])
                (joinedChecks (id m) db)
          | _ => []
          end)
       (monitors db)).

(** The only check of a monitor that has alert contacts is selected when it
    is recent, whatever its status. *)
Lemma first_check_selected (now : Z) (alerting : Z -> AlertColumns) (db : Database)
    (m : Monitor) (c : CheckRow) (a : ascii) (rest : string) :
  In m (monitors db) ->
  checksOf (id m) db = [c] ->
  dateOf (now - 10 * 60000) <= dateOf (chk_checked_at c) ->
  ac_alert_contacts (alerting (id m)) = Some (String a rest) ->
  In (notificationRow m (alerting (id m)) (String a rest) c None)
    (monitorsNeedingNotification now alerting db).
Proof.
  intros Hm Hc Hd Ha. unfold monitorsNeedingNotification.
  apply nodup_In. apply in_flat_map. exists m. split; [exact Hm|].
  rewrite Ha. unfold joinedChecks, previousChecks, isLatest. rewrite Hc.
  cbn [filter flat_map]. rewrite Z.ltb_irrefl.
  cbn [maxCheckedAt sqlMax map present flat_map app maximum fold_left fst snd].
  unfold maxCheckedAt, sqlMax.
  cbn [map present flat_map app maximum fold_left fst snd].
  rewrite Z.eqb_refl, sqlGe_iso_datetime.
  replace (dateOf (now - 10 * 60000) <=? dateOf (chk_checked_at c)) with true
    by (symmetry; now apply Z.leb_le).
  cbn [andb statusChanged]. now left.
Qed.

(** X30. The ten minutes of the notification query are a matter of dates:
    two runs whose thresholds fall on the same day select the same rows, so
    a status change is selected again at every run of that day while it
    stays the monitor's latest pair of checks. *)
Theorem monitorsNeedingNotification_by_date (now1 now2 : Z)
    (alerting : Z -> AlertColumns) (db : Database) :
  dateOf (now1 - 10 * 60000) = dateOf (now2 - 10 * 60000) ->
  monitorsNeedingNotification now1 alerting db
  = monitorsNeedingNotification now2 alerting db.
Proof.
  intros H. unfold monitorsNeedingNotification. f_equal.
  apply flat_map_ext. intros m.
  destruct (ac_alert_contacts (alerting (id m))) as [[|a rest]|]; try reflexivity.
  apply flat_map_ext. intros joined.
  now rewrite !sqlGe_iso_datetime, H.
Qed.

(** The alert columns of a monitor that names contact 7. *)
Definition alertingByMail (_ : Z) : AlertColumns :=
  {| ac_user_id := 3; ac_alert_contacts := Some "7"; ac_alert_settings := None |}.

(** A change to down one minute after midnight is selected ten minutes
    after midnight and one second before the next. *)
Lemma monitorsNeedingNotification_by_date_witness :
  monitorsNeedingNotification 600000 alertingByMail
    (setChecks oneMonitorDB [checkAtMinute 0 "up"; checkAtMinute 1 "down"])
  = monitorsNeedingNotification 86399000 alertingByMail
      (setChecks oneMonitorDB [checkAtMinute 0 "up"; checkAtMinute 1 "down"]).
Proof.
  exact (monitorsNeedingNotification_by_date 600000 86399000 alertingByMail
           (setChecks oneMonitorDB [checkAtMinute 0 "up"; checkAtMinute 1 "down"])
           eq_refl).
Defined.
